(** * Local-Canvas: the editing engine, embedded and verified

    A shallow embedding of the whiteboard's editing engine:

    - [types.ts]        the document model (shapes, snapshot, history);
    - [shapeUtils.ts]   bounding boxes, hit test, move, resize, rotate;
    - [useHistory.ts]   the bounded undo/redo stack;
    - [useCanvas.ts]    the snapshot operations built on the history hook;
    - [Canvas.tsx]      coordinate transforms, the pointer, wheel and touch
                        handlers, text confirmation;
    - [App.tsx]         the wiring of the component to the hooks, the
                        keyboard and toolbar commands;
    - [exportUtils.ts]  the JSON import and the SVG export.

    Part I is the embedding, file by file, followed by the vocabulary of
    the statements and the sample documents of the worked examples.
    Part II holds the properties of the specification, Part III further
    properties of the code.

    Conventions of the embedding.

    - A JavaScript [number] is an exact rational ([Q]).  Equalities that
      involve arithmetic are stated with [==] ([Qeq]); this is the reading
      of "equal within floating-point tolerance".  [Q] has no NaN and no
      infinities, and its division is total ([q / 0 == 0]), so every
      statement that divides says what it assumes of the divisor.
      The one function that computes with infinities, [exportToSVG], has
      a number type of its own ([Num]), on which the clamp of the zoom
      is stated as well.
    - The arithmetic of [Q] is exact; that of the code rounds to
      doubles.  An equality of numbers ([==]), and an inequality the
      code does not itself test, is read up to that rounding.  The outcome of a comparison is a boolean and has no
      such reading: a property that rests on which side of a padded
      edge a point falls is stated where the sums of the code are exact
      (coordinates on the integer grid) or where the monotonicity of
      rounding decides (the centre of a box whose extents are not
      negative), and a property of [zoom + (1 - zoom)] is stated for a
      zoom in the range of the clamp.
    - A React state hook is a value threaded through the handlers.  A
      handler reads the snapshot of the render it was created in; that
      snapshot is an explicit argument ([canvasState], [history]), and the
      functional updates it queues are state transformers.
    - [Math.random] ids are an argument of the operation that draws one;
      [Math.cos], [Math.sin], [Math.sqrt] and the canvas rectangle are
      fields of a [Host] record. *)

From Stdlib Require Import QArith Qminmax Qabs Lqa Lia ZArith NArith.
From Stdlib Require Import String Bool List.
Import ListNotations.

Local Open Scope Q_scope.
Set Warnings "-register-all".

(* ================================================================== *)
(** * types.ts *)
(* ================================================================== *)

Inductive Tool : Set :=
| select | pen | rectangle | circle | line | arrow | text.

Record Point : Set := mkPoint { px : Q; py : Q }.

Record ViewportState : Set := mkViewport {
  offsetX : Q;
  offsetY : Q;
  zoom : Q
}.

(** A JavaScript string whose content matters (the text of a text shape)
    is its sequence of UTF-16 code units; [text.length] is the length of
    that sequence.  Strings that are only compared or copied (ids,
    colours, font names) are [string]s. *)
Definition jsstring : Set := list N.

(** [BaseShape].  [rotation], [selected] and [zIndex] are optional
    properties: [None] is an absent property ([undefined]). *)
Record BaseShape : Set := mkBase {
  id : string;
  x : Q;
  y : Q;
  width : Q;
  height : Q;
  strokeColor : string;
  fillColor : string;
  strokeWidth : Q;
  roughness : Q;
  rotation : option Q;
  selected : option bool;
  zIndex : option Q
}.

(** The discriminant [type] together with the fields each variant adds. *)
Inductive ShapeVariant : Set :=
| PenShape (points : list Point)
| RectangleShape
| CircleShape
| LineShape (endX endY : Q)
| ArrowShape (endX endY : Q)
| TextShape (content : jsstring) (fontSize : Q) (fontFamily : string).

Record Shape : Set := mkShape {
  base :> BaseShape;
  variant : ShapeVariant
}.

Record CanvasState : Set := mkCanvas {
  shapes : list Shape;
  selectedShapeId : option string;
  currentTool : Tool;
  cs_strokeColor : string;
  cs_fillColor : string;
  cs_strokeWidth : Q;
  cs_roughness : Q;
  cs_fontSize : Q;
  cs_fontFamily : string;
  viewport : ViewportState
}.

Record HistoryState : Set := mkHistory {
  past : list CanvasState;
  present : CanvasState;
  future : list CanvasState
}.

Record BoundingBox : Set := mkBox {
  bb_x : Q;
  bb_y : Q;
  bb_width : Q;
  bb_height : Q
}.

(** ** Object spread: [{ ...o, field: v }] *)

Definition set_selected (b : option bool) (s : Shape) : Shape :=
  let o := base s in
  mkShape (mkBase (id o) (x o) (y o) (width o) (height o) (strokeColor o)
             (fillColor o) (strokeWidth o) (roughness o) (rotation o)
             b (zIndex o))
          (variant s).

Definition set_rotation (r : option Q) (s : Shape) : Shape :=
  let o := base s in
  mkShape (mkBase (id o) (x o) (y o) (width o) (height o) (strokeColor o)
             (fillColor o) (strokeWidth o) (roughness o) r
             (selected o) (zIndex o))
          (variant s).

Definition set_zIndex (z : option Q) (s : Shape) : Shape :=
  let o := base s in
  mkShape (mkBase (id o) (x o) (y o) (width o) (height o) (strokeColor o)
             (fillColor o) (strokeWidth o) (roughness o) (rotation o)
             (selected o) z)
          (variant s).

Definition set_xy (nx ny : Q) (o : BaseShape) : BaseShape :=
  mkBase (id o) nx ny (width o) (height o) (strokeColor o)
    (fillColor o) (strokeWidth o) (roughness o) (rotation o)
    (selected o) (zIndex o).

Definition set_box (nx ny nw nh : Q) (o : BaseShape) : BaseShape :=
  mkBase (id o) nx ny nw nh (strokeColor o)
    (fillColor o) (strokeWidth o) (roughness o) (rotation o)
    (selected o) (zIndex o).

Definition set_size (nw nh : Q) (o : BaseShape) : BaseShape :=
  set_box (x o) (y o) nw nh o.

Definition set_id (i : string) (o : BaseShape) : BaseShape :=
  mkBase i (x o) (y o) (width o) (height o) (strokeColor o)
    (fillColor o) (strokeWidth o) (roughness o) (rotation o)
    (selected o) (zIndex o).

Definition set_shapes (l : list Shape) (c : CanvasState) : CanvasState :=
  mkCanvas l (selectedShapeId c) (currentTool c) (cs_strokeColor c)
    (cs_fillColor c) (cs_strokeWidth c) (cs_roughness c) (cs_fontSize c)
    (cs_fontFamily c) (viewport c).

Definition set_selection (l : list Shape) (sel : option string)
    (c : CanvasState) : CanvasState :=
  mkCanvas l sel (currentTool c) (cs_strokeColor c)
    (cs_fillColor c) (cs_strokeWidth c) (cs_roughness c) (cs_fontSize c)
    (cs_fontFamily c) (viewport c).

Definition set_viewport (v : ViewportState) (c : CanvasState) : CanvasState :=
  mkCanvas (shapes c) (selectedShapeId c) (currentTool c) (cs_strokeColor c)
    (cs_fillColor c) (cs_strokeWidth c) (cs_roughness c) (cs_fontSize c)
    (cs_fontFamily c) v.

Definition set_style (sc fc : string) (sw r fs : Q) (c : CanvasState)
    : CanvasState :=
  mkCanvas (shapes c) (selectedShapeId c) (currentTool c) sc fc sw r fs
    (cs_fontFamily c) (viewport c).

(** ** Truthiness

    [if (canvasState.selectedShapeId)] holds for a non-empty string: both
    [null] and the empty string are falsy.  [shape.zIndex || 0] and
    [if (shape.rotation)] treat an absent property and the number zero
    alike. *)

Definition truthy_id (o : option string) : bool :=
  match o with
  | Some s => negb (String.eqb s EmptyString)
  | None => false
  end.

Definition truthy_num (o : option Q) : bool :=
  match o with
  | Some q => negb (Qeq_bool q 0)
  | None => false
  end.

(** [o || 0] for an optional number. *)
Definition or_zero (o : option Q) : Q :=
  match o with
  | Some q => if Qeq_bool q 0 then 0 else q
  | None => 0
  end.

(** [a > b] on numbers. *)
Definition Qgt_bool (a b : Q) : bool := negb (Qle_bool a b).

(** [id === selectedShapeId] for a shape id and the nullable selection. *)
Definition id_is (i : string) (sel : option string) : bool :=
  match sel with
  | Some s => String.eqb i s
  | None => false
  end.

(* ================================================================== *)
(** * useHistory.ts *)
(* ================================================================== *)

Definition MAX_HISTORY_SIZE : nat := 50.

(** The hook's initial state. *)
Definition useHistory (initialState : CanvasState) : HistoryState :=
  mkHistory [] initialState [].

Definition canUndo (history : HistoryState) : bool :=
  (0 <? length (past history))%nat.

Definition canRedo (history : HistoryState) : bool :=
  (0 <? length (future history))%nat.

(** [newPast.shift()] drops the first element. *)
Definition shift {A : Type} (l : list A) : list A := tl l.

Definition pushToHistory (newState : CanvasState) (prev : HistoryState)
    : HistoryState :=
  let newPast := past prev ++ [present prev] in
  let newPast :=
    if (MAX_HISTORY_SIZE <? length newPast)%nat then shift newPast
    else newPast in
  mkHistory newPast newState [].

(** [undo] and [redo] return the snapshot they hand back together with
    the history after the queued update.  Behind the [canUndo] guard the
    past is non-empty, so the default of [last] is never the result (see
    [undo_previous_in_past]). *)
Definition undo (history : HistoryState) : CanvasState * HistoryState :=
  if negb (canUndo history) then (present history, history)
  else
    let previous := last (past history) (present history) in
    let newPast := removelast (past history) in
    (previous,
     mkHistory newPast previous (present history :: future history)).

Definition redo (history : HistoryState) : CanvasState * HistoryState :=
  if negb (canRedo history) then (present history, history)
  else
    let next := hd (present history) (future history) in
    let newFuture := tl (future history) in
    (next,
     mkHistory (past history ++ [present history]) next newFuture).

Definition clearHistory (initialState : CanvasState) (_ : HistoryState)
    : HistoryState :=
  mkHistory [] initialState [].

Definition replacePresent (newState : CanvasState) (prev : HistoryState)
    : HistoryState :=
  mkHistory (past prev) newState (future prev).

(* ================================================================== *)
(** * shapeUtils.ts *)
(* ================================================================== *)

(** [Math.min(...xs)] and [Math.max(...xs)] over a spread array.  With no
    argument JavaScript answers an infinity, which [Q] lacks; every call
    site is behind a guard that excludes the empty array
    ([points.length === 0], [shapes.length > 0]), so the first case below
    is never evaluated by the code. *)
Definition Math_min (xs : list Q) : Q :=
  match xs with
  | [] => 0
  | a :: r => fold_left Qmin r a
  end.

Definition Math_max (xs : list Q) : Q :=
  match xs with
  | [] => 0
  | a :: r => fold_left Qmax r a
  end.

Definition getShapeBounds (shape : Shape) : BoundingBox :=
  match variant shape with
  | PenShape points =>
      if (length points =? 0)%nat then mkBox (x shape) (y shape) 0 0
      else
        let xs := map px points in
        let ys := map py points in
        let minX := Math_min xs in
        let maxX := Math_max xs in
        let minY := Math_min ys in
        let maxY := Math_max ys in
        mkBox minX minY (maxX - minX) (maxY - minY)
  | LineShape endX endY
  | ArrowShape endX endY =>
      let minX2 := Qmin (x shape) endX in
      let maxX2 := Qmax (x shape) endX in
      let minY2 := Qmin (y shape) endY in
      let maxY2 := Qmax (y shape) endY in
      mkBox minX2 minY2 (maxX2 - minX2) (maxY2 - minY2)
  | _ => mkBox (x shape) (y shape) (width shape) (height shape)
  end.

Definition moveShape (shape : Shape) (deltaX deltaY : Q) : Shape :=
  let moved := set_xy (x shape + deltaX) (y shape + deltaY) shape in
  match variant shape with
  | PenShape points =>
      mkShape moved
        (PenShape
           (map (fun p => mkPoint (px p + deltaX) (py p + deltaY)) points))
  | LineShape endX endY =>
      mkShape moved (LineShape (endX + deltaX) (endY + deltaY))
  | ArrowShape endX endY =>
      mkShape moved (ArrowShape (endX + deltaX) (endY + deltaY))
  | RectangleShape | CircleShape | TextShape _ _ _ =>
      mkShape moved (variant shape)
  end.

Definition resizeShape (shape : Shape) (newBounds : BoundingBox) : Shape :=
  let oldBounds := getShapeBounds shape in
  (* Avoid division by zero *)
  let oldWidth := Qmax (bb_width oldBounds) (1 # 10) in
  let oldHeight := Qmax (bb_height oldBounds) (1 # 10) in
  let scaleX := bb_width newBounds / oldWidth in
  let scaleY := bb_height newBounds / oldHeight in
  let ax v := bb_x newBounds + (v - bb_x oldBounds) * scaleX in
  let ay v := bb_y newBounds + (v - bb_y oldBounds) * scaleY in
  match variant shape with
  | PenShape points =>
      mkShape
        (set_box (bb_x newBounds) (bb_y newBounds)
           (bb_width newBounds) (bb_height newBounds) shape)
        (PenShape (map (fun p => mkPoint (ax (px p)) (ay (py p))) points))
  | LineShape endX endY =>
      mkShape
        (set_box (ax (x shape)) (ay (y shape))
           (bb_width newBounds) (bb_height newBounds) shape)
        (LineShape (ax endX) (ay endY))
  | ArrowShape endX endY =>
      mkShape
        (set_box (ax (x shape)) (ay (y shape))
           (bb_width newBounds) (bb_height newBounds) shape)
        (ArrowShape (ax endX) (ay endY))
  | RectangleShape | CircleShape | TextShape _ _ _ =>
      mkShape
        (set_box (bb_x newBounds) (bb_y newBounds)
           (bb_width newBounds) (bb_height newBounds) shape)
        (variant shape)
  end.

Definition rotateShape (shape : Shape) (r : Q) : Shape :=
  set_rotation (Some r) shape.

(** The hit test rotates the point with [Math.cos] and [Math.sin], which
    are functions of the host and not rational: they are the two
    variables of this section. *)
Section HitTest.

Variables Math_cos Math_sin : Q -> Q.

(** The four comparisons against the padded edges, on the exact
    values; the code compares the doubles nearest to them, which gives
    the same outcome unless a value is within rounding of an edge. *)
Definition in_padded_box (px0 py0 : Q) (bounds : BoundingBox) (padding : Q)
    : bool :=
  Qle_bool (bb_x bounds - padding) px0
  && Qle_bool px0 (bb_x bounds + bb_width bounds + padding)
  && Qle_bool (bb_y bounds - padding) py0
  && Qle_bool py0 (bb_y bounds + bb_height bounds + padding).

Definition isPointInShape (point : Point) (shape : Shape) : bool :=
  let bounds := getShapeBounds shape in
  let padding := 5 in
  if truthy_num (rotation shape) then
    let r := match rotation shape with Some r => r | None => 0 end in
    let boundsCenterX := bb_x bounds + bb_width bounds / 2 in
    let boundsCenterY := bb_y bounds + bb_height bounds / 2 in
    let centerX :=
      match variant shape with
      | LineShape _ _ | ArrowShape _ _ | PenShape _ => boundsCenterX
      | _ => x shape + width shape / 2
      end in
    let centerY :=
      match variant shape with
      | LineShape _ _ | ArrowShape _ _ | PenShape _ => boundsCenterY
      | _ => y shape + height shape / 2
      end in
    let cos := Math_cos (- r) in
    let sin := Math_sin (- r) in
    let dx := px point - centerX in
    let dy := py point - centerY in
    let rotatedX := centerX + (dx * cos - dy * sin) in
    let rotatedY := centerY + (dx * sin + dy * cos) in
    in_padded_box rotatedX rotatedY bounds padding
  else
    in_padded_box (px point) (py point) bounds padding.

(** The loop runs from the last index down and returns the first hit. *)
Definition getShapeAtPoint (point : Point) (l : list Shape) : option Shape :=
  find (isPointInShape point) (rev l).

End HitTest.

(* ================================================================== *)
(** * useCanvas.ts *)
(* ================================================================== *)

Definition initialCanvasState : CanvasState :=
  mkCanvas [] None pen "#ffffff" "transparent" 2 0 16 "Arial, sans-serif"
    (mkViewport 0 0 1).

(** [Partial<{ offsetX; offsetY; zoom }>]: a key is present or absent. *)
Record PartialViewport : Set := mkPartial {
  pv_offsetX : option Q;
  pv_offsetY : option Q;
  pv_zoom : option Q
}.

Definition override (old : Q) (o : option Q) : Q :=
  match o with
  | Some v => v
  | None => old
  end.

(** [{ ...canvasState.viewport, ...viewport }] *)
Definition spread_viewport (old : ViewportState) (p : PartialViewport)
    : ViewportState :=
  mkViewport (override (offsetX old) (pv_offsetX p))
    (override (offsetY old) (pv_offsetY p))
    (override (zoom old) (pv_zoom p)).

(** Every operation below is a callback created in a render whose
    snapshot is [canvasState]; what it returns is the update it queues
    on the history hook. *)
Section UseCanvas.

Variable canvasState : CanvasState.

Definition updateCanvasState (newState : CanvasState)
    : HistoryState -> HistoryState :=
  pushToHistory newState.

Definition setCurrentTool (tool : Tool) : HistoryState -> HistoryState :=
  let newState :=
    mkCanvas (map (set_selected (Some false)) (shapes canvasState)) None tool
      (cs_strokeColor canvasState) (cs_fillColor canvasState)
      (cs_strokeWidth canvasState) (cs_roughness canvasState)
      (cs_fontSize canvasState) (cs_fontFamily canvasState)
      (viewport canvasState) in
  replacePresent newState. (* Don't add tool changes to history *)

Definition setStrokeColor (color : string) : HistoryState -> HistoryState :=
  let newState :=
    set_style color (cs_fillColor canvasState) (cs_strokeWidth canvasState)
      (cs_roughness canvasState) (cs_fontSize canvasState) canvasState in
  replacePresent newState. (* Don't add color changes to history *)

Definition setFillColor (color : string) : HistoryState -> HistoryState :=
  let newState :=
    set_style (cs_strokeColor canvasState) color (cs_strokeWidth canvasState)
      (cs_roughness canvasState) (cs_fontSize canvasState) canvasState in
  replacePresent newState. (* Don't add color changes to history *)

Definition setStrokeWidth (w : Q) : HistoryState -> HistoryState :=
  let newState :=
    set_style (cs_strokeColor canvasState) (cs_fillColor canvasState) w
      (cs_roughness canvasState) (cs_fontSize canvasState) canvasState in
  replacePresent newState. (* Don't add width changes to history *)

Definition setRoughness (r : Q) : HistoryState -> HistoryState :=
  let newState :=
    set_style (cs_strokeColor canvasState) (cs_fillColor canvasState)
      (cs_strokeWidth canvasState) r (cs_fontSize canvasState) canvasState in
  replacePresent newState. (* Don't add roughness changes to history *)

Definition setFontSize (fs : Q) : HistoryState -> HistoryState :=
  let newState :=
    set_style (cs_strokeColor canvasState) (cs_fillColor canvasState)
      (cs_strokeWidth canvasState) (cs_roughness canvasState) fs
      canvasState in
  replacePresent newState. (* Don't add font size changes to history *)

Definition clearCanvas : HistoryState -> HistoryState :=
  let newState := set_selection [] None canvasState in
  pushToHistory newState. (* Add clear action to history *)

Definition deleteSelectedShape : HistoryState -> HistoryState :=
  if truthy_id (selectedShapeId canvasState) then
    let newState :=
      set_selection
        (filter
           (fun shape : Shape => negb (id_is (id shape) (selectedShapeId canvasState)))
           (shapes canvasState))
        None canvasState in
    pushToHistory newState (* Add delete action to history *)
  else fun h => h.

(** [newId] is the value of [Math.random().toString(36).substr(2, 9)]. *)
Definition duplicateSelectedShape (newId : string)
    : HistoryState -> HistoryState :=
  if truthy_id (selectedShapeId canvasState) then
    match
      find (fun shape : Shape => id_is (id shape) (selectedShapeId canvasState))
        (shapes canvasState)
    with
    | Some selectedShape =>
        let duplicatedShape :=
          set_selected (Some false)
            (mkShape
               (set_id newId
                  (set_xy (x selectedShape + 20) (y selectedShape + 20)
                     selectedShape))
               (variant selectedShape)) in
        let newState :=
          set_selection
            (map (set_selected (Some false)) (shapes canvasState)
               ++ [duplicatedShape])
            (Some (id duplicatedShape)) canvasState in
        pushToHistory newState (* Add duplicate action to history *)
    | None => fun h => h
    end
  else fun h => h.

(** [undo()] hands back a snapshot object, which is always truthy, so
    the [replacePresent] that follows always runs. *)
Definition undoAction (h : HistoryState) : HistoryState :=
  let (previousState, h1) := undo h in
  replacePresent previousState h1.

Definition redoAction (h : HistoryState) : HistoryState :=
  let (nextState, h1) := redo h in
  replacePresent nextState h1.

Definition setViewport (v : PartialViewport) : HistoryState -> HistoryState :=
  let newState :=
    set_viewport (spread_viewport (viewport canvasState) v) canvasState in
  replacePresent newState. (* Don't add viewport changes to history *)

Definition panViewport (deltaX deltaY : Q) : HistoryState -> HistoryState :=
  setViewport
    (mkPartial (Some (offsetX (viewport canvasState) + deltaX))
       (Some (offsetY (viewport canvasState) + deltaY))
       None).

Definition zoomViewport (zoomDelta : Q) (centerX centerY : option Q)
    : HistoryState -> HistoryState :=
  let newZoom :=
    Qmax (1 # 10) (Qmin 5 (zoom (viewport canvasState) + zoomDelta)) in
  match centerX, centerY with
  | Some cx, Some cy =>
      (* Zoom towards a specific point *)
      let zoomRatio := newZoom / zoom (viewport canvasState) in
      let newOffsetX :=
        cx - (cx - offsetX (viewport canvasState)) * zoomRatio in
      let newOffsetY :=
        cy - (cy - offsetY (viewport canvasState)) * zoomRatio in
      setViewport (mkPartial (Some newOffsetX) (Some newOffsetY) (Some newZoom))
  | _, _ => setViewport (mkPartial None None (Some newZoom))
  end.

Definition bringForward : HistoryState -> HistoryState :=
  if truthy_id (selectedShapeId canvasState) then
    let newState :=
      set_shapes
        (map
           (fun shape : Shape =>
              if id_is (id shape) (selectedShapeId canvasState)
              then set_zIndex (Some (or_zero (zIndex shape) + 1)) shape
              else shape)
           (shapes canvasState))
        canvasState in
    pushToHistory newState
  else fun h => h.

Definition sendBackward : HistoryState -> HistoryState :=
  if truthy_id (selectedShapeId canvasState) then
    let newState :=
      set_shapes
        (map
           (fun shape : Shape =>
              if id_is (id shape) (selectedShapeId canvasState)
              then set_zIndex (Some (Qmax 0 (or_zero (zIndex shape) - 1))) shape
              else shape)
           (shapes canvasState))
        canvasState in
    pushToHistory newState
  else fun h => h.

End UseCanvas.

(* ================================================================== *)
(** * Canvas.tsx *)
(* ================================================================== *)

Record TextInput : Set := mkTextInput {
  ti_x : Q;
  ti_y : Q;
  visible : bool
}.

(** The component's own [useState] cells. *)
Record CanvasUI : Set := mkUI {
  isDrawing : bool;
  isDragging : bool;
  isPanning : bool;
  dragStart : option Point;
  panStart : option Point;
  currentShape : option Shape;
  lastTouchDistance : option Q;
  textInput : TextInput
}.

Definition initialUI : CanvasUI :=
  mkUI false false false None None None None (mkTextInput 0 0 false).

Definition setIsDrawing (b : bool) (u : CanvasUI) : CanvasUI :=
  mkUI b (isDragging u) (isPanning u) (dragStart u) (panStart u)
    (currentShape u) (lastTouchDistance u) (textInput u).

Definition setIsDragging (b : bool) (u : CanvasUI) : CanvasUI :=
  mkUI (isDrawing u) b (isPanning u) (dragStart u) (panStart u)
    (currentShape u) (lastTouchDistance u) (textInput u).

Definition setIsPanning (b : bool) (u : CanvasUI) : CanvasUI :=
  mkUI (isDrawing u) (isDragging u) b (dragStart u) (panStart u)
    (currentShape u) (lastTouchDistance u) (textInput u).

Definition setDragStart (p : option Point) (u : CanvasUI) : CanvasUI :=
  mkUI (isDrawing u) (isDragging u) (isPanning u) p (panStart u)
    (currentShape u) (lastTouchDistance u) (textInput u).

Definition setPanStart (p : option Point) (u : CanvasUI) : CanvasUI :=
  mkUI (isDrawing u) (isDragging u) (isPanning u) (dragStart u) p
    (currentShape u) (lastTouchDistance u) (textInput u).

Definition setCurrentShape (s : option Shape) (u : CanvasUI) : CanvasUI :=
  mkUI (isDrawing u) (isDragging u) (isPanning u) (dragStart u) (panStart u)
    s (lastTouchDistance u) (textInput u).

Definition setLastTouchDistance (d : option Q) (u : CanvasUI) : CanvasUI :=
  mkUI (isDrawing u) (isDragging u) (isPanning u) (dragStart u) (panStart u)
    (currentShape u) d (textInput u).

Definition setTextInput (t : TextInput) (u : CanvasUI) : CanvasUI :=
  mkUI (isDrawing u) (isDragging u) (isPanning u) (dragStart u) (panStart u)
    (currentShape u) (lastTouchDistance u) t.

Record MouseEvent : Set := mkMouse {
  clientX : Q;
  clientY : Q;
  button : Z;
  ctrlKey : bool
}.

Record WheelEvent : Set := mkWheel {
  wheel_clientX : Q;
  wheel_clientY : Q;
  wheel_deltaX : Q;
  wheel_deltaY : Q;
  wheel_ctrlKey : bool
}.

(** One entry of [e.touches]. *)
Record Touch : Set := mkTouch {
  touch_clientX : Q;
  touch_clientY : Q
}.

(** What the component takes from its host: the canvas element's
    [getBoundingClientRect()], and the functions of [Math] that are not
    rational. *)
Record Host : Set := mkHost {
  rect_left : Q;
  rect_top : Q;
  Math_cos : Q -> Q;
  Math_sin : Q -> Q;
  Math_sqrt : Q -> Q
}.

(** ** [String.prototype.trim]

    The code units it strips: the ECMAScript white space and line
    terminator characters. *)
Definition isWhiteSpace (c : N) : bool :=
  (existsb (N.eqb c)
     [9; 10; 11; 12; 13; 32; 160; 5760; 8232; 8233; 8239; 8287; 12288; 65279]
   || ((8192 <=? c) && (c <=? 8202)))%N.

Fixpoint trimStart (s : jsstring) : jsstring :=
  match s with
  | [] => []
  | c :: r => if isWhiteSpace c then trimStart r else s
  end.

Definition trimEnd (s : jsstring) : jsstring := rev (trimStart (rev s)).

Definition trim (s : jsstring) : jsstring := trimEnd (trimStart s).

(** A string is truthy when it is not empty. *)
Definition truthy_text (s : jsstring) : bool :=
  match s with
  | [] => false
  | _ :: _ => true
  end.

(** The component is a function of its props ([canvasState] and the three
    callbacks).  What a callback does to the parent is opaque to the
    component: [World] is the parent's state. *)
Section Canvas.

Variable World : Type.
Variable host : Host.
Variable canvasState : CanvasState.
Variable onCanvasStateChange : CanvasState -> World -> World.
Variable onPan : Q -> Q -> World -> World.
Variable onZoom : Q -> option Q -> option Q -> World -> World.

(* Coordinate transformation utilities *)
Definition screenToCanvas (screenX screenY : Q) : Point :=
  let v := viewport canvasState in
  mkPoint ((screenX - offsetX v) / zoom v) ((screenY - offsetY v) / zoom v).

Definition canvasToScreen (canvasX canvasY : Q) : Point :=
  let v := viewport canvasState in
  mkPoint (canvasX * zoom v + offsetX v) (canvasY * zoom v + offsetY v).

Definition getMousePos (e : MouseEvent) : Point :=
  mkPoint (clientX e - rect_left host) (clientY e - rect_top host).

Definition getCanvasMousePos (e : MouseEvent) : Point :=
  let screenPos := getMousePos e in
  screenToCanvas (px screenPos) (py screenPos).

(** [createShape].  The [default] case of the source keeps the bare base
    object; for [rectangle] and [circle] that is the whole shape.  For
    [select] it is an object outside the [Shape] union ([None] here);
    [handleMouseDown] never asks for it. *)
Definition createShape (startPoint : Point) (tool : Tool) (newId : string)
    : option Shape :=
  let baseShape :=
    mkBase newId (px startPoint) (py startPoint) 0 0
      (cs_strokeColor canvasState) (cs_fillColor canvasState)
      (cs_strokeWidth canvasState) (cs_roughness canvasState)
      None None None in
  match tool with
  | pen => Some (mkShape baseShape (PenShape [startPoint]))
  | line =>
      Some (mkShape baseShape (LineShape (px startPoint) (py startPoint)))
  | arrow =>
      Some (mkShape baseShape (ArrowShape (px startPoint) (py startPoint)))
  | text =>
      Some (mkShape baseShape
              (TextShape [] (cs_fontSize canvasState)
                 (cs_fontFamily canvasState)))
  | rectangle => Some (mkShape baseShape RectangleShape)
  | circle => Some (mkShape baseShape CircleShape)
  | select => None
  end.

Definition handleMouseDown (e : MouseEvent) (newId : string)
    (u : CanvasUI) (w : World) : CanvasUI * World :=
  let screenPoint := getMousePos e in
  let canvasPoint := getCanvasMousePos e in
  (* Handle panning with middle mouse button or space+click *)
  if ((button e =? 1)%Z || ((button e =? 0)%Z && ctrlKey e))%bool then
    (setPanStart (Some screenPoint) (setIsPanning true u), w)
  else
    match currentTool canvasState with
    | select =>
        match
          getShapeAtPoint (Math_cos host) (Math_sin host) canvasPoint
            (shapes canvasState)
        with
        | Some clickedShape =>
            (* Select the shape and prepare for dragging *)
            let newState :=
              set_selection
                (map
                   (fun shape : Shape =>
                      set_selected
                        (Some (String.eqb (id shape) (id clickedShape)))
                        shape)
                   (shapes canvasState))
                (Some (id clickedShape)) canvasState in
            (setDragStart (Some canvasPoint) (setIsDragging true u),
             onCanvasStateChange newState w)
        | None =>
            (* Check if clicking on empty space - start panning *)
            let newState :=
              set_selection
                (map (set_selected (Some false)) (shapes canvasState))
                None canvasState in
            (setPanStart (Some screenPoint) (setIsPanning true u),
             onCanvasStateChange newState w)
        end
    | text =>
        (setTextInput (mkTextInput (px canvasPoint) (py canvasPoint) true) u,
         w)
    | tool =>
        (* Start drawing a new shape *)
        let newShape := createShape canvasPoint tool newId in
        (setIsDrawing true (setCurrentShape newShape u), w)
    end.

(** The shape being drawn, extended to the pointer. *)
Definition extendShape (currentShape0 : Shape) (canvasPoint : Point) : Shape :=
  match variant currentShape0 with
  | PenShape points =>
      mkShape currentShape0 (PenShape (points ++ [canvasPoint]))
  | RectangleShape | CircleShape =>
      mkShape
        (set_size (px canvasPoint - x currentShape0)
           (py canvasPoint - y currentShape0) currentShape0)
        (variant currentShape0)
  | LineShape _ _ =>
      mkShape currentShape0 (LineShape (px canvasPoint) (py canvasPoint))
  | ArrowShape _ _ =>
      mkShape currentShape0 (ArrowShape (px canvasPoint) (py canvasPoint))
  | TextShape _ _ _ => currentShape0
  end.

Definition handleMouseMove (e : MouseEvent) (u : CanvasUI) (w : World)
    : CanvasUI * World :=
  let screenPoint := getMousePos e in
  let canvasPoint := getCanvasMousePos e in
  match isPanning u, panStart u with
  | true, Some panStart0 =>
      (* Handle panning *)
      let deltaX := px screenPoint - px panStart0 in
      let deltaY := py screenPoint - py panStart0 in
      (setPanStart (Some screenPoint) u, onPan deltaX deltaY w)
  | _, _ =>
      match
        isDragging u, dragStart u, truthy_id (selectedShapeId canvasState)
      with
      | true, Some dragStart0, true =>
          (* Move selected shape *)
          let deltaX := px canvasPoint - px dragStart0 in
          let deltaY := py canvasPoint - py dragStart0 in
          let newState :=
            set_shapes
              (map
                 (fun shape : Shape =>
                    if id_is (id shape) (selectedShapeId canvasState)
                    then moveShape shape deltaX deltaY
                    else shape)
                 (shapes canvasState))
              canvasState in
          (setDragStart (Some canvasPoint) u, onCanvasStateChange newState w)
      | _, _, _ =>
          match isDrawing u, currentShape u with
          | true, Some currentShape0 =>
              (* Update current shape being drawn *)
              (setCurrentShape (Some (extendShape currentShape0 canvasPoint)) u,
               w)
          | _, _ => (u, w)
          end
      end
  end.

Definition handleMouseUp (u : CanvasUI) (w : World) : CanvasUI * World :=
  let (u1, w1) :=
    match isDrawing u, currentShape u with
    | true, Some currentShape0 =>
        (* Add the completed shape to the canvas *)
        let newState :=
          set_shapes (shapes canvasState ++ [currentShape0]) canvasState in
        (setCurrentShape None u, onCanvasStateChange newState w)
    | _, _ => (u, w)
    end in
  (setPanStart None
     (setDragStart None
        (setIsPanning false (setIsDragging false (setIsDrawing false u1)))),
   w1).

Definition handleWheel (e : WheelEvent) (w : World) : World :=
  if wheel_ctrlKey e then
    (* Zoom gesture *)
    let screenX := wheel_clientX e - rect_left host in
    let screenY := wheel_clientY e - rect_top host in
    let zoomDelta :=
      if Qgt_bool (wheel_deltaY e) 0 then - (1 # 10) else 1 # 10 in
    onZoom zoomDelta (Some screenX) (Some screenY) w
  else
    (* Pan gesture (two-finger scroll) *)
    onPan (- wheel_deltaX e) (- wheel_deltaY e) w.

(** [getTouchDistance] and [getTouchCenter] read the first two touches.
    [getTouchCenter] is only called with two touches; on an empty list
    the source would fail, and the origin stands in here. *)
Definition getTouchDistance (touches : list Touch) : Q :=
  match touches with
  | touch1 :: touch2 :: _ =>
      Math_sqrt host
        ((touch_clientX touch2 - touch_clientX touch1) ^ 2
         + (touch_clientY touch2 - touch_clientY touch1) ^ 2)
  | _ => 0
  end.

Definition getTouchCenter (touches : list Touch) : Point :=
  match touches with
  | [] => mkPoint 0 0
  | [touch] => mkPoint (touch_clientX touch) (touch_clientY touch)
  | touch1 :: touch2 :: _ =>
      mkPoint ((touch_clientX touch1 + touch_clientX touch2) / 2)
        ((touch_clientY touch1 + touch_clientY touch2) / 2)
  end.

(** The mouse event a single touch stands for: a plain object with the
    coordinates of the touch.  [handleMouseMove] reads neither [button]
    nor [ctrlKey]. *)
Definition mockEvent (touch : Touch) : MouseEvent :=
  mkMouse (touch_clientX touch) (touch_clientY touch) 0 false.

(** With a single touch the source calls [handleMouseDown(mockEvent)],
    whose first statement is [e.preventDefault()]; the mock object has
    no such method, the call throws, and the handler ends before any
    state is set. *)
Definition handleTouchStart (touches : list Touch)
    (u : CanvasUI) (w : World) : CanvasUI * World :=
  match touches with
  | [_] => (u, w)
  | [_; _] =>
      (* Two finger touch - prepare for pan/zoom *)
      let distance := getTouchDistance touches in
      let center := getTouchCenter touches in
      (setIsPanning true
         (setPanStart (Some center)
            (setLastTouchDistance (Some distance) u)),
       w)
  | _ => (u, w)
  end.

(** In the two-finger branch [onZoom] and [onPan] are both callbacks of
    the same render: when both thresholds pass, the pan is queued after
    the zoom and is computed from the same [canvasState]. *)
Definition handleTouchMove (touches : list Touch) (u : CanvasUI) (w : World)
    : CanvasUI * World :=
  match touches with
  | [touch] =>
      if negb (isPanning u)
      then handleMouseMove (mockEvent touch) u w
      else (u, w)
  | [_; _] =>
      (* Two finger gesture *)
      let distance := getTouchDistance touches in
      let center := getTouchCenter touches in
      let (u1, w2) :=
        match truthy_num (lastTouchDistance u), lastTouchDistance u, panStart u
        with
        | true, Some lastTouchDistance0, Some panStart0 =>
            (* Handle zoom *)
            let zoomDelta := (distance - lastTouchDistance0) * (1 # 100) in
            let w1 :=
              if Qgt_bool (Qabs zoomDelta) (1 # 100) then
                let centerX := px center - rect_left host in
                let centerY := py center - rect_top host in
                onZoom zoomDelta (Some centerX) (Some centerY) w
              else w in
            (* Handle pan *)
            let deltaX := px center - px panStart0 in
            let deltaY := py center - py panStart0 in
            if (Qgt_bool (Qabs deltaX) 2 || Qgt_bool (Qabs deltaY) 2)%bool
            then (setPanStart (Some center) u, onPan deltaX deltaY w1)
            else (u, w1)
        | _, _, _ => (u, w)
        end in
      (setLastTouchDistance (Some distance) u1, w2)
  | _ => (u, w)
  end.

(** [touches] are the touches that remain. *)
Definition handleTouchEnd (touches : list Touch) (u : CanvasUI) (w : World)
    : CanvasUI * World :=
  match touches with
  | [] =>
      (* All touches ended *)
      let (u1, w1) := handleMouseUp u w in
      (setLastTouchDistance None u1, w1)
  | [_] =>
      (* One finger remaining - reset two-finger state *)
      (setPanStart None (setIsPanning false (setLastTouchDistance None u)), w)
  | _ => (u, w)
  end.

(** The [zIndex] a confirmed text receives. *)
Definition nextZIndex (l : list Shape) : Q :=
  if (0 <? length l)%nat
  then Math_max (map (fun s : Shape => or_zero (zIndex s)) l) + 1
  else 0.

Definition handleTextSubmit (content : jsstring) (newId : string)
    (u : CanvasUI) (w : World) : CanvasUI * World :=
  let w1 :=
    if truthy_text (trim content) then
      let textShape :=
        mkShape
          (mkBase newId (ti_x (textInput u)) (ti_y (textInput u))
             (inject_Z (Z.of_nat (length content)) * cs_fontSize canvasState
              * (6 # 10)) (* Approximate width *)
             (cs_fontSize canvasState)
             (cs_strokeColor canvasState) (cs_fillColor canvasState)
             (cs_strokeWidth canvasState) (cs_roughness canvasState)
             None None
             (Some (nextZIndex (shapes canvasState))))
          (TextShape content (cs_fontSize canvasState)
             (cs_fontFamily canvasState)) in
      let newState :=
        set_shapes (shapes canvasState ++ [textShape]) canvasState in
      onCanvasStateChange newState w
    else w in
  (setTextInput (mkTextInput 0 0 false) u, w1).

(** The Escape key of the text box. *)
Definition handleTextCancel (u : CanvasUI) : CanvasUI :=
  setTextInput (mkTextInput 0 0 false) u.

End Canvas.

(* ================================================================== *)
(** * App.tsx *)
(* ================================================================== *)

(** The application state: the history hook and the canvas component's
    cells.  Each event is handled by the callbacks of the current render,
    whose snapshot is the history's [present].  The events are those of
    the canvas, the keyboard and the toolbar; the load of a stored
    document at start-up is not one of them. *)
Record AppState : Set := mkApp {
  history : HistoryState;
  ui : CanvasUI
}.

Inductive Event : Set :=
| MouseDown (e : MouseEvent) (newId : string)
| MouseMove (e : MouseEvent)
| MouseUp                       (* also [onMouseLeave] *)
| Wheel (e : WheelEvent)
| TouchStart (touches : list Touch)
| TouchMove (touches : list Touch)
| TouchEnd (touches : list Touch)
| TextSubmit (content : jsstring) (newId : string)
| TextCancel
| Undo
| Redo
| ZoomIn
| ZoomOut
| ZoomReset
| DeleteKey
| ToolKey (tool : Tool)
| StrokeColor (color : string)
| FillColor (color : string)
| StrokeWidth (w : Q)
| Roughness (r : Q)
| FontSize (fs : Q)
| Clear
| BringForward
| SendBackward
| Import (importedState : CanvasState).

Section App.

Variable host : Host.

Definition handleZoomIn (canvasState : CanvasState)
    : HistoryState -> HistoryState :=
  zoomViewport canvasState (1 # 10) None None.

Definition handleZoomOut (canvasState : CanvasState)
    : HistoryState -> HistoryState :=
  zoomViewport canvasState (- (1 # 10)) None None.

(** The delta of the reset is [1 - zoom]: exact here, and in doubles
    exact up to rounding for a zoom of the order of 1; from a zoom so
    large that [1 - zoom] rounds to [- zoom] the code ends at the lower
    clamp and not at 1. *)
Definition handleZoomReset (canvasState : CanvasState)
    : HistoryState -> HistoryState :=
  zoomViewport canvasState (1 - zoom (viewport canvasState)) None None.

(** The Delete and Backspace branch of [handleKeyDown]. *)
Definition handleDeleteKey (canvasState : CanvasState)
    : HistoryState -> HistoryState :=
  if truthy_id (selectedShapeId canvasState) then
    let newState :=
      set_selection
        (filter
           (fun shape : Shape =>
              negb (id_is (id shape) (selectedShapeId canvasState)))
           (shapes canvasState))
        None canvasState in
    updateCanvasState newState
  else fun h => h.

(** [handleFileChange] after a successful import: the imported value is
    committed as it is.  The event carries it as a [CanvasState]; what
    the import lets through unchecked is the subject of [importFromJSON]
    below. *)
Definition handleFileChange (importedState : CanvasState)
    : HistoryState -> HistoryState :=
  updateCanvasState importedState.

(** [<Canvas canvasState={canvasState}
            onCanvasStateChange={updateCanvasState}
            onPan={panViewport} onZoom={zoomViewport} />] *)
Definition step (ev : Event) (a : AppState) : AppState :=
  let canvasState := present (history a) in
  let onCanvasStateChange := updateCanvasState in
  let onPan := panViewport canvasState in
  let onZoom := zoomViewport canvasState in
  let canvas (r : CanvasUI * HistoryState) := mkApp (snd r) (fst r) in
  let hook (f : HistoryState -> HistoryState) := mkApp (f (history a)) (ui a) in
  match ev with
  | MouseDown e newId =>
      canvas (handleMouseDown HistoryState host canvasState onCanvasStateChange
                e newId (ui a) (history a))
  | MouseMove e =>
      canvas (handleMouseMove HistoryState host canvasState onCanvasStateChange
                onPan e (ui a) (history a))
  | MouseUp =>
      canvas (handleMouseUp HistoryState canvasState onCanvasStateChange
                (ui a) (history a))
  | Wheel e => hook (handleWheel HistoryState host onPan onZoom e)
  | TouchStart touches =>
      canvas (handleTouchStart HistoryState host touches (ui a) (history a))
  | TouchMove touches =>
      canvas (handleTouchMove HistoryState host canvasState
                onCanvasStateChange onPan onZoom touches (ui a) (history a))
  | TouchEnd touches =>
      canvas (handleTouchEnd HistoryState canvasState onCanvasStateChange
                touches (ui a) (history a))
  | TextSubmit content newId =>
      canvas (handleTextSubmit HistoryState canvasState onCanvasStateChange
                content newId (ui a) (history a))
  | TextCancel => mkApp (history a) (handleTextCancel (ui a))
  | Undo => hook undoAction
  | Redo => hook redoAction
  | ZoomIn => hook (handleZoomIn canvasState)
  | ZoomOut => hook (handleZoomOut canvasState)
  | ZoomReset => hook (handleZoomReset canvasState)
  | DeleteKey => hook (handleDeleteKey canvasState)
  | ToolKey tool => hook (setCurrentTool canvasState tool)
  | StrokeColor color => hook (setStrokeColor canvasState color)
  | FillColor color => hook (setFillColor canvasState color)
  | StrokeWidth w => hook (setStrokeWidth canvasState w)
  | Roughness r => hook (setRoughness canvasState r)
  | FontSize fs => hook (setFontSize canvasState fs)
  | Clear => hook (clearCanvas canvasState)
  | BringForward => hook (bringForward canvasState)
  | SendBackward => hook (sendBackward canvasState)
  | Import importedState => hook (handleFileChange importedState)
  end.

Definition run (evs : list Event) (a : AppState) : AppState :=
  fold_left (fun a ev => step ev a) evs a.

(** One drag gesture: pointer-down, the move samples, pointer-up.  The
    id argument of the pointer-down is only read by the drawing tools. *)
Definition dragGesture (down : MouseEvent) (moves : list MouseEvent)
    : list Event :=
  MouseDown down EmptyString :: map MouseMove moves ++ [MouseUp].

End App.

(** A run of commits, and a run of zoom steps each taken in its own
    render. *)
Definition commits (l : list CanvasState) (h : HistoryState) : HistoryState :=
  fold_left (fun h s => pushToHistory s h) l h.

Record ZoomStep : Set := mkZoomStep {
  zs_delta : Q;
  zs_centerX : option Q;
  zs_centerY : option Q
}.

Definition zoomStep (h : HistoryState) (z : ZoomStep) : HistoryState :=
  zoomViewport (present h) (zs_delta z) (zs_centerX z) (zs_centerY z) h.


(* ================================================================== *)
(** * exportUtils.ts: [importFromJSON] *)
(* ================================================================== *)

(** The values [JSON.parse] produces, and the one thing the import may add
    to them: a named property on an array ([own] holds an array's
    non-index properties; [JSON.parse] leaves it empty). *)
Inductive JSValue : Set :=
| JSNull
| JSBool (b : bool)
| JSNumber (q : Q)
| JSString (s : string)
| JSArray (items : list JSValue) (own : list (string * JSValue))
| JSObject (own : list (string * JSValue)).

Definition truthy (v : JSValue) : bool :=
  match v with
  | JSNull => false
  | JSBool b => b
  | JSNumber q => negb (Qeq_bool q 0)
  | JSString s => negb (String.eqb s EmptyString)
  | JSArray _ _ | JSObject _ => true
  end.

Fixpoint lookup (k : string) (l : list (string * JSValue)) : option JSValue :=
  match l with
  | [] => None
  | (k', v) :: r => if String.eqb k k' then Some v else lookup k r
  end.

(** Assignment to a property keeps the position of an existing key and
    appends a new one. *)
Fixpoint assign (k : string) (v : JSValue) (l : list (string * JSValue))
    : list (string * JSValue) :=
  match l with
  | [] => [(k, v)]
  | (k', v') :: r =>
      if String.eqb k k' then (k', v) :: r else (k', v') :: assign k v r
  end.

(** The outcome of evaluating an expression that may throw. *)
Inductive Completion (A : Type) : Type :=
| Normal (a : A)
| Throw.
Arguments Normal {A} a.
Arguments Throw {A}.

(** [v.viewport].  Reading a property of [null] throws a TypeError; a
    primitive has no such property ([None] is [undefined]). *)
Definition get_viewport (v : JSValue) : Completion (option JSValue) :=
  match v with
  | JSNull => Throw
  | JSBool _ | JSNumber _ | JSString _ => Normal None
  | JSArray _ own | JSObject own => Normal (lookup "viewport" own)
  end.

(** [v.viewport = d].  An ES module is strict code: creating a property
    on a primitive throws a TypeError. *)
Definition put_viewport (d : JSValue) (v : JSValue) : Completion JSValue :=
  match v with
  | JSNull | JSBool _ | JSNumber _ | JSString _ => Throw
  | JSArray items own => Normal (JSArray items (assign "viewport" d own))
  | JSObject own => Normal (JSObject (assign "viewport" d own))
  end.

Definition defaultViewport : JSValue :=
  JSObject
    [("offsetX", JSNumber 0); ("offsetY", JSNumber 0); ("zoom", JSNumber 1)]
    %string.

(** What the [FileReader] delivers: [onerror], or [onload] with the text.
    [JSON.parse] is the host's; the import sees its outcome, [None] when
    it throws a SyntaxError. *)
Inductive FileOutcome : Set :=
| ReadError
| Loaded (parsed : option JSValue).

Inductive ImportResult : Set :=
| Resolve (state : JSValue)
| Reject (message : string).

(** [!parsedState.viewport] *)
Definition viewport_missing (o : option JSValue) : bool :=
  match o with
  | None => true
  | Some v => negb (truthy v)
  end.

Definition importFromJSON (file : FileOutcome) : ImportResult :=
  match file with
  | ReadError => Reject "Failed to read file"
  | Loaded None => Reject "Invalid JSON file"
  | Loaded (Some parsedState) =>
      match get_viewport parsedState with
      | Throw => Reject "Invalid JSON file"
      | Normal vp =>
          (* Ensure viewport exists to prevent crashes *)
          if viewport_missing vp then
            match put_viewport defaultViewport parsedState with
            | Throw => Reject "Invalid JSON file"
            | Normal parsedState' => Resolve parsedState'
            end
          else Resolve parsedState
      end
  end.

(** An object (or array) that has a [viewport] key of its own. *)
Definition has_viewport_key (v : JSValue) : bool :=
  match v with
  | JSArray _ own | JSObject own =>
      match lookup "viewport" own with
      | Some _ => true
      | None => false
      end
  | _ => false
  end.

Definition is_object (v : JSValue) : bool :=
  match v with
  | JSArray _ _ | JSObject _ => true
  | _ => false
  end.

(* ================================================================== *)
(** * Vocabulary of the statements *)
(* ================================================================== *)

(** The last [n] elements of a list. *)
Definition lastn {A : Type} (n : nat) (l : list A) : list A :=
  skipn (length l - n) l.

(** Componentwise equality of numbers. *)
Definition point_eq (p q : Point) : Prop :=
  px p == px q /\ py p == py q.

Definition box_eq (a b : BoundingBox) : Prop :=
  bb_x a == bb_x b /\ bb_y a == bb_y b
  /\ bb_width a == bb_width b /\ bb_height a == bb_height b.

(** [clamp(v, lo, hi)] as the source writes it. *)
Definition clamp (v lo hi : Q) : Q := Qmax lo (Qmin hi v).

(** The transforms applied to a point. *)
Definition toCanvas (c : CanvasState) (p : Point) : Point :=
  screenToCanvas c (px p) (py p).

Definition toScreen (c : CanvasState) (p : Point) : Point :=
  canvasToScreen c (px p) (py p).

(** The snapshot a zoom step taken in [c]'s render leaves as present. *)
Definition zoomed (c : CanvasState) (zoomDelta : Q) (centerX centerY : option Q)
    (h : HistoryState) : CanvasState :=
  present (zoomViewport c zoomDelta centerX centerY h).

(** The shapes whose geometry is their box. *)
Definition isBoxShape (s : Shape) : bool :=
  match variant s with
  | RectangleShape | CircleShape | TextShape _ _ _ => true
  | PenShape _ | LineShape _ _ | ArrowShape _ _ => false
  end.

(** The pointer-down that starts a pan whatever the tool: middle button,
    or primary button with the control key. *)
Definition isPanClick (e : MouseEvent) : bool :=
  ((button e =? 1)%Z || ((button e =? 0)%Z && ctrlKey e))%bool.

(** The application is in the middle of a shape drag: the conditions
    under which [handleMouseMove] takes its "move selected shape"
    branch. *)
Definition dragging (a : AppState) : bool :=
  negb (isPanning (ui a))
  && isDragging (ui a)
  && match dragStart (ui a) with Some _ => true | None => false end
  && truthy_id (selectedShapeId (present (history a)))
  && negb (isDrawing (ui a)).

(** The snapshot [handleMouseDown] commits when the select tool hits
    [clickedShape]. *)
Definition selectSnapshot (c : CanvasState) (clickedShape : Shape)
    : CanvasState :=
  set_selection
    (map (fun shape : Shape =>
            set_selected (Some (String.eqb (id shape) (id clickedShape)))
              shape)
       (shapes c))
    (Some (id clickedShape)) c.

(** The snapshot [handleMouseMove] commits for one sample of a drag. *)
Definition moveSnapshot (c : CanvasState) (deltaX deltaY : Q) : CanvasState :=
  set_shapes
    (map (fun shape : Shape =>
            if id_is (id shape) (selectedShapeId c)
            then moveShape shape deltaX deltaY
            else shape)
       (shapes c))
    c.

(** The copy [duplicateSelectedShape] appends for [selectedShape]: a new
    id, the position moved by (20, 20), [selected: false], and every
    other field as in the original. *)
Definition duplicateOf (selectedShape : Shape) (newId : string) : Shape :=
  mkShape
    (mkBase newId (x selectedShape + 20) (y selectedShape + 20)
       (width selectedShape) (height selectedShape)
       (strokeColor selectedShape) (fillColor selectedShape)
       (strokeWidth selectedShape) (roughness selectedShape)
       (rotation selectedShape) (Some false) (zIndex selectedShape))
    (variant selectedShape).

(** A duplication requested in the render of the history's present. *)
Definition duplicated (h : HistoryState) (newId : string) : HistoryState :=
  duplicateSelectedShape (present h) newId h.

(** The [zIndex] a shape stores, 0 for a shape that stores none, and the
    greatest of a document, -1 for an empty one. *)
Definition storedZIndex (s : Shape) : Q :=
  match zIndex s with
  | Some q => q
  | None => 0
  end.

Definition maxZIndex (l : list Shape) : Q :=
  match l with
  | [] => - (1)
  | s :: r => fold_left Qmax (map storedZIndex r) (storedZIndex s)
  end.

(** The snapshots the move samples of a drag commit, one for each
    sample: the snapshot before it with the selected shape moved by the
    delta from the last drag point ([dragStart0], at first the
    pointer-down) to the sample, which becomes the drag point of the
    next. *)
Fixpoint dragSnaps (host : Host) (c : CanvasState) (dragStart0 : Point)
    (moves : list MouseEvent) : list CanvasState :=
  match moves with
  | [] => []
  | e :: r =>
      let q := getCanvasMousePos host c e in
      let c' := moveSnapshot c (px q - px dragStart0) (py q - py dragStart0) in
      c' :: dragSnaps host c' q r
  end.


(** What one event can do to the history: nothing, a commit, a
    replacement of the present, an undo or a redo.  [P] is what is known
    of the snapshot a commit or a replacement brings in. *)
Inductive history_op (P : CanvasState -> Prop) (h : HistoryState)
    : HistoryState -> Prop :=
| op_none : history_op P h h
| op_commit (s : CanvasState) : P s -> history_op P h (pushToHistory s h)
| op_replace (s : CanvasState) : P s -> history_op P h (replacePresent s h)
| op_undo : history_op P h (undoAction h)
| op_redo : history_op P h (redoAction h).

(** The zoom invariant of a snapshot, and of every snapshot a history
    holds. *)
Definition zoom_ok (c : CanvasState) : Prop :=
  1 # 10 <= zoom (viewport c) <= 5.

(** An imported document is committed unchecked: the zoom invariant
    can only be promised for events that import none, or one whose zoom
    is in range. *)
Definition event_zoom_ok (ev : Event) : Prop :=
  match ev with
  | Import importedState => zoom_ok importedState
  | _ => True
  end.

Definition history_zoom_ok (h : HistoryState) : Prop :=
  Forall zoom_ok (past h) /\ zoom_ok (present h) /\ Forall zoom_ok (future h).

(** Past and future together hold at most [MAX_HISTORY_SIZE] snapshots. *)
Definition within_capacity (h : HistoryState) : Prop :=
  (length (past h) + length (future h) <= MAX_HISTORY_SIZE)%nat.

(* ================================================================== *)
(** * Sample documents *)
(* ================================================================== *)

(** The rectangle of the specification's scenarios, at (10,10,100,50). *)
Definition sampleRect : Shape :=
  mkShape (mkBase "r1" 10 10 100 50 "#ffffff" "transparent" 2 0
             None None None)
          RectangleShape.

(** A vertical line from (0,0) to (0,10). *)
Definition sampleLine : Shape :=
  mkShape (mkBase "l1" 0 0 0 0 "#ffffff" "transparent" 2 0 None None None)
          (LineShape 0 10).

(** A diagonal line from (0,0) to (10,20). *)
Definition sampleDiagonal : Shape :=
  mkShape (mkBase "l2" 0 0 0 0 "#ffffff" "transparent" 2 0 None None None)
          (LineShape 10 20).

(** A target box for the resize examples. *)
Definition sampleBox : BoundingBox := mkBox 0 0 20 20.

(** A document that holds the rectangle, with the select tool. *)
Definition sampleDoc : CanvasState :=
  mkCanvas [sampleRect] None select "#ffffff" "transparent" 2 0 16
    "Arial, sans-serif" (mkViewport 0 0 1).

(** The same document with the rectangle selected. *)
Definition sampleSelected : CanvasState :=
  set_selection [set_selected (Some true) sampleRect] (Some "r1"%string)
    sampleDoc.

(** The same document seen through a panned and zoomed viewport. *)
Definition sampleView : CanvasState :=
  set_viewport (mkViewport 30 (-20) (5 # 2)) sampleDoc.

Definition sampleHistory : HistoryState :=
  mkHistory [initialCanvasState] sampleDoc [].

Definition sampleSelectedHistory : HistoryState := useHistory sampleSelected.

Definition sampleApp : AppState :=
  mkApp (useHistory sampleDoc) initialUI.

(** The host of the worked examples: the canvas at the origin of the
    page, Taylor polynomials for the trigonometry and two Newton steps
    from 1 for the square root.  The examples hold unrotated shapes, for
    which the hit test calls neither cosine nor sine; the one two-finger
    example asks of the square root only that the distance of the
    fingers grows, as it does under the exact root (from 40 to 200). *)
Definition sampleCos (a : Q) : Q := 1 - a * a / 2.
Definition sampleSin (a : Q) : Q := a - a * a * a / 6.
Definition sampleSqrt (a : Q) : Q :=
  let r1 := (1 + a) / 2 in (r1 + a / r1) / 2.

Definition sampleHost : Host := mkHost 0 0 sampleCos sampleSin sampleSqrt.

(** A pointer-down on the sample rectangle and two move samples. *)
Definition sampleDown : MouseEvent := mkMouse 20 20 0 false.
Definition sampleMove1 : MouseEvent := mkMouse 25 25 0 false.
Definition sampleMove2 : MouseEvent := mkMouse 30 30 0 false.

(** The empty document with the rectangle tool, and the pointer events
    of the rectangle scenario. *)
Definition sampleEmptyApp : AppState :=
  mkApp
    (useHistory
       (mkCanvas [] None rectangle "#ffffff" "transparent" 2 0 16
          "Arial, sans-serif" (mkViewport 0 0 1)))
    initialUI.

Definition sampleDrawDown : MouseEvent := mkMouse 10 10 0 false.
Definition sampleDrawMove : MouseEvent := mkMouse 110 60 0 false.

(** The application with the text box open at (40, 60) over the sample
    document, and the text "Hi" (code units 72, 105). *)
Definition sampleTextApp : AppState :=
  mkApp (useHistory sampleDoc)
    (setTextInput (mkTextInput 40 60 true) initialUI).

Definition sampleText : jsstring := [72; 105]%N.

(** Two parsed documents: one without a [viewport] key, one whose
    [viewport] is [null]. *)
Definition sampleNoViewport : JSValue :=
  JSObject [("shapes", JSArray [] []); ("currentTool", JSString "pen")]%string.

Definition sampleNullViewport : JSValue :=
  JSObject [("shapes", JSArray [] []); ("viewport", JSNull)]%string.

(* ================================================================== *)
(** * Vocabulary of the further properties *)
(* ================================================================== *)

(** The events that App and Canvas route to [replacePresent] only:
    viewport, tool and style changes.  (A one-finger touch move and a
    touch end run the mouse handlers and are not among them.) *)
Definition replaceClass (ev : Event) : bool :=
  match ev with
  | Wheel _ | TouchStart _ | TouchMove [_; _] | TextCancel
  | ZoomIn | ZoomOut | ZoomReset | ToolKey _
  | StrokeColor _ | FillColor _ | StrokeWidth _ | Roughness _ | FontSize _ =>
      true
  | _ => false
  end.

Definition isToolKey (ev : Event) : bool :=
  match ev with
  | ToolKey _ => true
  | _ => false
  end.

(** The commands that commit when given in the render of [c]: clear and
    import always, the selection commands with a truthy selection, a
    text confirmation with a text that does not trim to nothing. *)
Definition commitClass (c : CanvasState) (ev : Event) : bool :=
  match ev with
  | Clear | Import _ => true
  | DeleteKey | BringForward | SendBackward =>
      truthy_id (selectedShapeId c)
  | TextSubmit content _ => truthy_text (trim content)
  | _ => false
  end.

(** A history with two entries behind and one ahead. *)
Definition sampleTimeline : HistoryState :=
  mkHistory [initialCanvasState; sampleDoc] sampleSelected [sampleView].

(** [s'] is [s] after a layer command on the shapes with id [i]: a shape
    with another id is untouched, one with that id differs at most in
    its [zIndex], which is [f] of the old effective [zIndex]. *)
Definition restacked (i : string) (f : Q -> Q) (s s' : Shape) : Prop :=
  if String.eqb (id s) i
  then s' = set_zIndex (zIndex s') s
       /\ exists z : Q, zIndex s' = Some z /\ z == f (or_zero (zIndex s))
  else s' = s.

(** The sample document with a second rectangle, the first selected. *)
Definition sampleRect2 : Shape :=
  mkShape (mkBase "r2" 200 10 40 40 "#ffffff" "transparent" 2 0
             None None (Some 3))
          RectangleShape.

Definition sampleTwo : CanvasState :=
  set_selection [set_selected (Some true) sampleRect; sampleRect2]
    (Some "r1"%string) sampleDoc.

Definition sampleTwoApp : AppState := mkApp (useHistory sampleTwo) initialUI.

(** A box and a point moved by a delta. *)
Definition shiftBox (b : BoundingBox) (dx dy : Q) : BoundingBox :=
  mkBox (bb_x b + dx) (bb_y b + dy) (bb_width b) (bb_height b).

Definition shiftPoint (p : Point) (dx dy : Q) : Point :=
  mkPoint (px p + dx) (py p + dy).

(** A point lies in a box. *)
Definition inBox (b : BoundingBox) (p : Point) : Prop :=
  bb_x b <= px p <= bb_x b + bb_width b
  /\ bb_y b <= py p <= bb_y b + bb_height b.

(** A pen stroke through three points, and a rectangle drawn from right
    to left, 100 wide. *)
Definition samplePen : Shape :=
  mkShape (mkBase "p1" 0 0 0 0 "#ffffff" "transparent" 2 0 None None None)
          (PenShape [mkPoint 5 8; mkPoint 1 12; mkPoint 9 3]).

Definition sampleLeftward : Shape :=
  mkShape (mkBase "r3" 300 100 (-100) 50 "#ffffff" "transparent" 2 0
             None None None)
          RectangleShape.

(** The centre [isPointInShape] rotates about, and the point it tests
    against the padded bounds of a rotated shape. *)
Definition hitCenter (s : Shape) : Point :=
  match variant s with
  | LineShape _ _ | ArrowShape _ _ | PenShape _ =>
      mkPoint
        (bb_x (getShapeBounds s) + bb_width (getShapeBounds s) / 2)
        (bb_y (getShapeBounds s) + bb_height (getShapeBounds s) / 2)
  | _ => mkPoint (x s + width s / 2) (y s + height s / 2)
  end.

Definition unrotated (c s0 : Q) (center p : Point) : Point :=
  mkPoint
    (px center + ((px p - px center) * c - (py p - py center) * s0))
    (py center + ((px p - px center) * s0 + (py p - py center) * c)).

(** The tools whose pointer-down starts a drawing. *)
Definition isDrawTool (t : Tool) : bool :=
  match t with
  | select | text => false
  | _ => true
  end.

(** The canvas component between two gestures: neither panning nor
    dragging (every pointer-up leaves it so). *)
Definition idle (u : CanvasUI) : bool :=
  negb (isPanning u) && negb (isDragging u).

(** One pointer gesture: pointer-down, move samples, pointer-up, with
    the id the pointer-down hands to a drawing tool. *)
Definition drawGesture (down : MouseEvent) (newId : string)
    (moves : list MouseEvent) : list Event :=
  MouseDown down newId :: map MouseMove moves ++ [MouseUp].

(** What a drawing gesture leaves of its samples in the shape, by tool:
    [start] is the pointer-down and [pts] are the move samples, all in
    canvas coordinates. *)
Definition drawnFrom (t : Tool) (start : Point) (pts : list Point)
    (s : Shape) : Prop :=
  x s = px start /\ y s = py start
  /\ match t with
     | pen =>
         variant s = PenShape (start :: pts)
         /\ width s = 0 /\ height s = 0
     | line =>
         variant s = LineShape (px (last pts start)) (py (last pts start))
         /\ width s = 0 /\ height s = 0
     | arrow =>
         variant s = ArrowShape (px (last pts start)) (py (last pts start))
         /\ width s = 0 /\ height s = 0
     | rectangle =>
         variant s = RectangleShape
         /\ width s == px (last pts start) - px start
         /\ height s == py (last pts start) - py start
     | circle =>
         variant s = CircleShape
         /\ width s == px (last pts start) - px start
         /\ height s == py (last pts start) - py start
     | select | text => False
     end.

(** The pointer of a wheel event, read as a mouse event at the same
    client coordinates. *)
Definition wheelPointer (e : WheelEvent) : MouseEvent :=
  mkMouse (wheel_clientX e) (wheel_clientY e) 0 false.

Definition sampleWheel : WheelEvent := mkWheel 200 120 0 (-3) true.

(** The events of the touch screen. *)
Definition isTouchEvent (ev : Event) : bool :=
  match ev with
  | TouchStart _ | TouchMove _ | TouchEnd _ => true
  | _ => false
  end.

(** Two fingers that spread and move, and a lone finger that presses,
    moves and lifts. *)
Definition sampleTouches : list Event :=
  [TouchStart [mkTouch 10 10]; TouchMove [mkTouch 60 40]; TouchEnd [];
   TouchStart [mkTouch 10 10; mkTouch 50 10];
   TouchMove [mkTouch 20 30; mkTouch 90 30]; TouchEnd []].

(** What a drag of the shapes with id [i] by a total of ([dx], [dy])
    leaves of a shape [s0]: a shape with another id is untouched; one
    with that id keeps id, rotation, [zIndex] and flag, and its bounds
    are those of [s0] moved by the total. *)
Definition draggedBy (i : string) (dx dy : Q) (s0 s1 : Shape) : Prop :=
  id s1 = id s0
  /\ rotation s1 = rotation s0
  /\ zIndex s1 = zIndex s0
  /\ selected s1 = selected s0
  /\ if String.eqb (id s0) i
     then box_eq (getShapeBounds s1) (shiftBox (getShapeBounds s0) dx dy)
     else s1 = s0.

(** The sample document with another tool chosen. *)
Definition sampleWithTool (t : Tool) : CanvasState :=
  present (setCurrentTool sampleDoc t (useHistory sampleDoc)).

(** The integer grid: the rationals that are integers of magnitude at
    most 2^50.  Sums and differences of a few such numbers are exact in
    double arithmetic, and so are their comparisons. *)
Definition integral (q : Q) : Prop :=
  exists z : Z, q == inject_Z z /\ (Z.abs z <= 2 ^ 50)%Z.

Definition gridPoint (p : Point) : Prop :=
  integral (px p) /\ integral (py p).

(** A shape without rotation all of whose coordinates are on the grid. *)
Definition gridShape (s : Shape) : Prop :=
  truthy_num (rotation s) = false
  /\ integral (x s) /\ integral (y s)
  /\ integral (width s) /\ integral (height s)
  /\ match variant s with
     | PenShape points => Forall gridPoint points
     | LineShape endX endY | ArrowShape endX endY =>
         integral endX /\ integral endY
     | _ => True
     end.



(** The text box open over the document of two rectangles, the second
    of which stores a [zIndex] of 3. *)
Definition sampleTextOverApp : AppState :=
  mkApp (useHistory sampleTwo)
    (setTextInput (mkTextInput 40 60 true) initialUI).

(* ================================================================== *)
(** * exportUtils.ts: [exportToSVG] *)
(* ================================================================== *)

(** The running extremes of the export start at [Infinity] and
    [-Infinity], so the numbers of this function are the rationals with
    the two infinities and [NaN]. *)
Inductive Num : Set :=
| Fin (q : Q)
| Infinity
| NegInfinity
| NaN.

(** [Math.min] and [Math.max] of two numbers. *)
Definition num_min (a b : Num) : Num :=
  match a, b with
  | NaN, _ | _, NaN => NaN
  | NegInfinity, _ | _, NegInfinity => NegInfinity
  | Infinity, n | n, Infinity => n
  | Fin p, Fin q => Fin (Qmin p q)
  end.

Definition num_max (a b : Num) : Num :=
  match a, b with
  | NaN, _ | _, NaN => NaN
  | Infinity, _ | _, Infinity => Infinity
  | NegInfinity, n | n, NegInfinity => n
  | Fin p, Fin q => Fin (Qmax p q)
  end.

Definition num_neg (a : Num) : Num :=
  match a with
  | Fin q => Fin (- q)
  | Infinity => NegInfinity
  | NegInfinity => Infinity
  | NaN => NaN
  end.

Definition num_add (a b : Num) : Num :=
  match a, b with
  | NaN, _ | _, NaN => NaN
  | Infinity, NegInfinity | NegInfinity, Infinity => NaN
  | Infinity, _ | _, Infinity => Infinity
  | NegInfinity, _ | _, NegInfinity => NegInfinity
  | Fin p, Fin q => Fin (p + q)
  end.

Definition num_sub (a b : Num) : Num := num_add a (num_neg b).

(** [minX], [minY], [maxX], [maxY]. *)
Record Extremes : Set := mkExtremes {
  minX : Num;
  minY : Num;
  maxX : Num;
  maxY : Num
}.

(** The body of the first [shapes.forEach]. *)
Definition growExtremes (e : Extremes) (shape : Shape) : Extremes :=
  match variant shape with
  | PenShape points =>
      fold_left
        (fun (e : Extremes) (point : Point) =>
           mkExtremes (num_min (minX e) (Fin (px point)))
             (num_min (minY e) (Fin (py point)))
             (num_max (maxX e) (Fin (px point)))
             (num_max (maxY e) (Fin (py point))))
        points e
  | LineShape endX endY | ArrowShape endX endY =>
      mkExtremes
        (num_min (num_min (minX e) (Fin (x shape))) (Fin endX))
        (num_min (num_min (minY e) (Fin (y shape))) (Fin endY))
        (num_max (num_max (maxX e) (Fin (x shape))) (Fin endX))
        (num_max (num_max (maxY e) (Fin (y shape))) (Fin endY))
  | _ =>
      mkExtremes
        (num_min (minX e) (Fin (x shape)))
        (num_min (minY e) (Fin (y shape)))
        (num_max (maxX e) (Fin (x shape + width shape)))
        (num_max (maxY e) (Fin (y shape + height shape)))
  end.

(** The markup is kept as a tree: one node for each element the source
    appends to [svgContent], holding the values its template literal
    interpolates, in the order of the attributes.  The [d] of a path is
    the list of its points, the first after [M] and each other after an
    [L]. *)
Inductive SvgElement : Set :=
| SvgRect (rx ry : Num) (rw rh : Q) (stroke fill : string) (sw : Q)
| SvgCircle (cx cy : Num) (r : Q) (stroke fill : string) (sw : Q)
| SvgLine (x1 y1 x2 y2 : Num) (stroke : string) (sw : Q)
| SvgText (tx ty : Num) (family : string) (size : Q) (fill : string)
    (content : jsstring)
| SvgPath (d : list (Num * Num)) (stroke : string) (sw : Q).

(** The [<svg>] element: its [width] and [height] and its children. *)
Record SvgDocument : Set := mkSvg {
  svg_width : Num;
  svg_height : Num;
  svg_body : list SvgElement
}.

(** The body of the second [shapes.forEach]: what one shape appends.
    The [switch] has no case for an arrow. *)
Definition svgElements (minX0 minY0 : Num) (padding : Q) (shape : Shape)
    : list SvgElement :=
  let offsetX := num_add (num_neg minX0) (Fin padding) in
  let offsetY := num_add (num_neg minY0) (Fin padding) in
  match variant shape with
  | RectangleShape =>
      [SvgRect (num_add (Fin (x shape)) offsetX)
         (num_add (Fin (y shape)) offsetY)
         (width shape) (height shape)
         (strokeColor shape) (fillColor shape) (strokeWidth shape)]
  | CircleShape =>
      let radius := Qmin (width shape) (height shape) / 2 in
      let centerX := num_add (Fin (x shape + width shape / 2)) offsetX in
      let centerY := num_add (Fin (y shape + height shape / 2)) offsetY in
      [SvgCircle centerX centerY radius
         (strokeColor shape) (fillColor shape) (strokeWidth shape)]
  | LineShape endX endY =>
      [SvgLine (num_add (Fin (x shape)) offsetX)
         (num_add (Fin (y shape)) offsetY)
         (num_add (Fin endX) offsetX) (num_add (Fin endY) offsetY)
         (strokeColor shape) (strokeWidth shape)]
  | TextShape content fontSize fontFamily =>
      [SvgText (num_add (Fin (x shape)) offsetX)
         (num_add (Fin (y shape)) offsetY)
         fontFamily fontSize (strokeColor shape) content]
  | PenShape points =>
      if (1 <? length points)%nat then
        [SvgPath
           (map (fun p : Point =>
                   (num_add (Fin (px p)) offsetX,
                    num_add (Fin (py p)) offsetY))
              points)
           (strokeColor shape) (strokeWidth shape)]
      else []
  | ArrowShape _ _ => []
  end.

(** The markup [exportToSVG] hands to the download, or [None] when it
    returns without one (the document has no shapes). *)
Definition exportToSVG (canvasState : CanvasState) : option SvgDocument :=
  let shapes0 := shapes canvasState in
  match shapes0 with
  | [] => None
  | _ :: _ =>
      (* Calculate canvas bounds *)
      let e :=
        fold_left growExtremes shapes0
          (mkExtremes Infinity Infinity NegInfinity NegInfinity) in
      let padding := 20 in
      let width0 :=
        num_add (num_sub (maxX e) (minX e)) (Fin (padding * 2)) in
      let height0 :=
        num_add (num_sub (maxY e) (minY e)) (Fin (padding * 2)) in
      Some
        (mkSvg width0 height0
           (flat_map (svgElements (minX e) (minY e) padding) shapes0))
  end.

(** The numbers a shape folds into the minima and into the maxima of
    the export, per axis. *)
Definition lowXs (s : Shape) : list Q :=
  match variant s with
  | PenShape points => map px points
  | LineShape endX _ | ArrowShape endX _ => [x s; endX]
  | _ => [x s]
  end.

Definition lowYs (s : Shape) : list Q :=
  match variant s with
  | PenShape points => map py points
  | LineShape _ endY | ArrowShape _ endY => [y s; endY]
  | _ => [y s]
  end.

Definition highXs (s : Shape) : list Q :=
  match variant s with
  | PenShape points => map px points
  | LineShape endX _ | ArrowShape endX _ => [x s; endX]
  | _ => [x s + width s]
  end.

Definition highYs (s : Shape) : list Q :=
  match variant s with
  | PenShape points => map py points
  | LineShape _ endY | ArrowShape _ endY => [y s; endY]
  | _ => [y s + height s]
  end.

(** A finite number within two rationals. *)
Definition atLeast (lo : Q) (n : Num) : Prop :=
  match n with
  | Fin q => lo <= q
  | _ => False
  end.

Definition atMost (hi : Q) (n : Num) : Prop :=
  match n with
  | Fin q => q <= hi
  | _ => False
  end.

Definition within (lo hi : Q) (n : Num) : Prop :=
  atLeast lo n /\ atMost hi n.

(** An exported element lies inside the padding [pad] of a picture of
    [W] by [H]: each of its coordinates is finite and between [pad] and
    [W - pad], respectively [H - pad].  The coordinates of a rectangle
    are those of its origin and of its opposite corner (origin plus
    width and height), those of a circle its centre minus and plus the
    radius, those of a text its anchor, those of a line or path its
    points. *)
Definition inFrame (pad W H : Q) (e : SvgElement) : Prop :=
  match e with
  | SvgRect rx ry rw rh _ _ _ =>
      within pad (W - pad) rx /\ within pad (W - pad) (num_add rx (Fin rw))
      /\ within pad (H - pad) ry /\ within pad (H - pad) (num_add ry (Fin rh))
  | SvgCircle cx cy r _ _ _ =>
      within pad (W - pad) (num_sub cx (Fin r))
      /\ within pad (W - pad) (num_add cx (Fin r))
      /\ within pad (H - pad) (num_sub cy (Fin r))
      /\ within pad (H - pad) (num_add cy (Fin r))
  | SvgLine x1 y1 x2 y2 _ _ =>
      within pad (W - pad) x1 /\ within pad (H - pad) y1
      /\ within pad (W - pad) x2 /\ within pad (H - pad) y2
  | SvgText tx ty _ _ _ _ =>
      within pad (W - pad) tx /\ within pad (H - pad) ty
  | SvgPath d _ _ =>
      Forall
        (fun p : Num * Num =>
           within pad (W - pad) (fst p) /\ within pad (H - pad) (snd p))
        d
  end.

(** The position an element is written at is a finite number. *)
Definition finite (n : Num) : Prop := exists q : Q, n = Fin q.

Definition finiteElement (e : SvgElement) : Prop :=
  match e with
  | SvgRect rx ry _ _ _ _ _ => finite rx /\ finite ry
  | SvgCircle cx cy _ _ _ _ => finite cx /\ finite cy
  | SvgLine x1 y1 x2 y2 _ _ => finite x1 /\ finite y1 /\ finite x2 /\ finite y2
  | SvgText tx ty _ _ _ _ => finite tx /\ finite ty
  | SvgPath d _ _ =>
      Forall (fun p : Num * Num => finite (fst p) /\ finite (snd p)) d
  end.

(** A rectangle, circle or text whose width and height are not
    negative (a pen stroke, line or arrow has no such extent). *)
Definition nonNegativeBox (s : Shape) : Prop :=
  isBoxShape s = true -> 0 <= width s /\ 0 <= height s.


(** The shapes the export writes an element for. *)
Definition isExported (s : Shape) : bool :=
  match variant s with
  | ArrowShape _ _ => false
  | PenShape points => (1 <? length points)%nat
  | _ => true
  end.

(** A document with an arrow, a one-point pen stroke and the sample
    rectangle. *)
Definition sampleArrow : Shape :=
  mkShape (mkBase "a1" 0 0 0 0 "#ffffff" "transparent" 2 0 None None None)
          (ArrowShape 30 40).

Definition sampleDot : Shape :=
  mkShape (mkBase "p2" 7 7 0 0 "#ffffff" "transparent" 2 0 None None None)
          (PenShape [mkPoint 7 7]).

Definition sampleMixed : CanvasState :=
  set_shapes [sampleArrow; sampleDot; sampleRect] sampleDoc.

(* ================================================================== *)
(** * App.tsx: [handleKeyDown] *)
(* ================================================================== *)

(** What the handler reads of a [KeyboardEvent]; [kb_targetTag] is
    [e.target.tagName]. *)
Record KeyboardEvent : Set := mkKey {
  kb_key : string;
  kb_ctrlKey : bool;
  kb_metaKey : bool;
  kb_shiftKey : bool;
  kb_targetTag : string
}.

(** The handler is three blocks in a row: the shortcuts with Control or
    Meta, the delete keys, the tool keys.  Each queues its update on
    the history hook; [canvasState] is the snapshot of the render that
    installed the handler. *)
Definition handleKeyDown (canvasState : CanvasState) (e : KeyboardEvent)
    : HistoryState -> HistoryState :=
  (* Don't trigger shortcuts if user is typing in an input *)
  if (String.eqb (kb_targetTag e) "INPUT"
      || String.eqb (kb_targetTag e) "TEXTAREA")%bool
  then fun h => h
  else
    let shortcut : HistoryState -> HistoryState :=
      if (kb_ctrlKey e || kb_metaKey e)%bool then
        if String.eqb (kb_key e) "z" then
          if kb_shiftKey e then redoAction else undoAction
        else if String.eqb (kb_key e) "y" then redoAction
        else if (String.eqb (kb_key e) "="
                 || String.eqb (kb_key e) "+")%bool
        then handleZoomIn canvasState
        else if String.eqb (kb_key e) "-" then handleZoomOut canvasState
        else if String.eqb (kb_key e) "0" then handleZoomReset canvasState
        else fun h => h
      else fun h => h in
    (* Delete selected shape *)
    let delete : HistoryState -> HistoryState :=
      if (String.eqb (kb_key e) "Delete"
          || String.eqb (kb_key e) "Backspace")%bool
      then handleDeleteKey canvasState
      else fun h => h in
    (* Tool shortcuts *)
    let tool : HistoryState -> HistoryState :=
      if String.eqb (kb_key e) "v" then setCurrentTool canvasState select
      else if String.eqb (kb_key e) "p" then setCurrentTool canvasState pen
      else if String.eqb (kb_key e) "r"
      then setCurrentTool canvasState rectangle
      else if String.eqb (kb_key e) "c" then setCurrentTool canvasState circle
      else if String.eqb (kb_key e) "l" then setCurrentTool canvasState line
      else if String.eqb (kb_key e) "a" then setCurrentTool canvasState arrow
      else if String.eqb (kb_key e) "t" then setCurrentTool canvasState text
      else fun h => h in
    fun h => tool (delete (shortcut h)).

(** The tool a key stands for, whatever the modifiers. *)
Definition toolOfKey (k : string) : option Tool :=
  if String.eqb k "v" then Some select
  else if String.eqb k "p" then Some pen
  else if String.eqb k "r" then Some rectangle
  else if String.eqb k "c" then Some circle
  else if String.eqb k "l" then Some line
  else if String.eqb k "a" then Some arrow
  else if String.eqb k "t" then Some text
  else None.

(** The one command a key press stands for, if any. *)
Definition keyCommand (e : KeyboardEvent) : option Event :=
  if (String.eqb (kb_targetTag e) "INPUT"
      || String.eqb (kb_targetTag e) "TEXTAREA")%bool
  then None
  else
    match toolOfKey (kb_key e) with
    | Some t => Some (ToolKey t)
    | None =>
        if (String.eqb (kb_key e) "Delete"
            || String.eqb (kb_key e) "Backspace")%bool
        then Some DeleteKey
        else if (kb_ctrlKey e || kb_metaKey e)%bool then
          if String.eqb (kb_key e) "z"
          then Some (if kb_shiftKey e then Redo else Undo)
          else if String.eqb (kb_key e) "y" then Some Redo
          else if (String.eqb (kb_key e) "="
                   || String.eqb (kb_key e) "+")%bool
          then Some ZoomIn
          else if String.eqb (kb_key e) "-" then Some ZoomOut
          else if String.eqb (kb_key e) "0" then Some ZoomReset
          else None
        else None
    end.

(** Control-C on the canvas. *)
Definition sampleCtrlC : KeyboardEvent := mkKey "c" true false false "BODY".

(* ================================================================== *)
(** * Vocabulary of the import and export properties *)
(* ================================================================== *)

(** [v[k]] for a named key of an object or array, [None] for
    [undefined], and the elements of an array. *)
Definition property (k : string) (v : JSValue) : option JSValue :=
  match v with
  | JSArray _ own | JSObject own => lookup k own
  | _ => None
  end.

Definition elements (v : JSValue) : list JSValue :=
  match v with
  | JSArray items _ => items
  | _ => []
  end.

(** Equality of the numbers, of the elements and of the pictures of the
    export, with rationals compared by [==]. *)
Definition num_eq (a b : Num) : Prop :=
  match a, b with
  | Fin p, Fin q => p == q
  | Infinity, Infinity | NegInfinity, NegInfinity | NaN, NaN => True
  | _, _ => False
  end.

Definition element_eq (e e' : SvgElement) : Prop :=
  match e, e' with
  | SvgRect rx ry rw rh st fl sw, SvgRect rx' ry' rw' rh' st' fl' sw' =>
      num_eq rx rx' /\ num_eq ry ry' /\ rw == rw' /\ rh == rh'
      /\ st = st' /\ fl = fl' /\ sw == sw'
  | SvgCircle cx cy r st fl sw, SvgCircle cx' cy' r' st' fl' sw' =>
      num_eq cx cx' /\ num_eq cy cy' /\ r == r'
      /\ st = st' /\ fl = fl' /\ sw == sw'
  | SvgLine x1 y1 x2 y2 st sw, SvgLine x1' y1' x2' y2' st' sw' =>
      num_eq x1 x1' /\ num_eq y1 y1' /\ num_eq x2 x2' /\ num_eq y2 y2'
      /\ st = st' /\ sw == sw'
  | SvgText tx ty fam size fl content, SvgText tx' ty' fam' size' fl' content' =>
      num_eq tx tx' /\ num_eq ty ty' /\ fam = fam' /\ size == size'
      /\ fl = fl' /\ content = content'
  | SvgPath d st sw, SvgPath d' st' sw' =>
      Forall2
        (fun p p' : Num * Num =>
           num_eq (fst p) (fst p') /\ num_eq (snd p) (snd p'))
        d d'
      /\ st = st' /\ sw == sw'
  | _, _ => False
  end.

Definition document_eq (d d' : SvgDocument) : Prop :=
  num_eq (svg_width d) (svg_width d')
  /\ num_eq (svg_height d) (svg_height d')
  /\ Forall2 element_eq (svg_body d) (svg_body d').

(** The document with every shape moved by the same delta. *)
Definition translated (c : CanvasState) (dx dy : Q) : CanvasState :=
  set_shapes (map (fun s : Shape => moveShape s dx dy) (shapes c)) c.

(* ================================================================== *)
(* ================================================================== *)
(** * Part II: properties of the embedding *)
(* ================================================================== *)
(* ================================================================== *)

(* ================================================================== *)
(** * The history manager *)
(* ================================================================== *)

Section ListFacts.

Context {A : Type}.

Lemma lastn_all (n : nat) (l : list A) :
  (length l <= n)%nat -> lastn n l = l.
Proof.
  intros Hle. unfold lastn.
  replace (length l - n)%nat with 0%nat by lia. reflexivity.
Qed.

Lemma lastn_length (n : nat) (l : list A) :
  length (lastn n l) = Nat.min n (length l).
Proof.
  unfold lastn. rewrite length_skipn. lia.
Qed.

(** Keeping the last [n] early changes nothing of the last [n] later. *)
Lemma lastn_app_lastn (n : nat) (l r : list A) :
  lastn n (lastn n l ++ r) = lastn n (l ++ r).
Proof.
  destruct (Nat.le_gt_cases (length l) n) as [Hle | Hgt].
  - now rewrite (lastn_all n l).
  - unfold lastn at 1 3.
    rewrite !length_app, lastn_length, Nat.min_l by lia.
    unfold lastn.
    replace (n + length r - n)%nat with (length r) by lia.
    replace (length l + length r - n)%nat
      with (length r + (length l - n))%nat by lia.
    rewrite <- skipn_skipn. f_equal.
    rewrite skipn_app.
    replace (length l - n - length l)%nat with 0%nat by lia.
    reflexivity.
Qed.

Lemma tl_app_nonempty (l : list A) (a : A) :
  l <> [] -> tl (l ++ [a]) = tl l ++ [a].
Proof.
  destruct l; [congruence | reflexivity].
Qed.

Lemma last_cons_default (l : list A) (a d : A) :
  last (a :: l) d = last l a.
Proof.
  revert a d. induction l as [| b l IH]; intros a d; [reflexivity |].
  change (last (a :: b :: l) d) with (last (b :: l) d).
  now rewrite (IH b d), (IH b a).
Qed.

End ListFacts.

Lemma pushToHistory_present (s : CanvasState) (h : HistoryState) :
  present (pushToHistory s h) = s.
Proof. reflexivity. Qed.

Lemma pushToHistory_future (s : CanvasState) (h : HistoryState) :
  future (pushToHistory s h) = [].
Proof. reflexivity. Qed.

(** One commit, below capacity and at capacity. *)
Lemma pushToHistory_past_below (s : CanvasState) (h : HistoryState) :
  (length (past h) < MAX_HISTORY_SIZE)%nat ->
  past (pushToHistory s h) = past h ++ [present h].
Proof.
  intros Hlt. unfold pushToHistory. cbn [past].
  rewrite length_app. cbn [length].
  destruct (Nat.ltb_spec MAX_HISTORY_SIZE (length (past h) + 1)); [lia |].
  reflexivity.
Qed.

Lemma pushToHistory_past_full (s : CanvasState) (h : HistoryState) :
  (MAX_HISTORY_SIZE <= length (past h))%nat ->
  past (pushToHistory s h) = tl (past h) ++ [present h].
Proof.
  intros Hge. unfold pushToHistory. cbn [past].
  rewrite length_app. cbn [length].
  destruct (Nat.ltb_spec MAX_HISTORY_SIZE (length (past h) + 1)); [| lia].
  unfold shift. apply tl_app_nonempty.
  intros E. rewrite E in Hge. unfold MAX_HISTORY_SIZE in Hge. cbn in Hge. lia.
Qed.

Lemma pushToHistory_past_lastn (s : CanvasState) (h : HistoryState) :
  (length (past h) <= MAX_HISTORY_SIZE)%nat ->
  past (pushToHistory s h) = lastn MAX_HISTORY_SIZE (past h ++ [present h]).
Proof.
  intros Hle.
  destruct (Nat.eq_dec (length (past h)) MAX_HISTORY_SIZE) as [E | NE].
  - rewrite pushToHistory_past_full by lia.
    unfold lastn. rewrite length_app, E. cbn [length].
    replace (MAX_HISTORY_SIZE + 1 - MAX_HISTORY_SIZE)%nat with 1%nat by lia.
    cbn [skipn].
    destruct (past h) as [| c p]; [discriminate E | reflexivity].
  - rewrite pushToHistory_past_below by lia.
    symmetry. apply lastn_all. rewrite length_app. cbn [length]. lia.
Qed.

Lemma pushToHistory_bound (s : CanvasState) (h : HistoryState) :
  (length (past h) <= MAX_HISTORY_SIZE)%nat ->
  (length (past (pushToHistory s h)) <= MAX_HISTORY_SIZE)%nat.
Proof.
  intros Hle. rewrite pushToHistory_past_lastn by exact Hle.
  rewrite lastn_length. lia.
Qed.

Lemma commits_cons (s : CanvasState) (l : list CanvasState) (h : HistoryState) :
  commits (s :: l) h = commits l (pushToHistory s h).
Proof. reflexivity. Qed.

Lemma commits_snoc (l : list CanvasState) (s : CanvasState) (h : HistoryState) :
  commits (l ++ [s]) h = pushToHistory s (commits l h).
Proof. unfold commits. now rewrite fold_left_app. Qed.

(** The whole stack after a run of commits: the last 50 of everything
    that was ever the present, the newest excepted (it is the present). *)
Lemma commits_past (l : list CanvasState) :
  forall h : HistoryState,
    (length (past h) <= MAX_HISTORY_SIZE)%nat ->
    past (commits l h)
    = lastn MAX_HISTORY_SIZE (past h ++ removelast (present h :: l)).
Proof.
  induction l as [| s l IH]; intros h Hle.
  - cbn. rewrite app_nil_r. symmetry. now apply lastn_all.
  - rewrite commits_cons, IH by now apply pushToHistory_bound.
    rewrite pushToHistory_past_lastn, pushToHistory_present by exact Hle.
    rewrite lastn_app_lastn, <- app_assoc. reflexivity.
Qed.

Lemma commits_present (l : list CanvasState) :
  forall h : HistoryState, present (commits l h) = last l (present h).
Proof.
  induction l as [| s l IH]; intros h; [reflexivity |].
  rewrite commits_cons, IH, pushToHistory_present.
  symmetry. apply last_cons_default.
Qed.

Lemma commits_bound (l : list CanvasState) (h : HistoryState) :
  (length (past h) <= MAX_HISTORY_SIZE)%nat ->
  (length (past (commits l h)) <= MAX_HISTORY_SIZE)%nat.
Proof.
  intros Hle. rewrite commits_past by exact Hle. rewrite lastn_length. lia.
Qed.

(** C3.  From the hook's initial state, after any run of [pushToHistory]
    calls the past holds at most [MAX_HISTORY_SIZE] = 50 snapshots; it is
    exactly the most recent 50 of the earlier presents, in order; and a
    commit on a full past drops its first (oldest) entry and appends the
    outgoing present. *)
Theorem pushToHistory_bounded_fifo :
  forall (initialState : CanvasState) (l : list CanvasState),
    (length (past (commits l (useHistory initialState))) <= 50)%nat
    /\ past (commits l (useHistory initialState))
       = lastn 50 (removelast (initialState :: l))
    /\ forall s : CanvasState,
         past (pushToHistory s (commits l (useHistory initialState)))
         = if (length (past (commits l (useHistory initialState))) <? 50)%nat
           then past (commits l (useHistory initialState))
                ++ [present (commits l (useHistory initialState))]
           else tl (past (commits l (useHistory initialState)))
                ++ [present (commits l (useHistory initialState))].
Proof.
  intros initialState l.
  assert (H0 : (length (past (useHistory initialState))
                <= MAX_HISTORY_SIZE)%nat) by (cbn; lia).
  split; [| split].
  - exact (commits_bound l _ H0).
  - exact (commits_past l _ H0).
  - intros s.
    destruct (Nat.ltb_spec
                (length (past (commits l (useHistory initialState)))) 50).
    + now apply pushToHistory_past_below.
    + now apply pushToHistory_past_full.
Qed.

(** ** Undo and redo *)

Lemma canUndo_nonempty (h : HistoryState) :
  canUndo h = true <-> past h <> [].
Proof.
  unfold canUndo. destruct (past h); cbn; split; congruence.
Qed.

Lemma canRedo_nonempty (h : HistoryState) :
  canRedo h = true <-> future h <> [].
Proof.
  unfold canRedo. destruct (future h); cbn; split; congruence.
Qed.

(** Behind the guard, what [undo] restores is an entry of the past. *)
Lemma undo_previous_in_past (h : HistoryState) :
  canUndo h = true -> In (fst (undo h)) (past h).
Proof.
  intros Hc. unfold undo. rewrite Hc. cbn [negb fst].
  apply canUndo_nonempty in Hc.
  destruct (exists_last Hc) as (p & c & E). rewrite E, last_last.
  apply in_or_app. right. now left.
Qed.

Lemma undo_empty (h : HistoryState) :
  canUndo h = false -> undo h = (present h, h).
Proof. intros Hc. unfold undo. now rewrite Hc. Qed.

Lemma redo_empty (h : HistoryState) :
  canRedo h = false -> redo h = (present h, h).
Proof. intros Hc. unfold redo. now rewrite Hc. Qed.

Lemma undo_step (h : HistoryState) :
  canUndo h = true ->
  undo h
  = (last (past h) (present h),
     mkHistory (removelast (past h)) (last (past h) (present h))
       (present h :: future h)).
Proof. intros Hc. unfold undo. now rewrite Hc. Qed.

Lemma redo_after_undo (h : HistoryState) :
  canUndo h = true -> redo (snd (undo h)) = (present h, h).
Proof.
  intros Hc. rewrite undo_step by exact Hc. cbn [snd].
  unfold redo, canRedo. cbn [future past present length Nat.ltb Nat.leb negb hd tl].
  apply canUndo_nonempty in Hc.
  rewrite <- app_removelast_last by exact Hc.
  now destruct h.
Qed.

(** The same round trip through the callbacks the toolbar and the
    keyboard use. *)
Lemma redoAction_after_undoAction (h : HistoryState) :
  canUndo h = true -> redoAction (undoAction h) = h.
Proof.
  intros Hc. unfold undoAction. rewrite undo_step by exact Hc.
  unfold replacePresent. cbn [past present future].
  pose proof (redo_after_undo h Hc) as R.
  rewrite undo_step in R by exact Hc. cbn [snd] in R.
  unfold redoAction. rewrite R. now destruct h.
Qed.

(** C5.  With a non-empty past, [undo] followed by [redo] hands back the
    pre-undo present and restores the whole history; [undo] on an empty
    past and [redo] on an empty future return the current present and
    leave the history as it is. *)
Theorem undo_redo_roundtrip :
  forall h : HistoryState,
    (canUndo h = true ->
       fst (redo (snd (undo h))) = present h
       /\ present (snd (redo (snd (undo h)))) = present h
       /\ snd (redo (snd (undo h))) = h)
    /\ (canUndo h = false -> undo h = (present h, h))
    /\ (canRedo h = false -> redo h = (present h, h)).
Proof.
  intros h. split; [| split].
  - intros Hc. rewrite (redo_after_undo h Hc). cbn. auto.
  - apply undo_empty.
  - apply redo_empty.
Qed.

Lemma undo_redo_roundtrip_witness :
  canUndo sampleHistory = true
  /\ snd (redo (snd (undo sampleHistory))) = sampleHistory.
Proof.
  split; [reflexivity |].
  apply (proj1 (undo_redo_roundtrip sampleHistory)). reflexivity.
Defined.

(* ================================================================== *)
(** * The viewport *)
(* ================================================================== *)

Lemma clamp_range (v lo hi : Q) :
  lo <= hi -> lo <= clamp v lo hi /\ clamp v lo hi <= hi.
Proof.
  intros Hle. unfold clamp. split.
  - apply Q.le_max_l.
  - apply Q.max_lub; [exact Hle | apply Q.le_min_l].
Qed.

Lemma clamp_inside (v lo hi : Q) :
  lo <= v -> v <= hi -> clamp v lo hi == v.
Proof.
  intros H1 H2. unfold clamp.
  rewrite (Q.min_r hi v) by exact H2. now apply Q.max_r.
Qed.

Lemma zoomViewport_zoom (c : CanvasState) (d : Q) (cx cy : option Q)
    (h : HistoryState) :
  zoom (viewport (zoomed c d cx cy h)) = clamp (zoom (viewport c) + d) (1 # 10) 5.
Proof. destruct cx, cy; reflexivity. Qed.

(** Zooming is a [replacePresent]: past and future are untouched. *)
Lemma zoomViewport_history (c : CanvasState) (d : Q) (cx cy : option Q)
    (h : HistoryState) :
  past (zoomViewport c d cx cy h) = past h
  /\ future (zoomViewport c d cx cy h) = future h.
Proof. destruct cx, cy; split; reflexivity. Qed.


(** The zoom gestures of the application are zoom steps. *)
Lemma wheel_zoom_is_zoomStep (host : Host)
    (e : WheelEvent) (a : AppState) :
  wheel_ctrlKey e = true ->
  history (step host (Wheel e) a)
  = zoomStep (history a)
      (mkZoomStep
         (if Qgt_bool (wheel_deltaY e) 0 then - (1 # 10) else 1 # 10)
         (Some (wheel_clientX e - rect_left host))
         (Some (wheel_clientY e - rect_top host))).
Proof.
  intros Hc. cbn. unfold handleWheel. rewrite Hc. reflexivity.
Qed.

Lemma zoom_buttons_are_zoomSteps (host : Host)
    (a : AppState) :
  history (step host ZoomIn a)
  = zoomStep (history a) (mkZoomStep (1 # 10) None None)
  /\ history (step host ZoomOut a)
     = zoomStep (history a) (mkZoomStep (- (1 # 10)) None None)
  /\ history (step host ZoomReset a)
     = zoomStep (history a)
         (mkZoomStep (1 - zoom (viewport (present (history a)))) None None).
Proof. repeat split. Qed.

(** A two-finger move whose midpoint moved past the pan threshold ends
    in the pan alone: [onPan] is queued after [onZoom] and computes its
    snapshot from the same render's [canvasState], so the present it
    leaves has the zoom of before, whatever the pinch distance. *)
Lemma pinch_pan_overrides_zoom (host : Host) (a : AppState) (t1 t2 : Touch)
    (d : Q) (p : Point) :
  lastTouchDistance (ui a) = Some d ->
  truthy_num (Some d) = true ->
  panStart (ui a) = Some p ->
  (Qgt_bool (Qabs (px (getTouchCenter [t1; t2]) - px p)) 2
   || Qgt_bool (Qabs (py (getTouchCenter [t1; t2]) - py p)) 2)%bool = true ->
  history (step host (TouchMove [t1; t2]) a)
  = panViewport (present (history a))
      (px (getTouchCenter [t1; t2]) - px p)
      (py (getTouchCenter [t1; t2]) - py p)
      (history a).
Proof.
  intros Hd Ht Hp Hpan. unfold step, handleTouchMove.
  rewrite Hd, Ht, Hp, Hpan.
  destruct (Qgt_bool _ (1 # 100)); reflexivity.
Qed.

(** ** Coordinate transforms *)

Lemma canvasToScreen_screenToCanvas (c : CanvasState) (p : Point) :
  ~ zoom (viewport c) == 0 -> point_eq (toScreen c (toCanvas c p)) p.
Proof.
  intros Hz. unfold point_eq, toScreen, toCanvas, canvasToScreen,
    screenToCanvas. cbn [px py]. split; field; exact Hz.
Qed.

Lemma screenToCanvas_canvasToScreen (c : CanvasState) (p : Point) :
  ~ zoom (viewport c) == 0 -> point_eq (toCanvas c (toScreen c p)) p.
Proof.
  intros Hz. unfold point_eq, toScreen, toCanvas, canvasToScreen,
    screenToCanvas. cbn [px py]. split; field; exact Hz.
Qed.

(** C10.  For a viewport whose zoom is not zero, [screenToCanvas] and
    [canvasToScreen] are inverse to each other, in both orders. *)
Theorem transforms_inverse :
  forall (c : CanvasState) (p : Point),
    ~ zoom (viewport c) == 0 ->
    point_eq (toScreen c (toCanvas c p)) p
    /\ point_eq (toCanvas c (toScreen c p)) p.
Proof.
  intros c p Hz. split.
  - now apply canvasToScreen_screenToCanvas.
  - now apply screenToCanvas_canvasToScreen.
Qed.

Lemma transforms_inverse_witness :
  ~ zoom (viewport sampleView) == 0
  /\ point_eq (toScreen sampleView (toCanvas sampleView (mkPoint 3 4)))
       (mkPoint 3 4)
  /\ point_eq (toCanvas sampleView (toScreen sampleView (mkPoint 3 4)))
       (mkPoint 3 4).
Proof.
  assert (Hz : ~ zoom (viewport sampleView) == 0) by discriminate.
  split; [exact Hz |].
  exact (transforms_inverse sampleView (mkPoint 3 4) Hz).
Defined.

(** ** Anchored zoom *)

Lemma zoomViewport_anchored_offsets (c : CanvasState) (d ax ay : Q)
    (h : HistoryState) :
  offsetX (viewport (zoomed c d (Some ax) (Some ay) h))
  = ax - (ax - offsetX (viewport c))
         * (clamp (zoom (viewport c) + d) (1 # 10) 5 / zoom (viewport c))
  /\ offsetY (viewport (zoomed c d (Some ax) (Some ay) h))
     = ay - (ay - offsetY (viewport c))
            * (clamp (zoom (viewport c) + d) (1 # 10) 5 / zoom (viewport c)).
Proof. split; reflexivity. Qed.

(** Without both coordinates of an anchor only the zoom changes. *)
Lemma zoomViewport_unanchored (c : CanvasState) (d : Q) (cx cy : option Q)
    (h : HistoryState) :
  cx = None \/ cy = None ->
  viewport (zoomed c d cx cy h)
  = mkViewport (offsetX (viewport c)) (offsetY (viewport c))
      (clamp (zoom (viewport c) + d) (1 # 10) 5).
Proof.
  intros [-> | ->]; [| destruct cx]; reflexivity.
Qed.

Lemma zoomViewport_anchor_fixed (c : CanvasState) (d ax ay : Q)
    (h : HistoryState) :
  ~ zoom (viewport c) == 0 ->
  point_eq
    (toScreen (zoomed c d (Some ax) (Some ay) h) (toCanvas c (mkPoint ax ay)))
    (mkPoint ax ay).
Proof.
  intros Hz. unfold point_eq, toScreen, toCanvas, canvasToScreen,
    screenToCanvas.
  destruct (zoomViewport_anchored_offsets c d ax ay h) as [Ex Ey].
  rewrite Ex, Ey, zoomViewport_zoom. cbn [px py].
  split; field; exact Hz.
Qed.

(** C6.  From a viewport whose zoom is not zero, a zoom step anchored at
    the screen point (ax, ay) sets the zoom to z' = clamp(z + delta) and
    each offset to anchor - (anchor - offset) * (z' / z); the document
    point that was under the anchor is under it again afterwards.  This
    holds for every delta, so in particular for those that stay inside
    the clamp, where z' is z + delta.  A step without an anchor changes
    the zoom and leaves both offsets as they were. *)
Theorem zoom_anchor_invariant :
  forall (c : CanvasState) (d ax ay : Q) (h : HistoryState),
    ~ zoom (viewport c) == 0 ->
    (zoom (viewport (zoomed c d (Some ax) (Some ay) h))
     = clamp (zoom (viewport c) + d) (1 # 10) 5
     /\ (1 # 10 <= zoom (viewport c) + d <= 5 ->
         zoom (viewport (zoomed c d (Some ax) (Some ay) h))
         == zoom (viewport c) + d)
     /\ offsetX (viewport (zoomed c d (Some ax) (Some ay) h))
        == ax - (ax - offsetX (viewport c))
                * (zoom (viewport (zoomed c d (Some ax) (Some ay) h))
                   / zoom (viewport c))
     /\ offsetY (viewport (zoomed c d (Some ax) (Some ay) h))
        == ay - (ay - offsetY (viewport c))
                * (zoom (viewport (zoomed c d (Some ax) (Some ay) h))
                   / zoom (viewport c))
     /\ point_eq
          (toScreen (zoomed c d (Some ax) (Some ay) h)
             (toCanvas c (mkPoint ax ay)))
          (mkPoint ax ay))
    /\ (zoom (viewport (zoomed c d None None h))
        = clamp (zoom (viewport c) + d) (1 # 10) 5
        /\ offsetX (viewport (zoomed c d None None h)) = offsetX (viewport c)
        /\ offsetY (viewport (zoomed c d None None h)) = offsetY (viewport c)).
Proof.
  intros c d ax ay h Hz. split.
  - destruct (zoomViewport_anchored_offsets c d ax ay h) as [Ex Ey].
    split; [| split; [| split; [| split]]].
    + apply zoomViewport_zoom.
    + intros [Hlo Hhi]. rewrite zoomViewport_zoom. now apply clamp_inside.
    + rewrite Ex, zoomViewport_zoom. reflexivity.
    + rewrite Ey, zoomViewport_zoom. reflexivity.
    + now apply zoomViewport_anchor_fixed.
  - split; [apply zoomViewport_zoom | split; reflexivity].
Qed.

Lemma zoom_anchor_invariant_witness :
  ~ zoom (viewport sampleView) == 0
  /\ point_eq
       (toScreen (zoomed sampleView (1 # 10) (Some 200) (Some 120)
                    sampleHistory)
          (toCanvas sampleView (mkPoint 200 120)))
       (mkPoint 200 120).
Proof.
  assert (Hz : ~ zoom (viewport sampleView) == 0) by discriminate.
  split; [exact Hz |].
  apply (zoom_anchor_invariant sampleView (1 # 10) 200 120 sampleHistory Hz).
Defined.

(* ================================================================== *)
(** * Geometry: bounds after a resize *)
(* ================================================================== *)

(** The re-mapping of one coordinate, [b + (v - m) * k], is monotone when
    the scale [k] is not negative, so it commutes with minimum and
    maximum. *)
Section Remap.

Variables b m k : Q.
Hypothesis k_nonneg : 0 <= k.

Lemma remap_proper (u v : Q) :
  u == v -> b + (u - m) * k == b + (v - m) * k.
Proof. intros E. now rewrite E. Qed.

Lemma remap_mono (u v : Q) :
  u <= v -> b + (u - m) * k <= b + (v - m) * k.
Proof.
  intros L. apply Qplus_le_r. apply Qmult_le_compat_r; [lra | exact k_nonneg].
Qed.

Lemma remap_min (u v : Q) :
  Qmin (b + (u - m) * k) (b + (v - m) * k) == b + (Qmin u v - m) * k.
Proof.
  apply (Q.min_monotone (fun t => b + (t - m) * k)).
  - intros s t E. now apply remap_proper.
  - intros s t L. now apply remap_mono.
Qed.

Lemma remap_max (u v : Q) :
  Qmax (b + (u - m) * k) (b + (v - m) * k) == b + (Qmax u v - m) * k.
Proof.
  apply (Q.max_monotone (fun t => b + (t - m) * k)).
  - intros s t E. now apply remap_proper.
  - intros s t L. now apply remap_mono.
Qed.

Lemma fold_Qmin_proper (l : list Q) :
  forall a a' : Q, a == a' -> fold_left Qmin l a == fold_left Qmin l a'.
Proof.
  induction l as [| c l IH]; intros a a' E; cbn; [exact E |].
  apply IH. now rewrite E.
Qed.

Lemma fold_Qmax_proper (l : list Q) :
  forall a a' : Q, a == a' -> fold_left Qmax l a == fold_left Qmax l a'.
Proof.
  induction l as [| c l IH]; intros a a' E; cbn; [exact E |].
  apply IH. now rewrite E.
Qed.

Lemma remap_fold_min (l : list Q) :
  forall a : Q,
    fold_left Qmin (map (fun t => b + (t - m) * k) l) (b + (a - m) * k)
    == b + (fold_left Qmin l a - m) * k.
Proof.
  induction l as [| c l IH]; intros a; cbn; [reflexivity |].
  rewrite <- IH. apply fold_Qmin_proper, remap_min.
Qed.

Lemma remap_fold_max (l : list Q) :
  forall a : Q,
    fold_left Qmax (map (fun t => b + (t - m) * k) l) (b + (a - m) * k)
    == b + (fold_left Qmax l a - m) * k.
Proof.
  induction l as [| c l IH]; intros a; cbn; [reflexivity |].
  rewrite <- IH. apply fold_Qmax_proper, remap_max.
Qed.

Lemma remap_Math_min (l : list Q) :
  l <> [] ->
  Math_min (map (fun t => b + (t - m) * k) l) == b + (Math_min l - m) * k.
Proof.
  destruct l as [| a l]; [congruence | intros _]. apply remap_fold_min.
Qed.

Lemma remap_Math_max (l : list Q) :
  l <> [] ->
  Math_max (map (fun t => b + (t - m) * k) l) == b + (Math_max l - m) * k.
Proof.
  destruct l as [| a l]; [congruence | intros _]. apply remap_fold_max.
Qed.

End Remap.

(** The scale factor of one axis: when the old extent is at least the
    floor 0.1, scaling the old extent gives the new one. *)
Lemma scale_exact (w nw : Q) :
  1 # 10 <= w -> w * (nw / Qmax w (1 # 10)) == nw.
Proof.
  intros Hw. rewrite (Q.max_l w (1 # 10)) by exact Hw.
  field. lra.
Qed.

Lemma scale_nonneg (w nw : Q) :
  0 <= nw -> 0 <= nw / Qmax w (1 # 10).
Proof.
  intros Hn. apply Qle_shift_div_l.
  - apply Qlt_le_trans with (1 # 10); [reflexivity | apply Q.le_max_r].
  - lra.
Qed.

(** One axis of a line or arrow after the resize: the two re-mapped
    ends start at the new origin, and span the new extent when the old
    extent was at least 0.1. *)
Lemma line_axis_after_resize (u v o n : Q) :
  0 <= n ->
  Qmin (o + (u - Qmin u v) * (n / Qmax (Qmax u v - Qmin u v) (1 # 10)))
       (o + (v - Qmin u v) * (n / Qmax (Qmax u v - Qmin u v) (1 # 10)))
  == o
  /\ Qmax (o + (u - Qmin u v) * (n / Qmax (Qmax u v - Qmin u v) (1 # 10)))
          (o + (v - Qmin u v) * (n / Qmax (Qmax u v - Qmin u v) (1 # 10)))
     - Qmin (o + (u - Qmin u v) * (n / Qmax (Qmax u v - Qmin u v) (1 # 10)))
            (o + (v - Qmin u v) * (n / Qmax (Qmax u v - Qmin u v) (1 # 10)))
     == (Qmax u v - Qmin u v) * (n / Qmax (Qmax u v - Qmin u v) (1 # 10)).
Proof.
  intros Hn.
  pose proof (scale_nonneg (Qmax u v - Qmin u v) n Hn) as Hk.
  rewrite remap_min, remap_max by exact Hk. split; ring.
Qed.

(** The same for the points of a pen stroke. *)
Lemma pen_axis_after_resize (l : list Q) (o n : Q) :
  l <> [] -> 0 <= n ->
  Math_min
    (map (fun t => o + (t - Math_min l)
                       * (n / Qmax (Math_max l - Math_min l) (1 # 10))) l)
  == o
  /\ Math_max
       (map (fun t => o + (t - Math_min l)
                          * (n / Qmax (Math_max l - Math_min l) (1 # 10))) l)
     - Math_min
         (map (fun t => o + (t - Math_min l)
                            * (n / Qmax (Math_max l - Math_min l) (1 # 10))) l)
     == (Math_max l - Math_min l)
        * (n / Qmax (Math_max l - Math_min l) (1 # 10)).
Proof.
  intros Hl Hn.
  pose proof (scale_nonneg (Math_max l - Math_min l) n Hn) as Hk.
  rewrite remap_Math_min, remap_Math_max by assumption. split; ring.
Qed.

Lemma getShapeBounds_resize_pen (o : BaseShape) (pts : list Point)
    (nb : BoundingBox) :
  pts <> [] ->
  getShapeBounds (resizeShape (mkShape o (PenShape pts)) nb)
  = mkBox
      (Math_min
         (map (fun t => bb_x nb + (t - Math_min (map px pts))
                 * (bb_width nb
                    / Qmax (Math_max (map px pts) - Math_min (map px pts))
                        (1 # 10)))
            (map px pts)))
      (Math_min
         (map (fun t => bb_y nb + (t - Math_min (map py pts))
                 * (bb_height nb
                    / Qmax (Math_max (map py pts) - Math_min (map py pts))
                        (1 # 10)))
            (map py pts)))
      (Math_max
         (map (fun t => bb_x nb + (t - Math_min (map px pts))
                 * (bb_width nb
                    / Qmax (Math_max (map px pts) - Math_min (map px pts))
                        (1 # 10)))
            (map px pts))
       - Math_min
           (map (fun t => bb_x nb + (t - Math_min (map px pts))
                   * (bb_width nb
                      / Qmax (Math_max (map px pts) - Math_min (map px pts))
                          (1 # 10)))
              (map px pts)))
      (Math_max
         (map (fun t => bb_y nb + (t - Math_min (map py pts))
                 * (bb_height nb
                    / Qmax (Math_max (map py pts) - Math_min (map py pts))
                        (1 # 10)))
            (map py pts))
       - Math_min
           (map (fun t => bb_y nb + (t - Math_min (map py pts))
                   * (bb_height nb
                      / Qmax (Math_max (map py pts) - Math_min (map py pts))
                          (1 # 10)))
              (map py pts))).
Proof.
  intros Hne. destruct pts as [| p pts]; [congruence |].
  unfold resizeShape, getShapeBounds.
  cbn [variant base length Nat.eqb bb_x bb_y bb_width bb_height].
  rewrite !map_map. cbn [px py]. reflexivity.
Qed.

Lemma box_eq_refl (a : BoundingBox) : box_eq a a.
Proof. unfold box_eq. repeat split; reflexivity. Qed.

Lemma bounds_after_resize_box (s : Shape) (nb : BoundingBox) :
  isBoxShape s = true -> getShapeBounds (resizeShape s nb) = nb.
Proof.
  destruct s as [o v], nb; destruct v; cbn; intros H;
    try discriminate H; reflexivity.
Qed.

Lemma bounds_after_resize_line (o : BaseShape) (ex ey : Q) (v : ShapeVariant)
    (nb : BoundingBox) :
  v = LineShape ex ey \/ v = ArrowShape ex ey ->
  0 <= bb_width nb -> 0 <= bb_height nb ->
  1 # 10 <= bb_width (getShapeBounds (mkShape o v)) ->
  1 # 10 <= bb_height (getShapeBounds (mkShape o v)) ->
  box_eq (getShapeBounds (resizeShape (mkShape o v) nb)) nb.
Proof.
  intros Hv Hw Hh Ow Oh.
  destruct (line_axis_after_resize (x o) ex (bb_x nb) (bb_width nb) Hw)
    as [Xo Xw].
  destruct (line_axis_after_resize (y o) ey (bb_y nb) (bb_height nb) Hh)
    as [Yo Yw].
  destruct Hv as [-> | ->];
    cbn in Ow, Oh; unfold box_eq; cbn;
    (split; [exact Xo | split; [exact Yo | split]]);
    [ rewrite Xw | rewrite Yw | rewrite Xw | rewrite Yw ];
    now apply scale_exact.
Qed.

Lemma bounds_after_resize_pen (o : BaseShape) (pts : list Point)
    (nb : BoundingBox) :
  0 <= bb_width nb -> 0 <= bb_height nb ->
  1 # 10 <= bb_width (getShapeBounds (mkShape o (PenShape pts))) ->
  1 # 10 <= bb_height (getShapeBounds (mkShape o (PenShape pts))) ->
  box_eq (getShapeBounds (resizeShape (mkShape o (PenShape pts)) nb)) nb.
Proof.
  intros Hw Hh Ow Oh.
  destruct pts as [| p pts]; [cbn in Ow; lra |].
  assert (Hx : map px (p :: pts) <> []) by discriminate.
  assert (Hy : map py (p :: pts) <> []) by discriminate.
  destruct (pen_axis_after_resize _ (bb_x nb) (bb_width nb) Hx Hw) as [Xo Xw].
  destruct (pen_axis_after_resize _ (bb_y nb) (bb_height nb) Hy Hh) as [Yo Yw].
  rewrite getShapeBounds_resize_pen by discriminate.
  change (bb_width (getShapeBounds (mkShape o (PenShape (p :: pts)))))
    with (Math_max (map px (p :: pts)) - Math_min (map px (p :: pts))) in Ow.
  change (bb_height (getShapeBounds (mkShape o (PenShape (p :: pts)))))
    with (Math_max (map py (p :: pts)) - Math_min (map py (p :: pts))) in Oh.
  unfold box_eq. cbn [bb_x bb_y bb_width bb_height].
  split; [exact Xo | split; [exact Yo | split]].
  - rewrite Xw. now apply scale_exact.
  - rewrite Yw. now apply scale_exact.
Qed.

(** C2, as the code has it.  The bounds of a resized shape are the
    requested box for every rectangle, circle and text, and for every
    pen stroke, line and arrow whose bounds before the resize measure at
    least 0.1 on both axes (the floor [resizeShape] puts under the old
    extent before dividing by it). *)
Theorem bounds_after_resize :
  forall (s : Shape) (b : BoundingBox),
    0 < bb_width b -> 0 < bb_height b ->
    isBoxShape s = true
    \/ (1 # 10 <= bb_width (getShapeBounds s)
        /\ 1 # 10 <= bb_height (getShapeBounds s)) ->
    box_eq (getShapeBounds (resizeShape s b)) b.
Proof.
  intros s b Hw Hh [Hbox | [Ow Oh]].
  - rewrite bounds_after_resize_box by exact Hbox. apply box_eq_refl.
  - destruct s as [o v]. destruct v as [pts | | | ex ey | ex ey | t f g].
    + apply bounds_after_resize_pen; lra || assumption.
    + rewrite bounds_after_resize_box by reflexivity. apply box_eq_refl.
    + rewrite bounds_after_resize_box by reflexivity. apply box_eq_refl.
    + apply (bounds_after_resize_line o ex ey); auto; lra.
    + apply (bounds_after_resize_line o ex ey); auto; lra.
    + rewrite bounds_after_resize_box by reflexivity. apply box_eq_refl.
Qed.

Lemma bounds_after_resize_witness :
  0 < bb_width sampleBox /\ 0 < bb_height sampleBox
  /\ 1 # 10 <= bb_width (getShapeBounds sampleDiagonal)
  /\ 1 # 10 <= bb_height (getShapeBounds sampleDiagonal)
  /\ box_eq (getShapeBounds (resizeShape sampleDiagonal sampleBox)) sampleBox.
Proof.
  assert (Hw : 0 < bb_width sampleBox) by reflexivity.
  assert (Hh : 0 < bb_height sampleBox) by reflexivity.
  assert (Ow : 1 # 10 <= bb_width (getShapeBounds sampleDiagonal))
    by discriminate.
  assert (Oh : 1 # 10 <= bb_height (getShapeBounds sampleDiagonal))
    by discriminate.
  repeat (split; [assumption |]).
  exact (bounds_after_resize sampleDiagonal sampleBox Hw Hh
           (or_intror (conj Ow Oh))).
Defined.

(** C2 as the specification words it fails on a vertical line: its old
    width is 0, the floor makes the scale 20 / 0.1, and both ends stay on
    the left edge; the resized line is 0 wide, not 20. *)
Lemma resize_vertical_line_counterexample :
  0 < bb_width sampleBox /\ 0 < bb_height sampleBox
  /\ bb_width (getShapeBounds (resizeShape sampleLine sampleBox)) == 0
  /\ ~ box_eq (getShapeBounds (resizeShape sampleLine sampleBox)) sampleBox.
Proof.
  split; [reflexivity | split; [reflexivity | split; [reflexivity |]]].
  intros (_ & _ & Hw & _). vm_compute in Hw. discriminate Hw.
Qed.

(* ================================================================== *)
(** * The drag gesture *)
(* ================================================================== *)

Section Drag.

Variable host : Host.

Lemma run_cons (ev : Event) (evs : list Event) (a : AppState) :
  run host (ev :: evs) a
  = run host evs (step host ev a).
Proof. reflexivity. Qed.

Lemma run_app (evs evs' : list Event) (a : AppState) :
  run host (evs ++ evs') a
  = run host evs' (run host evs a).
Proof. unfold run. apply fold_left_app. Qed.

(** Pointer-down with the select tool on a shape: one commit, of the
    snapshot with that shape selected. *)
Lemma mouseDown_select_hit (a : AppState) (down : MouseEvent)
    (newId : string) (s : Shape) :
  isPanClick down = false ->
  currentTool (present (history a)) = select ->
  getShapeAtPoint (Math_cos host) (Math_sin host)
    (getCanvasMousePos host (present (history a)) down)
    (shapes (present (history a))) = Some s ->
  step host (MouseDown down newId) a
  = mkApp
      (pushToHistory (selectSnapshot (present (history a)) s) (history a))
      (setDragStart
         (Some (getCanvasMousePos host (present (history a)) down))
         (setIsDragging true (ui a))).
Proof.
  intros Hpan Htool Hhit. unfold isPanClick in Hpan.
  unfold step, handleMouseDown. rewrite Hpan, Htool, Hhit. reflexivity.
Qed.

(** A move sample in the middle of a drag: one commit, of the snapshot
    with the selected shape moved by the delta since the last sample. *)
Lemma mouseMove_dragging (a : AppState) (e : MouseEvent) :
  dragging a = true ->
  exists dx dy : Q,
    history (step host (MouseMove e) a)
    = pushToHistory (moveSnapshot (present (history a)) dx dy) (history a)
    /\ dragging (step host (MouseMove e) a) = true.
Proof.
  unfold dragging. intros H.
  apply andb_prop in H as [H Hdraw]. apply andb_prop in H as [H Hsel].
  apply andb_prop in H as [H Hstart]. apply andb_prop in H as [Hpan Hdrag].
  apply negb_true_iff in Hpan. apply negb_true_iff in Hdraw.
  destruct (dragStart (ui a)) as [d |] eqn:Ed; [| discriminate Hstart].
  exists (px (getCanvasMousePos host (present (history a)) e) - px d),
         (py (getCanvasMousePos host (present (history a)) e) - py d).
  unfold step, handleMouseMove. rewrite Hpan, Hdrag, Ed, Hsel.
  cbn [fst snd history ui]. split; [reflexivity |].
  cbn. rewrite Hpan, Hdrag, Hsel, Hdraw. reflexivity.
Qed.

(** Release outside a drawing: nothing is committed. *)
Lemma mouseUp_not_drawing (a : AppState) :
  isDrawing (ui a) = false ->
  history (step host MouseUp a) = history a.
Proof.
  intros Hd. unfold step, handleMouseUp. rewrite Hd. reflexivity.
Qed.

Lemma dragging_not_drawing (a : AppState) :
  dragging a = true -> isDrawing (ui a) = false.
Proof.
  unfold dragging. intros H. apply andb_prop in H as [_ H].
  now apply negb_true_iff.
Qed.

(** The move samples of a drag are as many commits. *)
Lemma moves_dragging (moves : list MouseEvent) :
  forall a : AppState,
    dragging a = true ->
    exists snaps : list CanvasState,
      length snaps = length moves
      /\ history (run host (map MouseMove moves) a)
         = commits snaps (history a)
      /\ dragging (run host (map MouseMove moves) a) = true.
Proof.
  induction moves as [| e moves IH]; intros a Hd.
  - exists []. repeat split. exact Hd.
  - destruct (mouseMove_dragging a e Hd) as (dx & dy & Hh & Hd').
    destruct (IH _ Hd') as (snaps & Hlen & Hrun & Hd'').
    exists (moveSnapshot (present (history a)) dx dy :: snaps).
    cbn [map length]. rewrite run_cons, commits_cons, <- Hh.
    repeat split; [now rewrite Hlen | exact Hrun | exact Hd''].
Qed.

End Drag.

Lemma commits_past_length (l : list CanvasState) (h : HistoryState) :
  (length (past h) <= MAX_HISTORY_SIZE)%nat ->
  length (past (commits l h))
  = Nat.min MAX_HISTORY_SIZE (length (past h) + length l).
Proof.
  intros Hle. rewrite commits_past by exact Hle.
  rewrite lastn_length, length_app.
  destruct (exists_last (l := present h :: l)) as (r & c & E);
    [discriminate |].
  rewrite E, removelast_last.
  apply (f_equal (@length _)) in E. rewrite length_app in E. cbn in E.
  lia.
Qed.

(** One [undo] after a commit gives back the snapshot that was present
    before the commit. *)
Lemma undo_after_pushToHistory (s : CanvasState) (h : HistoryState) :
  canUndo (pushToHistory s h) = true
  /\ fst (undo (pushToHistory s h)) = present h
  /\ present (snd (undo (pushToHistory s h))) = present h.
Proof.
  assert (Hlast : exists p, past (pushToHistory s h) = p ++ [present h]).
  { unfold pushToHistory. cbn [past].
    destruct (MAX_HISTORY_SIZE <? length (past h ++ [present h]))%nat eqn:E.
    - destruct (past h) as [| c p] eqn:Ep.
      + cbn in E. discriminate E.
      + exists p. reflexivity.
    - now exists (past h). }
  destruct Hlast as (p & Hp).
  assert (Hc : canUndo (pushToHistory s h) = true).
  { apply canUndo_nonempty. rewrite Hp. now destruct p. }
  split; [exact Hc |].
  rewrite undo_step by exact Hc. cbn [fst snd present].
  rewrite Hp, last_last. split; reflexivity.
Qed.

Lemma mouseMove_drag (host : Host) (a : AppState) (p : Point)
    (e : MouseEvent) :
  dragging a = true -> dragStart (ui a) = Some p ->
  step host (MouseMove e) a
  = mkApp
      (pushToHistory
         (moveSnapshot (present (history a))
            (px (getCanvasMousePos host (present (history a)) e) - px p)
            (py (getCanvasMousePos host (present (history a)) e) - py p))
         (history a))
      (setDragStart
         (Some (getCanvasMousePos host (present (history a)) e)) (ui a)).
Proof.
  unfold dragging. intros H Ed.
  apply andb_prop in H as [H Hdraw]. apply andb_prop in H as [H Hsel].
  apply andb_prop in H as [H Hstart]. apply andb_prop in H as [Hpan Hdrag].
  apply negb_true_iff in Hpan.
  unfold step, handleMouseMove. rewrite Hpan, Hdrag, Ed, Hsel. reflexivity.
Qed.

Lemma commits_future (l : list CanvasState) :
  forall h : HistoryState, l <> [] -> future (commits l h) = [].
Proof.
  induction l as [| s l IH]; intros h Hne; [congruence |].
  rewrite commits_cons. destruct l as [| t l]; [reflexivity |].
  apply IH. discriminate.
Qed.

Lemma dragSnaps_length (host : Host) (moves : list MouseEvent) :
  forall (c : CanvasState) (p : Point),
    length (dragSnaps host c p moves) = length moves.
Proof.
  induction moves as [| e moves IH]; intros c p; [reflexivity |].
  cbn [dragSnaps length]. now rewrite IH.
Qed.

(** One more sample is one more snapshot, after those of the samples
    before it. *)
Lemma dragSnaps_snoc (host : Host) (moves : list MouseEvent)
    (e : MouseEvent) :
  forall (c : CanvasState) (p : Point),
    exists snap : CanvasState,
      dragSnaps host c p (moves ++ [e])
      = dragSnaps host c p moves ++ [snap].
Proof.
  induction moves as [| e0 moves IH]; intros c p.
  - eexists. reflexivity.
  - cbn [app dragSnaps].
    destruct (IH (moveSnapshot c
                    (px (getCanvasMousePos host c e0) - px p)
                    (py (getCanvasMousePos host c e0) - py p))
                 (getCanvasMousePos host c e0)) as (snap & E).
    exists snap. now rewrite E.
Qed.

(** The move samples of a drag commit the snapshots of [dragSnaps], in
    order. *)
Lemma moves_drag_snaps (host : Host) (moves : list MouseEvent) :
  forall (a : AppState) (p : Point),
    dragging a = true ->
    dragStart (ui a) = Some p ->
    history (run host (map MouseMove moves) a)
    = commits (dragSnaps host (present (history a)) p moves) (history a)
    /\ isDrawing (ui (run host (map MouseMove moves) a)) = false.
Proof.
  induction moves as [| e moves IH]; intros a p Hd Ep.
  - split; [reflexivity | now apply dragging_not_drawing].
  - cbn [map dragSnaps]. rewrite run_cons, commits_cons.
    destruct (mouseMove_dragging host a e Hd) as (_ & _ & _ & Hd').
    rewrite (mouseMove_drag host a p e Hd Ep) in Hd' |- *.
    destruct (IH _ (getCanvasMousePos host (present (history a)) e)
                Hd' eq_refl) as (Hrun & Hdraw).
    split; [exact Hrun | exact Hdraw].
Qed.

Lemma drag_history (host : Host) (a : AppState) (down : MouseEvent)
    (moves : list MouseEvent) (s : Shape) :
  isPanning (ui a) = false ->
  isDrawing (ui a) = false ->
  isPanClick down = false ->
  currentTool (present (history a)) = select ->
  getShapeAtPoint (Math_cos host) (Math_sin host)
    (getCanvasMousePos host (present (history a)) down)
    (shapes (present (history a))) = Some s ->
  id s <> EmptyString ->
  history (run host (MouseDown down EmptyString :: map MouseMove moves) a)
  = commits
      (selectSnapshot (present (history a)) s
       :: dragSnaps host (selectSnapshot (present (history a)) s)
            (getCanvasMousePos host (present (history a)) down) moves)
      (history a)
  /\ history (run host (dragGesture down moves) a)
     = history
         (run host (MouseDown down EmptyString :: map MouseMove moves) a).
Proof.
  intros Hpan Hdraw Hclick Htool Hhit Hid.
  pose proof (mouseDown_select_hit host a down EmptyString s
                Hclick Htool Hhit) as Hdown.
  assert (Hd : dragging (step host (MouseDown down EmptyString) a)
               = true).
  { rewrite Hdown. unfold dragging. cbn. rewrite Hpan, Hdraw. cbn.
    destruct (id s) as [| c r]; [congruence | reflexivity]. }
  destruct (moves_drag_snaps host moves
              (step host (MouseDown down EmptyString) a)
              (getCanvasMousePos host (present (history a)) down) Hd)
    as (Hrun & Hnd); [rewrite Hdown; reflexivity |].
  split.
  - rewrite run_cons, Hrun, Hdown. reflexivity.
  - unfold dragGesture. rewrite app_comm_cons, run_app.
    rewrite (run_cons host (MouseDown down EmptyString)).
    rewrite (run_cons host MouseUp []).
    change (run host [] ?b) with b.
    apply mouseUp_not_drawing. exact Hnd.
Qed.

(** C1, as the code has it.  [Canvas] reports every change through
    [onCanvasStateChange], which [App] binds to [updateCanvasState], that
    is [pushToHistory].  So in a drag gesture (pointer-down with the
    select tool on a shape with a non-empty id, [n] move samples,
    pointer-up; no pan or drawing under way, and a zoom that is not
    zero, so that the pointer has a document position) the pointer-down
    commits the snapshot with the shape selected, every move sample
    commits the snapshot before it with the selected shape moved by the
    delta from the last drag point to the sample (the snapshots of
    [dragSnaps], in order), and the release commits nothing.  The
    history after the gesture is the history before it followed by
    these [n + 1] commits: the past grows by [n + 1] entries, up to the
    cap of 50, the future is empty, and each move sample is an undo
    step of its own (one Undo after the gesture leads back to the
    snapshot of the gesture without its last sample). *)
Theorem drag_gesture_commits :
  forall (host : Host) (a : AppState)
         (down : MouseEvent) (moves : list MouseEvent) (s : Shape),
    isPanning (ui a) = false ->
    isDrawing (ui a) = false ->
    isPanClick down = false ->
    currentTool (present (history a)) = select ->
    ~ zoom (viewport (present (history a))) == 0 ->
    getShapeAtPoint (Math_cos host) (Math_sin host)
      (getCanvasMousePos host (present (history a)) down)
      (shapes (present (history a))) = Some s ->
    id s <> EmptyString ->
    history (run host (dragGesture down moves) a)
    = commits
        (selectSnapshot (present (history a)) s
         :: dragSnaps host (selectSnapshot (present (history a)) s)
              (getCanvasMousePos host (present (history a)) down) moves)
        (history a)
    /\ length
         (dragSnaps host (selectSnapshot (present (history a)) s)
            (getCanvasMousePos host (present (history a)) down) moves)
       = length moves
    /\ history (run host (dragGesture down moves) a)
       = history
           (run host
              (MouseDown down EmptyString :: map MouseMove moves) a)
    /\ ((length (past (history a)) <= 50)%nat ->
        length (past (history (run host (dragGesture down moves) a)))
        = Nat.min 50 (length (past (history a)) + S (length moves)))
    /\ future (history (run host (dragGesture down moves) a)) = []
    /\ (forall (ms : list MouseEvent) (e : MouseEvent),
          moves = ms ++ [e] ->
          present (undoAction (history (run host (dragGesture down moves) a)))
          = present (history (run host (dragGesture down ms) a))).
Proof.
  intros host a down moves s Hpan Hdraw Hclick Htool _ Hhit Hid.
  assert (Hall : forall ms : list MouseEvent,
            history (run host (dragGesture down ms) a)
            = commits
                (selectSnapshot (present (history a)) s
                 :: dragSnaps host (selectSnapshot (present (history a)) s)
                      (getCanvasMousePos host (present (history a)) down) ms)
                (history a)).
  { intros ms.
    destruct (drag_history host a down ms s Hpan Hdraw Hclick Htool Hhit Hid)
      as (H1 & H2).
    now rewrite H2, H1. }
  split; [apply Hall |]. split; [apply dragSnaps_length |].
  split; [apply (drag_history host a down moves s); assumption |].
  split; [| split].
  - intros Hle. rewrite Hall, commits_past_length by exact Hle.
    cbn [length]. now rewrite dragSnaps_length.
  - rewrite Hall. apply commits_future. discriminate.
  - intros ms e ->. rewrite (Hall (ms ++ [e])), (Hall ms).
    destruct (dragSnaps_snoc host ms e
                (selectSnapshot (present (history a)) s)
                (getCanvasMousePos host (present (history a)) down))
      as (snap & E).
    rewrite E, app_comm_cons, commits_snoc.
    unfold undoAction.
    destruct (undo_after_pushToHistory snap
                (commits
                   (selectSnapshot (present (history a)) s
                    :: dragSnaps host
                         (selectSnapshot (present (history a)) s)
                         (getCanvasMousePos host (present (history a)) down)
                         ms)
                   (history a))) as (_ & Hf & _).
    destruct (undo (pushToHistory snap _)) as [prev h1].
    cbn [fst] in Hf. cbn [replacePresent present]. exact Hf.
Qed.

Lemma drag_gesture_commits_witness :
  history
    (run sampleHost (dragGesture sampleDown [sampleMove1; sampleMove2])
       sampleApp)
  = commits
      (selectSnapshot sampleDoc sampleRect
       :: dragSnaps sampleHost (selectSnapshot sampleDoc sampleRect)
            (mkPoint 20 20) [sampleMove1; sampleMove2])
      (history sampleApp).
Proof.
  refine (proj1
    (drag_gesture_commits sampleHost sampleApp sampleDown
       [sampleMove1; sampleMove2] sampleRect _ _ _ _ _ _ _)).
  - reflexivity.
  - reflexivity.
  - reflexivity.
  - reflexivity.
  - discriminate.
  - vm_compute. reflexivity.
  - discriminate.
Defined.

(** C1 as the specification words it fails: dragging the sample rectangle
    over two move samples leaves three entries on a past that was empty. *)
Lemma drag_gesture_counterexample :
  currentTool (present (history sampleApp)) = select
  /\ getShapeAtPoint sampleCos sampleSin
       (getCanvasMousePos sampleHost (present (history sampleApp))
          sampleDown)
       (shapes (present (history sampleApp))) = Some sampleRect
  /\ past (history sampleApp) = []
  /\ length
       (past (history
                (run sampleHost
                   (dragGesture sampleDown [sampleMove1; sampleMove2])
                   sampleApp))) = 3%nat
  /\ past (history
             (run sampleHost
                (dragGesture sampleDown [sampleMove1; sampleMove2])
                sampleApp))
     <> past (history sampleApp).
Proof.
  split; [reflexivity |].
  split; [vm_compute; reflexivity |].
  split; [reflexivity |].
  split; [vm_compute; reflexivity |].
  intros E. apply (f_equal (@length _)) in E. vm_compute in E. discriminate E.
Qed.

(* ================================================================== *)
(** * Duplication *)
(* ================================================================== *)

Lemma selected_set_selected (b : option bool) (s : Shape) :
  selected (set_selected b s) = b.
Proof. reflexivity. Qed.

(** C7, as the code has it.  With a selected shape (a non-empty
    [selectedShapeId] that names a shape of the list), duplication
    appends one copy: position moved by (20, 20), every other field of
    the original but [selected], which is [false], and [id], which is
    the string drawn from [Math.random].  The draw is not compared with
    the ids in use: the id is fresh exactly when the draw is not the id
    of a shape of the document, and then the copy is the only shape
    that carries it and the original keeps another id.  Every shape of
    the new list, the copy included, has [selected = false]; the
    selection is the [selectedShapeId], which is the copy's id.  The
    change is one commit, and one [undo] restores the snapshot from
    before the duplication. *)
Theorem duplicate_selected_shape :
  forall (h : HistoryState) (newId : string) (s : Shape),
    truthy_id (selectedShapeId (present h)) = true ->
    find (fun shape : Shape => id_is (id shape) (selectedShapeId (present h)))
      (shapes (present h)) = Some s ->
    shapes (present (duplicated h newId))
    = map (set_selected (Some false)) (shapes (present h))
      ++ [duplicateOf s newId]
    /\ x (duplicateOf s newId) = x s + 20
    /\ y (duplicateOf s newId) = y s + 20
    /\ id (duplicateOf s newId) = newId
    /\ selectedShapeId (present (duplicated h newId)) = Some newId
    /\ Forall (fun t : Shape => selected t = Some false)
         (shapes (present (duplicated h newId)))
    /\ duplicated h newId
       = pushToHistory
           (set_selection (shapes (present (duplicated h newId)))
              (Some newId) (present h))
           h
    /\ canUndo (duplicated h newId) = true
    /\ fst (undo (duplicated h newId)) = present h
    /\ present (snd (undo (duplicated h newId))) = present h
    /\ (Forall (fun t : Shape => id t <> newId) (shapes (present h)) ->
        id s <> newId
        /\ filter (fun t : Shape => String.eqb (id t) newId)
             (shapes (present (duplicated h newId)))
           = [duplicateOf s newId])
    /\ ((exists t : Shape, In t (shapes (present h)) /\ id t = newId) ->
        (2 <= length
                (filter (fun t : Shape => String.eqb (id t) newId)
                   (shapes (present (duplicated h newId)))))%nat).
Proof.
  intros h newId s Hsel Hfind.
  assert (E : duplicated h newId
              = pushToHistory
                  (set_selection
                     (map (set_selected (Some false)) (shapes (present h))
                      ++ [duplicateOf s newId])
                     (Some newId) (present h))
                  h).
  { unfold duplicated, duplicateSelectedShape. rewrite Hsel, Hfind.
    reflexivity. }
  rewrite E. cbn [present pushToHistory shapes selectedShapeId set_selection].
  repeat match goal with |- _ /\ _ => split end; try reflexivity.
  - apply Forall_app. split.
    + apply Forall_map. apply Forall_forall. intros t _. reflexivity.
    + constructor; [reflexivity | constructor].
  - apply undo_after_pushToHistory.
  - apply undo_after_pushToHistory.
  - apply undo_after_pushToHistory.
  - intros Hfresh. split.
    { apply find_some in Hfind as [Hin _].
      exact (proj1 (Forall_forall _ _) Hfresh s Hin). }
    rewrite filter_app. cbn [filter duplicateOf id base].
    rewrite String.eqb_refl.
    replace (filter (fun t : Shape => String.eqb (id t) newId)
               (map (set_selected (Some false)) (shapes (present h))))
      with (@nil Shape); [reflexivity |].
    symmetry. clear Hfind E.
    induction Hfresh as [| t l Ht _ IH]; [reflexivity |].
    cbn [map filter set_selected id base].
    destruct (String.eqb_spec (id t) newId); [contradiction | exact IH].
  - intros (t & Hin & Hid). rewrite filter_app, length_app.
    cbn [filter duplicateOf id base]. rewrite String.eqb_refl.
    assert (Hf : In (set_selected (Some false) t)
                   (filter (fun t : Shape => String.eqb (id t) newId)
                      (map (set_selected (Some false))
                         (shapes (present h))))).
    { apply filter_In. split; [now apply in_map |].
      cbn. rewrite Hid. apply String.eqb_refl. }
    destruct (filter (fun t : Shape => String.eqb (id t) newId)
                (map (set_selected (Some false)) (shapes (present h))))
      as [| u r]; [destruct Hf |].
    cbn [length]. lia.
Qed.

Lemma duplicate_selected_shape_witness :
  shapes (present (duplicated sampleSelectedHistory "d1"))
  = map (set_selected (Some false)) (shapes sampleSelected)
    ++ [duplicateOf (set_selected (Some true) sampleRect) "d1"]
  /\ filter (fun t : Shape => String.eqb (id t) "d1")
       (shapes (present (duplicated sampleSelectedHistory "d1")))
     = [duplicateOf (set_selected (Some true) sampleRect) "d1"].
Proof.
  destruct (duplicate_selected_shape sampleSelectedHistory "d1"
              (set_selected (Some true) sampleRect) eq_refl eq_refl)
    as (H1 & _ & _ & _ & _ & _ & _ & _ & _ & _ & Hfresh & _).
  split; [exact H1 |].
  apply Hfresh. repeat constructor. discriminate.
Defined.

(** C7 as the specification words it fails: after duplicating the
    selected sample rectangle the copy is the selection by id, yet its
    [selected] flag is [false], and no shape has [selected = true].
    Nor is the id of the copy fresh by construction: when the draw is
    the id of the original, the two shapes of the document carry the
    same id. *)
Lemma duplicate_copy_not_flagged_counterexample :
  selectedShapeId sampleSelected = Some "r1"%string
  /\ selectedShapeId (present (duplicated sampleSelectedHistory "d1"))
     = Some "d1"%string
  /\ map (fun t : Shape => (id t, selected t))
       (shapes (present (duplicated sampleSelectedHistory "d1")))
     = [("r1"%string, Some false); ("d1"%string, Some false)]
  /\ ~ (exists t : Shape,
          In t (shapes (present (duplicated sampleSelectedHistory "d1")))
          /\ selected t = Some true)
  /\ map (fun t : Shape => id t)
       (shapes (present (duplicated sampleSelectedHistory "r1")))
     = ["r1"%string; "r1"%string].
Proof.
  repeat match goal with |- _ /\ _ => split end; try reflexivity.
  intros (t & Hin & Ht). cbn in Hin.
  destruct Hin as [<- | [<- | []]]; discriminate Ht.
Qed.

(* ================================================================== *)
(** * Text confirmation *)
(* ================================================================== *)

Lemma trimStart_empty (s : jsstring) :
  trimStart s = [] <-> forallb isWhiteSpace s = true.
Proof.
  induction s as [| c s IH]; cbn; [tauto |].
  destruct (isWhiteSpace c); cbn; [exact IH |].
  split; discriminate.
Qed.

(** What [trimStart] leaves does not start with white space. *)
Lemma trimStart_head (s : jsstring) (c : N) (r : jsstring) :
  trimStart s = c :: r -> isWhiteSpace c = false.
Proof.
  induction s as [| d s IH]; cbn; [discriminate |].
  destruct (isWhiteSpace d) eqn:E; [exact IH |].
  intros [= -> _]. exact E.
Qed.

Lemma forallb_rev {A : Type} (f : A -> bool) (l : list A) :
  forallb f (rev l) = forallb f l.
Proof.
  induction l as [| a l IH]; [reflexivity |].
  cbn. rewrite forallb_app, IH. cbn. rewrite andb_true_r. apply andb_comm.
Qed.

(** The trimmed text is empty exactly for the empty and the
    white-space-only texts. *)
Lemma trim_empty (s : jsstring) :
  trim s = [] <-> forallb isWhiteSpace s = true.
Proof.
  unfold trim, trimEnd. split.
  - intros H. apply (f_equal (@rev _)) in H. rewrite rev_involutive in H.
    cbn in H. apply trimStart_empty in H. rewrite forallb_rev in H.
    destruct (trimStart s) as [| c r] eqn:E.
    + now apply trimStart_empty.
    + apply trimStart_head in E. cbn in H. rewrite E in H. discriminate H.
  - intros H. apply trimStart_empty in H. rewrite H. reflexivity.
Qed.

Lemma fold_Qmax_ge_init (l : list Q) :
  forall a : Q, a <= fold_left Qmax l a.
Proof.
  induction l as [| c l IH]; intros a; cbn; [apply Qle_refl |].
  apply Qle_trans with (Qmax a c); [apply Q.le_max_l | apply IH].
Qed.

Lemma fold_Qmax_ge_elem (l : list Q) :
  forall a q : Q, In q l -> q <= fold_left Qmax l a.
Proof.
  induction l as [| c l IH]; intros a q Hin; [destruct Hin |].
  cbn. destruct Hin as [-> | Hin].
  - apply Qle_trans with (Qmax a q); [apply Q.le_max_r |].
    apply fold_Qmax_ge_init.
  - now apply IH.
Qed.

Lemma Math_max_ge (l : list Q) (q : Q) : In q l -> q <= Math_max l.
Proof.
  destruct l as [| a l]; [intros [] |].
  intros [-> | Hin]; [apply fold_Qmax_ge_init | now apply fold_Qmax_ge_elem].
Qed.

Lemma or_zero_Some (q : Q) : or_zero (Some q) == q.
Proof.
  cbn. destruct (Qeq_bool q 0) eqn:E; [| reflexivity].
  apply Qeq_bool_iff in E. now rewrite E.
Qed.

(** [zIndex || 0] is the stored [zIndex], 0 for a shape without one: a
    stored 0 is falsy and is replaced by 0. *)
Lemma or_zero_stored (s : Shape) : or_zero (zIndex s) == storedZIndex s.
Proof.
  unfold storedZIndex. destruct (zIndex s) as [q |];
    [apply or_zero_Some | reflexivity].
Qed.

Lemma fold_Qmax_map_proper (f g : Shape -> Q) (l : list Shape) :
  (forall s : Shape, f s == g s) ->
  forall a a' : Q,
    a == a' ->
    fold_left Qmax (map f l) a == fold_left Qmax (map g l) a'.
Proof.
  intros Hfg. induction l as [| c l IH]; intros a a' E; cbn; [exact E |].
  apply IH. now rewrite E, (Hfg c).
Qed.

Lemma fold_Qmax_attained (l : list Q) :
  forall a : Q,
    fold_left Qmax l a == a
    \/ exists q : Q, In q l /\ fold_left Qmax l a == q.
Proof.
  induction l as [| c l IH]; intros a; cbn; [left; reflexivity |].
  destruct (IH (Qmax a c)) as [E | (q & Hin & E)].
  - destruct (Q.max_dec a c) as [M | M].
    + left. now rewrite E.
    + right. exists c. split; [now left | now rewrite E].
  - right. exists q. split; [now right | exact E].
Qed.

Lemma nextZIndex_maxZIndex (l : list Shape) :
  nextZIndex l == 1 + maxZIndex l.
Proof.
  destruct l as [| s l]; [reflexivity |].
  unfold nextZIndex, maxZIndex, Math_max.
  cbn [length Nat.ltb Nat.leb map].
  rewrite (fold_Qmax_map_proper (fun s : Shape => or_zero (zIndex s))
             storedZIndex l or_zero_stored _ (storedZIndex s))
    by apply or_zero_stored.
  ring.
Qed.

Lemma maxZIndex_ge (l : list Shape) (s : Shape) :
  In s l -> storedZIndex s <= maxZIndex l.
Proof.
  destruct l as [| t l]; [intros [] |]. unfold maxZIndex.
  intros [<- | Hin]; [apply fold_Qmax_ge_init |].
  apply fold_Qmax_ge_elem. now apply in_map.
Qed.

Lemma maxZIndex_attained (l : list Shape) :
  l <> [] -> exists s : Shape, In s l /\ maxZIndex l == storedZIndex s.
Proof.
  destruct l as [| t l]; [congruence |]. intros _. unfold maxZIndex.
  destruct (fold_Qmax_attained (map storedZIndex l) (storedZIndex t))
    as [E | (q & Hin & E)].
  - exists t. split; [now left | exact E].
  - apply in_map_iff in Hin as (s & <- & Hin).
    exists s. split; [now right | exact E].
Qed.

Lemma nextZIndex_above (l : list Shape) (s : Shape) :
  In s l -> storedZIndex s < nextZIndex l.
Proof.
  intros Hin. pose proof (maxZIndex_ge l s Hin).
  pose proof (nextZIndex_maxZIndex l). lra.
Qed.

(** C8.  Confirming a text whose trimmed form is not empty commits the
    document with exactly one shape appended: a text shape at the pending
    anchor, of width [length * fontSize * 0.6] and height [fontSize],
    whose [zIndex] is one more than the greatest [zIndex] stored in the
    document (a shape that stores none counting as 0; -1 for an empty
    document).  So the new [zIndex] is 0 on an empty document, is one
    more than the stored [zIndex] of some shape otherwise, and is
    greater than the [zIndex] every existing shape stores, and than 0
    when a shape stores none.  Confirming an empty or white-space-only
    text leaves the history, and with it the shape list, as it was. *)
Theorem text_confirmation :
  forall (host : Host) (a : AppState)
         (content : jsstring) (newId : string),
    (trim content <> [] ->
     exists (t : Shape) (z : Q),
       shapes (present
                 (history (step host (TextSubmit content newId) a)))
       = shapes (present (history a)) ++ [t]
       /\ variant t
          = TextShape content (cs_fontSize (present (history a)))
              (cs_fontFamily (present (history a)))
       /\ id t = newId
       /\ x t = ti_x (textInput (ui a))
       /\ y t = ti_y (textInput (ui a))
       /\ width t
          = inject_Z (Z.of_nat (length content))
            * cs_fontSize (present (history a)) * (6 # 10)
       /\ height t = cs_fontSize (present (history a))
       /\ zIndex t = Some z
       /\ z == 1 + maxZIndex (shapes (present (history a)))
       /\ (forall s : Shape,
             In s (shapes (present (history a))) -> storedZIndex s < z)
       /\ history (step host (TextSubmit content newId) a)
          = pushToHistory
              (set_shapes (shapes (present (history a)) ++ [t])
                 (present (history a)))
              (history a)
       /\ (forall (s : Shape) (q : Q),
             In s (shapes (present (history a))) ->
             zIndex s = Some q -> q < z)
       /\ (forall s : Shape,
             In s (shapes (present (history a))) ->
             zIndex s = None -> 0 < z)
       /\ (shapes (present (history a)) = [] -> z == 0)
       /\ (shapes (present (history a)) <> [] ->
           exists s : Shape,
             In s (shapes (present (history a)))
             /\ z == storedZIndex s + 1))
    /\ (forallb isWhiteSpace content = true ->
        history (step host (TextSubmit content newId) a) = history a
        /\ shapes (present
                     (history (step host (TextSubmit content newId) a)))
           = shapes (present (history a))).
Proof.
  intros host a content newId. split.
  - intros Hne. unfold step, handleTextSubmit.
    destruct (trim content) as [| c r] eqn:E; [congruence |].
    cbn [truthy_text fst snd history].
    eexists. exists (nextZIndex (shapes (present (history a)))).
    split; [reflexivity |]. cbn.
    repeat match goal with |- _ /\ _ => split end; try reflexivity.
    + apply nextZIndex_maxZIndex.
    + intros s Hin. now apply nextZIndex_above.
    + intros s q Hin Hq. pose proof (nextZIndex_above _ s Hin) as H.
      unfold storedZIndex in H. now rewrite Hq in H.
    + intros s Hin Hq. pose proof (nextZIndex_above _ s Hin) as H.
      unfold storedZIndex in H. now rewrite Hq in H.
    + intros El. rewrite El. reflexivity.
    + intros Hne'. destruct (maxZIndex_attained _ Hne') as (s & Hin & Em).
      exists s. split; [exact Hin |].
      rewrite nextZIndex_maxZIndex, Em. ring.
  - intros Hws. apply trim_empty in Hws.
    unfold step, handleTextSubmit. rewrite Hws. split; reflexivity.
Qed.

Lemma text_confirmation_witness :
  trim sampleText <> []
  /\ exists (t : Shape) (z : Q),
       shapes (present
                 (history (step sampleHost
                             (TextSubmit sampleText "t1") sampleTextOverApp)))
       = shapes (present (history sampleTextOverApp)) ++ [t]
       /\ width t == 96 # 5
       /\ zIndex t = Some z
       /\ z == 4
       /\ zIndex sampleRect2 = Some 3.
Proof.
  assert (Hne : trim sampleText <> []) by discriminate.
  split; [exact Hne |].
  destruct (proj1 (text_confirmation sampleHost sampleTextOverApp
                     sampleText "t1") Hne)
    as (t & z & Hs & _ & _ & _ & _ & Hw & _ & Hz & Hm & _).
  exists t, z. split; [exact Hs |].
  split; [rewrite Hw; reflexivity |].
  split; [exact Hz |].
  split; [rewrite Hm; reflexivity | reflexivity].
Defined.

(* ================================================================== *)
(** * JSON import *)
(* ================================================================== *)

Lemma assign_absent (k : string) (v : JSValue) (l : list (string * JSValue)) :
  lookup k l = None -> assign k v l = l ++ [(k, v)].
Proof.
  induction l as [| [k' v'] l IH]; cbn; [reflexivity |].
  destruct (String.eqb k k'); [discriminate |].
  intros H. now rewrite IH.
Qed.

Lemma lookup_assign (k : string) (v : JSValue) (l : list (string * JSValue)) :
  lookup k (assign k v l) = Some v.
Proof.
  induction l as [| [k' v'] l IH]; cbn.
  - now rewrite String.eqb_refl.
  - destruct (String.eqb k k') eqn:E; cbn; rewrite E; [reflexivity | exact IH].
Qed.

(** Whatever the import resolves with has a truthy [viewport]. *)
Lemma import_resolves_with_viewport (file : FileOutcome) (st : JSValue) :
  importFromJSON file = Resolve st ->
  exists vp : JSValue,
    get_viewport st = Normal (Some vp) /\ truthy vp = true.
Proof.
  destruct file as [| [v |]]; cbn; try discriminate.
  destruct v as [| b | q | s | items own | own]; cbn; try discriminate.
  - destruct (lookup "viewport" own) as [vp |] eqn:E; cbn.
    + destruct (truthy vp) eqn:T; cbn; intros [= <-]; cbn.
      * exists vp. now rewrite E.
      * exists defaultViewport. now rewrite lookup_assign.
    + intros [= <-]. cbn. exists defaultViewport. now rewrite lookup_assign.
  - destruct (lookup "viewport" own) as [vp |] eqn:E; cbn.
    + destruct (truthy vp) eqn:T; cbn; intros [= <-]; cbn.
      * exists vp. now rewrite E.
      * exists defaultViewport. now rewrite lookup_assign.
    + intros [= <-]. cbn. exists defaultViewport. now rewrite lookup_assign.
Qed.

(** C9, as the code has it.  A parsed object without a [viewport] key
    resolves with the default viewport added; a text that [JSON.parse]
    rejects fails the import with the error "Invalid JSON file" and no
    state.  Besides these: a [viewport] that is present but falsy
    ([null], [false], [0], the empty string) is replaced by the default
    as well; a value that is not an object ([null], a boolean, a number,
    a string) fails the import with the same error although its text is
    valid JSON; an object with a truthy [viewport] is passed through as
    it is, whatever else it holds. *)
Theorem import_from_json :
  (forall own : list (string * JSValue),
     lookup "viewport" own = None ->
     importFromJSON (Loaded (Some (JSObject own)))
     = Resolve (JSObject (own ++ [("viewport"%string, defaultViewport)])))
  /\ importFromJSON (Loaded None) = Reject "Invalid JSON file"
  /\ (forall (own : list (string * JSValue)) (vp : JSValue),
        lookup "viewport" own = Some vp -> truthy vp = false ->
        importFromJSON (Loaded (Some (JSObject own)))
        = Resolve (JSObject (assign "viewport" defaultViewport own))
        /\ lookup "viewport" (assign "viewport" defaultViewport own)
           = Some defaultViewport)
  /\ (forall (own : list (string * JSValue)) (vp : JSValue),
        lookup "viewport" own = Some vp -> truthy vp = true ->
        importFromJSON (Loaded (Some (JSObject own)))
        = Resolve (JSObject own))
  /\ (forall v : JSValue,
        is_object v = false ->
        importFromJSON (Loaded (Some v)) = Reject "Invalid JSON file").
Proof.
  repeat match goal with |- _ /\ _ => split end.
  - intros own H. cbn. rewrite H. cbn. now rewrite assign_absent.
  - reflexivity.
  - intros own vp H T. split; [| apply lookup_assign].
    cbn. rewrite H. cbn. now rewrite T.
  - intros own vp H T. cbn. rewrite H. cbn. now rewrite T.
  - intros v H. destruct v; try discriminate H; reflexivity.
Qed.

Lemma import_from_json_witness :
  lookup "viewport"
    [("shapes", JSArray [] []); ("currentTool", JSString "pen")]%string = None
  /\ importFromJSON (Loaded (Some sampleNoViewport))
     = Resolve
         (JSObject
            [("shapes", JSArray [] []); ("currentTool", JSString "pen");
             ("viewport", defaultViewport)]%string).
Proof.
  split; [reflexivity |].
  apply (proj1 import_from_json). reflexivity.
Defined.

(** C9 as the specification words it fails: a document whose [viewport]
    is [null] has the key, yet it is not passed through (the default
    replaces the [null]); and the valid JSON text [null] fails the
    import. *)
Lemma import_null_viewport_counterexample :
  has_viewport_key sampleNullViewport = true
  /\ importFromJSON (Loaded (Some sampleNullViewport))
     = Resolve
         (JSObject
            [("shapes", JSArray [] []); ("viewport", defaultViewport)]%string)
  /\ importFromJSON (Loaded (Some sampleNullViewport))
     <> Resolve sampleNullViewport
  /\ importFromJSON (Loaded (Some JSNull)) = Reject "Invalid JSON file".
Proof.
  repeat match goal with |- _ /\ _ => split end; try reflexivity.
  discriminate.
Qed.

(* ================================================================== *)
(** * Reachable histories *)
(* ================================================================== *)

Lemma replacePresent_same (h : HistoryState) :
  replacePresent (present h) h = h.
Proof. now destruct h. Qed.

(** On an empty past the Undo command changes nothing, and likewise the
    Redo command on an empty future. *)
Lemma undoAction_empty (h : HistoryState) :
  canUndo h = false -> undoAction h = h.
Proof.
  intros Hc. unfold undoAction. rewrite undo_empty by exact Hc.
  apply replacePresent_same.
Qed.

Lemma redoAction_empty (h : HistoryState) :
  canRedo h = false -> redoAction h = h.
Proof.
  intros Hc. unfold redoAction. rewrite redo_empty by exact Hc.
  apply replacePresent_same.
Qed.

(** A replacement queued after another overrides it. *)
Lemma replacePresent_twice (s1 s2 : CanvasState) (h : HistoryState) :
  replacePresent s2 (replacePresent s1 h) = replacePresent s2 h.
Proof. reflexivity. Qed.

Lemma zoom_ok_clamp (c : CanvasState) (v : Q) :
  zoom (viewport c) = clamp v (1 # 10) 5 -> zoom_ok c.
Proof.
  intros E. unfold zoom_ok. rewrite E. apply clamp_range. discriminate.
Qed.

(** Closes the side condition of [op_commit] and [op_replace]: the new
    snapshot keeps the viewport's zoom, or takes a clamped one. *)
Ltac keeps_zoom :=
  intros Hz;
  first [ exact Hz
        | eapply zoom_ok_clamp; reflexivity ].

Ltac one_op := constructor; keeps_zoom.

Lemma mouseDown_history_op (host : Host) (a : AppState) (e : MouseEvent)
    (newId : string) :
  history_op (fun s => zoom_ok (present (history a)) -> zoom_ok s)
    (history a)
    (snd (handleMouseDown HistoryState host (present (history a))
            updateCanvasState e newId (ui a) (history a))).
Proof.
  unfold handleMouseDown.
  repeat match goal with
         | |- context [if ?c then _ else _] => destruct c
         | |- context [match ?c with _ => _ end] => destruct c
         end; cbn [snd]; one_op.
Qed.

Lemma mouseMove_history_op (host : Host) (a : AppState) (e : MouseEvent) :
  history_op (fun s => zoom_ok (present (history a)) -> zoom_ok s)
    (history a)
    (snd (handleMouseMove HistoryState host (present (history a))
            updateCanvasState (panViewport (present (history a)))
            e (ui a) (history a))).
Proof.
  unfold handleMouseMove, panViewport, setViewport.
  repeat match goal with
         | |- context [match ?c with _ => _ end] => destruct c
         end; cbn [snd]; one_op.
Qed.

Lemma mouseUp_history_op (a : AppState) :
  history_op (fun s => zoom_ok (present (history a)) -> zoom_ok s)
    (history a)
    (snd (handleMouseUp HistoryState (present (history a))
            updateCanvasState (ui a) (history a))).
Proof.
  unfold handleMouseUp.
  destruct (isDrawing (ui a)), (currentShape (ui a)); cbn [snd]; one_op.
Qed.

Lemma history_op_weaken (P R : CanvasState -> Prop) (h h' : HistoryState) :
  (forall s : CanvasState, P s -> R s) ->
  history_op P h h' -> history_op R h h'.
Proof.
  intros HPR [| s Hs | s Hs | |]; constructor; now apply HPR.
Qed.

(** Every event of the application acts on the history through one of
    the five operations, and the snapshot it brings in, if any, has the
    zoom of the present or a clamped zoom, an imported document
    excepted. *)
Lemma step_history_op (host : Host) (ev : Event) (a : AppState) :
  history_op
    (fun s => event_zoom_ok ev -> zoom_ok (present (history a)) -> zoom_ok s)
    (history a) (history (step host ev a)).
Proof.
  destruct ev as [e newId | e | | e | touches | touches | touches
                 | content newId | | | | | | | | tool
                 | color | color | w | r | fs | | | | imported];
    unfold step; cbn [history].
  1-24: apply (history_op_weaken
                 (fun s => zoom_ok (present (history a)) -> zoom_ok s));
    [intros s Hs _; exact Hs |].
  - apply mouseDown_history_op.
  - apply mouseMove_history_op.
  - apply mouseUp_history_op.
  - unfold handleWheel, zoomViewport, panViewport, setViewport.
    destruct (wheel_ctrlKey e); one_op.
  - unfold handleTouchStart.
    destruct touches as [| t1 [| t2 [| t3 r]]]; cbn [snd]; one_op.
  - unfold handleTouchMove.
    destruct touches as [| t1 [| t2 [| t3 r]]]; cbn [snd];
      try one_op.
    + destruct (isPanning (ui a)); cbn [negb snd];
        [one_op | apply mouseMove_history_op].
    + unfold zoomViewport, panViewport, setViewport.
      destruct (truthy_num (lastTouchDistance (ui a))),
        (lastTouchDistance (ui a)), (panStart (ui a));
        try (cbn [snd]; one_op).
      destruct (Qgt_bool _ (1 # 100)), (Qgt_bool _ 2 || Qgt_bool _ 2)%bool;
        cbn [snd]; rewrite ?replacePresent_twice; one_op.
  - unfold handleTouchEnd.
    destruct touches as [| t1 [| t2 r]]; cbn [snd]; try one_op.
    pose proof (mouseUp_history_op a) as H.
    destruct (handleMouseUp _ _ _ _ _). exact H.
  - unfold handleTextSubmit.
    destruct (truthy_text (trim content)); cbn [snd]; one_op.
  - one_op.
  - one_op.
  - one_op.
  - unfold handleZoomIn, zoomViewport, setViewport. one_op.
  - unfold handleZoomOut, zoomViewport, setViewport. one_op.
  - unfold handleZoomReset, zoomViewport, setViewport. one_op.
  - unfold handleDeleteKey, updateCanvasState.
    destruct (truthy_id _); one_op.
  - unfold setCurrentTool. one_op.
  - unfold setStrokeColor. one_op.
  - unfold setFillColor. one_op.
  - unfold setStrokeWidth. one_op.
  - unfold setRoughness. one_op.
  - unfold setFontSize. one_op.
  - unfold clearCanvas. one_op.
  - unfold bringForward. destruct (truthy_id _); one_op.
  - unfold sendBackward. destruct (truthy_id _); one_op.
  - unfold handleFileChange, updateCanvasState. constructor.
    intros Hi _. exact Hi.
Qed.

Lemma undoAction_capacity (h : HistoryState) :
  within_capacity h -> within_capacity (undoAction h).
Proof.
  unfold within_capacity, undoAction, undo. intros Hc.
  destruct (canUndo h) eqn:E; cbn [negb replacePresent past future].
  - apply canUndo_nonempty in E.
    destruct (exists_last E) as (p & c & Ep). rewrite Ep in *.
    rewrite removelast_last. rewrite length_app in Hc. cbn in *. lia.
  - exact Hc.
Qed.

Lemma redoAction_capacity (h : HistoryState) :
  within_capacity h -> within_capacity (redoAction h).
Proof.
  unfold within_capacity, redoAction, redo. intros Hc.
  destruct (canRedo h) eqn:E; cbn [negb replacePresent past future].
  - apply canRedo_nonempty in E.
    destruct (future h) as [| c f]; [congruence |].
    rewrite length_app. cbn in *. lia.
  - exact Hc.
Qed.

Lemma history_op_capacity (P : CanvasState -> Prop) (h h' : HistoryState) :
  history_op P h h' -> within_capacity h -> within_capacity h'.
Proof.
  intros [| s _ | s _ | |] Hc.
  - exact Hc.
  - unfold within_capacity in *. rewrite pushToHistory_future. cbn [length].
    rewrite Nat.add_0_r. apply pushToHistory_bound. lia.
  - exact Hc.
  - now apply undoAction_capacity.
  - now apply redoAction_capacity.
Qed.

(** In every state the application reaches from a fresh history, by
    whatever events, the past holds at most 50 snapshots: a redo refills
    it only with what an undo took out. *)
Lemma reachable_past_bound (host : Host)
    (evs : list Event) :
  forall a : AppState,
    within_capacity (history a) ->
    within_capacity (history (run host evs a))
    /\ (length (past (history (run host evs a)))
        <= MAX_HISTORY_SIZE)%nat.
Proof.
  induction evs as [| ev evs IH]; intros a Hc.
  - split; [exact Hc | unfold within_capacity in Hc; cbn; lia].
  - rewrite run_cons. apply IH.
    eapply history_op_capacity; [apply step_history_op | exact Hc].
Qed.

Lemma Forall_tl {A : Type} (P : A -> Prop) (l : list A) :
  Forall P l -> Forall P (tl l).
Proof. intros H. destruct H; [constructor | assumption]. Qed.

Lemma pushToHistory_zoom_ok (s : CanvasState) (h : HistoryState) :
  history_zoom_ok h -> zoom_ok s -> history_zoom_ok (pushToHistory s h).
Proof.
  intros (Hp & Hc & Hf) Hs. unfold history_zoom_ok, pushToHistory.
  cbn [past present future].
  assert (Hn : Forall zoom_ok (past h ++ [present h])).
  { apply Forall_app. split; [exact Hp | now constructor]. }
  split; [| split; [exact Hs | constructor]].
  destruct (MAX_HISTORY_SIZE <? _)%nat; [now apply Forall_tl | exact Hn].
Qed.

Lemma undoAction_zoom_ok (h : HistoryState) :
  history_zoom_ok h -> history_zoom_ok (undoAction h).
Proof.
  intros (Hp & Hc & Hf). unfold history_zoom_ok, undoAction, undo.
  destruct (canUndo h) eqn:E; cbn [negb replacePresent past present future].
  - apply canUndo_nonempty in E.
    destruct (exists_last E) as (p & c & Ep). rewrite Ep in *.
    rewrite removelast_last, last_last.
    apply Forall_app in Hp as [Hp Hl]. inversion Hl; subst.
    split; [exact Hp | split; [assumption | now constructor]].
  - split; [exact Hp | split; [exact Hc | exact Hf]].
Qed.

Lemma redoAction_zoom_ok (h : HistoryState) :
  history_zoom_ok h -> history_zoom_ok (redoAction h).
Proof.
  intros (Hp & Hc & Hf). unfold history_zoom_ok, redoAction, redo.
  destruct (canRedo h) eqn:E; cbn [negb replacePresent past present future].
  - apply canRedo_nonempty in E.
    destruct (future h) as [| c f]; [congruence |].
    inversion Hf; subst. cbn [hd tl].
    split; [| split; assumption].
    apply Forall_app. split; [exact Hp | now constructor].
  - split; [exact Hp | split; [exact Hc | exact Hf]].
Qed.

Lemma history_op_zoom_ok (E : Prop) (h h' : HistoryState) :
  E ->
  history_op (fun s => E -> zoom_ok (present h) -> zoom_ok s) h h' ->
  history_zoom_ok h -> history_zoom_ok h'.
Proof.
  intros He [| s Hs | s Hs | |] Hz.
  - exact Hz.
  - apply pushToHistory_zoom_ok; [exact Hz | apply (Hs He), Hz].
  - destruct Hz as (Hp & Hc & Hf).
    split; [exact Hp | split; [now apply Hs | exact Hf]].
  - now apply undoAction_zoom_ok.
  - now apply redoAction_zoom_ok.
Qed.

(** In every state the application reaches by its events from a history
    whose snapshots have a zoom in [0.1, 5], every snapshot of the
    history has, as long as no document with another zoom is imported. *)
Lemma reachable_zoom_ok (host : Host) (evs : list Event) :
  Forall event_zoom_ok evs ->
  forall a : AppState,
    history_zoom_ok (history a) ->
    history_zoom_ok (history (run host evs a)).
Proof.
  induction 1 as [| ev evs Hev _ IH]; intros a Hz; [exact Hz |].
  rewrite run_cons. apply IH.
  apply (history_op_zoom_ok (event_zoom_ok ev) (history a));
    [exact Hev | apply step_history_op | exact Hz].
Qed.

Lemma fresh_app_zoom_ok (host : Host) (evs : list Event) :
  Forall event_zoom_ok evs ->
  zoom_ok
    (present
       (history (run host evs (mkApp (useHistory initialCanvasState) initialUI)))).
Proof.
  intros Hev. apply (reachable_zoom_ok host evs Hev).
  split; [constructor | split; [| constructor]].
  split; discriminate.
Qed.





(* ================================================================== *)
(** * Worked scenarios *)
(* ================================================================== *)

(** Drawing a rectangle from (10,10) to (110,60) on the empty document
    yields one rectangle of that box, and the drawing can be undone. *)
Example scenario_draw_rectangle :
  exists s : Shape,
    shapes
      (present
         (history
            (run sampleHost
               [MouseDown sampleDrawDown "s1"; MouseMove sampleDrawMove;
                MouseUp]
               sampleEmptyApp)))
    = [s]
    /\ variant s = RectangleShape
    /\ x s == 10 /\ y s == 10 /\ width s == 100 /\ height s == 50
    /\ canUndo
         (history
            (run sampleHost
               [MouseDown sampleDrawDown "s1"; MouseMove sampleDrawMove;
                MouseUp]
               sampleEmptyApp))
       = true.
Proof.
  eexists. split; [vm_compute; reflexivity |].
  repeat split; reflexivity.
Qed.

(** Dragging the sample rectangle over two samples of (+5,+5) each moves
    it by (+10,+10), the deltas of the samples adding up. *)
Example scenario_drag_twice :
  exists s : Shape,
    shapes
      (present
         (history
            (run sampleHost
               (dragGesture sampleDown [sampleMove1; sampleMove2])
               sampleApp)))
    = [s]
    /\ x s == 20 /\ y s == 20 /\ width s = 100 /\ height s = 50.
Proof.
  eexists. split; [vm_compute; reflexivity |].
  repeat split; reflexivity.
Qed.

(* ================================================================== *)
(* ================================================================== *)
(** * Part III: further properties of the code *)
(* ================================================================== *)
(* ================================================================== *)

(* ================================================================== *)
(** * More on the history *)
(* ================================================================== *)

(** X1.  From the hook's initial state, whatever events the application
    handles afterwards (undo and redo included, which move snapshots
    between past and future without a size check of their own), past
    and future together never hold more than 50 snapshots. *)
Theorem history_capacity_reachable :
  forall (host : Host) (evs : list Event) (c : CanvasState) (u : CanvasUI),
    (length (past (history (run host evs (mkApp (useHistory c) u))))
     + length (future (history (run host evs (mkApp (useHistory c) u))))
     <= 50)%nat.
Proof.
  intros host evs c u.
  apply (reachable_past_bound host evs (mkApp (useHistory c) u)).
  unfold within_capacity. cbn. lia.
Qed.

Lemma undoAction_after_redoAction (h : HistoryState) :
  canRedo h = true -> undoAction (redoAction h) = h.
Proof.
  intros Hc. apply canRedo_nonempty in Hc.
  destruct h as [p c f]. cbn [future] in Hc.
  destruct f as [| n f]; [congruence |].
  assert (E : redoAction (mkHistory p c (n :: f)) = mkHistory (p ++ [c]) n f)
    by reflexivity.
  rewrite E. unfold undoAction.
  rewrite undo_step by (apply canUndo_nonempty; cbn; now destruct p).
  cbn [replacePresent past present future].
  now rewrite last_last, removelast_last.
Qed.

(** X2.  With a non-empty future, Redo followed by Undo gives back the
    history as it was: past, present and future. *)
Theorem redo_undo_roundtrip :
  forall h : HistoryState,
    canRedo h = true ->
    undoAction (redoAction h) = h
    /\ canUndo (redoAction h) = true.
Proof.
  intros h Hc. split; [now apply undoAction_after_redoAction |].
  unfold redoAction, redo. rewrite Hc. cbn [negb replacePresent].
  apply canUndo_nonempty. cbn [past]. now destruct (past h).
Qed.

Lemma redo_undo_roundtrip_witness :
  canRedo sampleTimeline = true
  /\ undoAction (redoAction sampleTimeline) = sampleTimeline.
Proof.
  split; [reflexivity |].
  apply (redo_undo_roundtrip sampleTimeline). reflexivity.
Defined.

Lemma undoAction_pushToHistory (s : CanvasState) (h : HistoryState) :
  undoAction (pushToHistory s h)
  = mkHistory
      (if (length (past h) <? MAX_HISTORY_SIZE)%nat then past h
       else tl (past h))
      (present h) [s].
Proof.
  unfold undoAction.
  destruct (undo_after_pushToHistory s h) as (Hc & _ & _).
  rewrite undo_step by exact Hc. cbn [replacePresent past present future].
  destruct (Nat.ltb_spec (length (past h)) MAX_HISTORY_SIZE) as [Hlt | Hge].
  - rewrite pushToHistory_past_below by exact Hlt.
    now rewrite last_last, removelast_last.
  - rewrite pushToHistory_past_full by exact Hge.
    now rewrite last_last, removelast_last.
Qed.

(** X3.  Undo after a commit restores the present and, when the past was
    below 50 entries, the whole past; on a full past the oldest entry is
    gone for good.  The committed snapshot is then the only redo entry
    (what could be redone before the commit is lost), Redo brings it
    back, and straight after a commit Redo does nothing. *)
Theorem commit_then_undo :
  forall (s : CanvasState) (h : HistoryState),
    ((length (past h) < 50)%nat ->
     undoAction (pushToHistory s h) = mkHistory (past h) (present h) [s])
    /\ ((50 <= length (past h))%nat ->
        undoAction (pushToHistory s h)
        = mkHistory (tl (past h)) (present h) [s])
    /\ redoAction (undoAction (pushToHistory s h)) = pushToHistory s h
    /\ redoAction (pushToHistory s h) = pushToHistory s h.
Proof.
  intros s h. rewrite undoAction_pushToHistory.
  repeat match goal with |- _ /\ _ => split end.
  - intros Hlt. apply Nat.ltb_lt in Hlt.
    unfold MAX_HISTORY_SIZE. now rewrite Hlt.
  - intros Hge. apply Nat.ltb_ge in Hge.
    unfold MAX_HISTORY_SIZE. now rewrite Hge.
  - rewrite <- undoAction_pushToHistory.
    apply redoAction_after_undoAction, undo_after_pushToHistory.
  - apply redoAction_empty. reflexivity.
Qed.

Lemma commit_then_undo_witness :
  (length (past sampleTimeline) < 50)%nat
  /\ undoAction (pushToHistory sampleView sampleTimeline)
     = mkHistory (past sampleTimeline) (present sampleTimeline) [sampleView].
Proof.
  assert (H : (length (past sampleTimeline) < 50)%nat) by (cbn; lia).
  split; [exact H |].
  exact (proj1 (commit_then_undo sampleView sampleTimeline) H).
Defined.

(** As many undos as the past has entries at its end. *)
Lemma undo_many (B : list CanvasState) :
  forall (A : list CanvasState) (p : CanvasState) (f : list CanvasState),
    B <> [] ->
    Nat.iter (length B) undoAction (mkHistory (A ++ B) p f)
    = mkHistory A (hd p B) (tl B ++ p :: f).
Proof.
  induction B as [| c B' IH] using rev_ind; intros A p f Hne; [congruence |].
  rewrite length_app. cbn [length]. rewrite Nat.add_1_r, Nat.iter_succ_r.
  assert (E : undoAction (mkHistory (A ++ B' ++ [c]) p f)
              = mkHistory (A ++ B') c (p :: f)).
  { unfold undoAction.
    rewrite undo_step
      by (apply canUndo_nonempty; cbn; rewrite app_assoc;
          now destruct (A ++ B')).
    cbn [replacePresent past present future].
    now rewrite app_assoc, last_last, removelast_last. }
  rewrite E. destruct B' as [| b B'].
  - cbn. now rewrite app_nil_r.
  - rewrite IH by discriminate. cbn [hd tl app].
    now rewrite <- app_assoc.
Qed.

Lemma lastn_app_short {A : Type} (n : nat) (l r : list A) :
  (length r <= n)%nat -> lastn n (l ++ r) = lastn (n - length r) l ++ r.
Proof.
  intros Hle. unfold lastn. rewrite length_app, skipn_app.
  replace (length l + length r - n)%nat
    with (length l - (n - length r))%nat by lia.
  replace (length l - (n - length r) - length l)%nat with 0%nat by lia.
  reflexivity.
Qed.

Lemma undo_commits_snoc (h : HistoryState) (r : list CanvasState)
    (z : CanvasState) :
  (length (past h) <= MAX_HISTORY_SIZE)%nat ->
  (S (length r) <= MAX_HISTORY_SIZE)%nat ->
  Nat.iter (S (length r)) undoAction (commits (r ++ [z]) h)
  = mkHistory (lastn (MAX_HISTORY_SIZE - S (length r)) (past h))
      (present h) (r ++ [z]).
Proof.
  intros Hp Hl.
  assert (E : commits (r ++ [z]) h
              = mkHistory (past (commits (r ++ [z]) h)) z [])
    by (rewrite commits_snoc; reflexivity).
  rewrite commits_past in E by exact Hp.
  replace (removelast (present h :: r ++ [z])) with (present h :: r) in E
    by (rewrite app_comm_cons; symmetry; apply removelast_last).
  rewrite lastn_app_short in E by exact Hl.
  rewrite E.
  change (S (length r)) with (length (present h :: r)) at 1.
  rewrite undo_many by discriminate. reflexivity.
Qed.

(** X4.  After up to 50 commits on a history whose past is within the
    bound, as many undos lead back to the present from before the first
    commit; the committed snapshots then wait in the future, in order. *)
Theorem undo_all_commits :
  forall (h : HistoryState) (l : list CanvasState),
    (length (past h) <= 50)%nat ->
    (length l <= 50)%nat ->
    present (Nat.iter (length l) undoAction (commits l h)) = present h
    /\ (l <> [] ->
        future (Nat.iter (length l) undoAction (commits l h)) = l).
Proof.
  intros h l Hp Hl.
  destruct l as [| s l] using rev_ind; [split; [reflexivity | congruence] |].
  rewrite length_app in *. cbn [length] in *. rewrite Nat.add_1_r in *.
  rewrite undo_commits_snoc by assumption.
  split; [reflexivity | intros _; reflexivity].
Qed.

Lemma undo_all_commits_witness :
  present
    (Nat.iter 2 undoAction (commits [sampleSelected; sampleView] sampleHistory))
  = present sampleHistory.
Proof.
  refine (proj1
    (undo_all_commits sampleHistory [sampleSelected; sampleView] _ _));
    cbn; lia.
Defined.

(** X5.  Viewport, tool and style changes are never undo steps: the
    events that pan or zoom (wheel, pinch, keyboard, toolbar), switch
    the tool, set a style value or cancel a text leave past and future
    as they were; all of them but the tool switch also leave the shape
    list and the selection as they were, and the tool switch changes of
    the shapes only the [selected] flags. *)
Theorem replace_events_frame :
  forall (host : Host) (ev : Event) (a : AppState),
    replaceClass ev = true ->
    past (history (step host ev a)) = past (history a)
    /\ future (history (step host ev a)) = future (history a)
    /\ (isToolKey ev = false ->
        shapes (present (history (step host ev a)))
        = shapes (present (history a))
        /\ selectedShapeId (present (history (step host ev a)))
           = selectedShapeId (present (history a)))
    /\ (isToolKey ev = true ->
        shapes (present (history (step host ev a)))
        = map (set_selected (Some false)) (shapes (present (history a)))
        /\ selectedShapeId (present (history (step host ev a))) = None).
Proof.
  intros host ev a Hr.
  destruct ev as [e newId | e | | e | touches | touches | touches
                 | content newId | | | | | | | | tool
                 | color | color | w | r | fs | | | | imported];
    try discriminate Hr; unfold step; cbn [history].
  - unfold handleWheel, zoomViewport, panViewport, setViewport.
    destruct (wheel_ctrlKey e); repeat split; intros; try discriminate;
      reflexivity.
  - unfold handleTouchStart.
    destruct touches as [| t1 [| t2 [| t3 r]]]; repeat split; intros;
      try discriminate; reflexivity.
  - destruct touches as [| t1 [| t2 [| t3 r]]]; try discriminate Hr.
    unfold handleTouchMove, zoomViewport, panViewport, setViewport.
    destruct (truthy_num (lastTouchDistance (ui a))),
      (lastTouchDistance (ui a)), (panStart (ui a));
      try (repeat split; intros; try discriminate; reflexivity).
    destruct (Qgt_bool _ (1 # 100)), (Qgt_bool _ 2 || Qgt_bool _ 2)%bool;
      repeat split; intros; try discriminate; reflexivity.
  - repeat split; intros; try discriminate; reflexivity.
  - repeat split; intros; try discriminate; reflexivity.
  - repeat split; intros; try discriminate; reflexivity.
  - repeat split; intros; try discriminate; reflexivity.
  - repeat split; intros; try discriminate; reflexivity.
  - repeat split; intros; try discriminate; reflexivity.
  - repeat split; intros; try discriminate; reflexivity.
  - repeat split; intros; try discriminate; reflexivity.
  - repeat split; intros; try discriminate; reflexivity.
  - repeat split; intros; try discriminate; reflexivity.
Qed.

Lemma replace_events_frame_witness :
  past (history (step sampleHost ZoomIn sampleApp)) = past (history sampleApp)
  /\ future (history (step sampleHost ZoomIn sampleApp))
     = future (history sampleApp).
Proof.
  destruct (replace_events_frame sampleHost ZoomIn sampleApp eq_refl)
    as (Hp & Hf & _).
  split; [exact Hp | exact Hf].
Defined.

(** X6.  What the keyboard and the toolbar commit is undone by one Undo:
    after a clear, an import, a delete, a bring-forward or
    send-backward with a selection, or the confirmation of a non-blank
    text, the history can be undone and Undo makes the snapshot from
    before the command the present again. *)
Theorem commands_undone_by_one_undo :
  forall (host : Host) (ev : Event) (a : AppState),
    commitClass (present (history a)) ev = true ->
    history (step host ev a)
    = pushToHistory (present (history (step host ev a))) (history a)
    /\ canUndo (history (step host ev a)) = true
    /\ present (undoAction (history (step host ev a))) = present (history a)
    /\ present (history (step host Undo (step host ev a)))
       = present (history a).
Proof.
  intros host ev a Hc.
  assert (E : exists s, history (step host ev a) = pushToHistory s (history a)).
  { destruct ev; try discriminate Hc; unfold step; cbn [history];
      cbn [commitClass] in Hc.
    - unfold handleTextSubmit. rewrite Hc. cbn [snd]. eexists. reflexivity.
    - unfold handleDeleteKey. rewrite Hc. eexists. reflexivity.
    - unfold clearCanvas. eexists. reflexivity.
    - unfold bringForward. rewrite Hc. eexists. reflexivity.
    - unfold sendBackward. rewrite Hc. eexists. reflexivity.
    - eexists. reflexivity. }
  destruct E as (s & E).
  assert (U : present (undoAction (history (step host ev a)))
              = present (history a)).
  { rewrite E, undoAction_pushToHistory. reflexivity. }
  repeat match goal with |- _ /\ _ => split end.
  - rewrite E. reflexivity.
  - rewrite E. apply undo_after_pushToHistory.
  - exact U.
  - exact U.
Qed.

Lemma commands_undone_by_one_undo_witness :
  present (history (step sampleHost Undo (step sampleHost Clear sampleApp)))
  = present (history sampleApp).
Proof.
  apply (commands_undone_by_one_undo sampleHost Clear sampleApp).
  reflexivity.
Defined.

(* ================================================================== *)
(** * The selection commands *)
(* ================================================================== *)

Lemma Forall2_map_same {A B : Type} (R : A -> B -> Prop) (f : A -> B)
    (l : list A) :
  (forall a : A, R a (f a)) -> Forall2 R l (map f l).
Proof.
  intros H. induction l as [| a l IH]; cbn; constructor; auto.
Qed.

Lemma filter_all {A : Type} (f : A -> bool) (l : list A) :
  Forall (fun a => f a = true) l -> filter f l = l.
Proof.
  induction 1 as [| a l Ha _ IH]; cbn; [reflexivity |].
  now rewrite Ha, IH.
Qed.

Lemma truthy_id_Some (i : string) :
  i <> EmptyString -> truthy_id (Some i) = true.
Proof.
  intros Hi. cbn. destruct (String.eqb_spec i EmptyString); [congruence |].
  reflexivity.
Qed.

(** X7.  The Delete key with a selection commits the document without
    the shapes that carry the selected id, the others kept in their
    order, and with no selection; it is the hook's
    [deleteSelectedShape].  When the selected id names no shape the
    list stays as it is and an entry is committed all the same.
    Without a selection the key does nothing. *)
Theorem delete_selected :
  forall (host : Host) (a : AppState),
    (forall i : string,
       selectedShapeId (present (history a)) = Some i ->
       i <> EmptyString ->
       shapes (present (history (step host DeleteKey a)))
       = filter (fun s : Shape => negb (String.eqb (id s) i))
           (shapes (present (history a)))
       /\ Forall (fun s : Shape => id s <> i)
            (shapes (present (history (step host DeleteKey a))))
       /\ (forall s : Shape,
             In s (shapes (present (history a))) -> id s <> i ->
             In s (shapes (present (history (step host DeleteKey a)))))
       /\ selectedShapeId (present (history (step host DeleteKey a))) = None
       /\ history (step host DeleteKey a)
          = pushToHistory (present (history (step host DeleteKey a)))
              (history a)
       /\ history (step host DeleteKey a)
          = deleteSelectedShape (present (history a)) (history a)
       /\ (Forall (fun s : Shape => id s <> i) (shapes (present (history a)))
           -> shapes (present (history (step host DeleteKey a)))
              = shapes (present (history a))))
    /\ (truthy_id (selectedShapeId (present (history a))) = false ->
        history (step host DeleteKey a) = history a).
Proof.
  intros host a. split.
  - intros i Hsel Hi.
    assert (E : history (step host DeleteKey a)
                = pushToHistory
                    (set_selection
                       (filter (fun s : Shape => negb (String.eqb (id s) i))
                          (shapes (present (history a))))
                       None (present (history a)))
                    (history a)).
    { unfold step, handleDeleteKey. cbn [history].
      rewrite Hsel, truthy_id_Some by exact Hi. reflexivity. }
    rewrite E. cbn [present pushToHistory shapes selectedShapeId set_selection].
    repeat match goal with |- _ /\ _ => split end; try reflexivity.
    + apply Forall_forall. intros s Hs. apply filter_In in Hs as [_ Hs].
      destruct (String.eqb_spec (id s) i); [discriminate | assumption].
    + intros s Hin Hid. apply filter_In. split; [exact Hin |].
      destruct (String.eqb_spec (id s) i); [congruence | reflexivity].
    + unfold deleteSelectedShape.
      rewrite Hsel, truthy_id_Some by exact Hi. reflexivity.
    + intros Hall. apply filter_all.
      apply Forall_impl with (2 := Hall). intros s Hs.
      destruct (String.eqb_spec (id s) i); [congruence | reflexivity].
  - intros Hf. unfold step, handleDeleteKey. cbn [history].
    now rewrite Hf.
Qed.

Lemma delete_selected_witness :
  shapes (present (history (step sampleHost DeleteKey sampleTwoApp)))
  = [sampleRect2].
Proof.
  refine (eq_trans
    (proj1 (proj1 (delete_selected sampleHost sampleTwoApp) "r1"%string _ _))
    _).
  - reflexivity.
  - discriminate.
  - reflexivity.
Defined.

Lemma restacked_set_zIndex (i : string) (f : Q -> Q) (s : Shape) (z : Q) :
  z == f (or_zero (zIndex s)) ->
  restacked i f s (if id_is (id s) (Some i) then set_zIndex (Some z) s else s).
Proof.
  intros Hz. unfold restacked. cbn [id_is].
  destruct (String.eqb (id s) i); [| reflexivity].
  split; [reflexivity |]. exists z. split; [reflexivity | exact Hz].
Qed.

Lemma bringForward_shapes (h : HistoryState) (i : string) :
  selectedShapeId (present h) = Some i ->
  i <> EmptyString ->
  bringForward (present h) h
  = pushToHistory
      (set_shapes
         (map (fun s : Shape =>
                 if id_is (id s) (Some i)
                 then set_zIndex (Some (or_zero (zIndex s) + 1)) s
                 else s)
            (shapes (present h)))
         (present h))
      h.
Proof.
  intros Hsel Hi. unfold bringForward.
  rewrite Hsel, truthy_id_Some by exact Hi. reflexivity.
Qed.

Lemma sendBackward_shapes (h : HistoryState) (i : string) :
  selectedShapeId (present h) = Some i ->
  i <> EmptyString ->
  sendBackward (present h) h
  = pushToHistory
      (set_shapes
         (map (fun s : Shape =>
                 if id_is (id s) (Some i)
                 then set_zIndex (Some (Qmax 0 (or_zero (zIndex s) - 1))) s
                 else s)
            (shapes (present h)))
         (present h))
      h.
Proof.
  intros Hsel Hi. unfold sendBackward.
  rewrite Hsel, truthy_id_Some by exact Hi. reflexivity.
Qed.

(** X8.  With a selection, bring-forward and send-backward each commit
    a document in which only the shapes with the selected id changed,
    and only in their [zIndex]: one more than the effective [zIndex]
    ([zIndex || 0]) for bring-forward, one less but never below 0 for
    send-backward.  Send-backward after bring-forward gives back the
    effective [zIndex] of a shape whose effective [zIndex] was not
    negative. *)
Theorem layer_commands :
  forall (h : HistoryState) (i : string),
    selectedShapeId (present h) = Some i ->
    i <> EmptyString ->
    Forall2 (restacked i (fun z => z + 1))
      (shapes (present h)) (shapes (present (bringForward (present h) h)))
    /\ Forall2 (restacked i (fun z => Qmax 0 (z - 1)))
         (shapes (present h)) (shapes (present (sendBackward (present h) h)))
    /\ (forall (s : Shape) (z : Q),
          In s (shapes (present (sendBackward (present h) h))) ->
          id s = i -> zIndex s = Some z -> 0 <= z)
    /\ past (bringForward (present h) h)
       = past (pushToHistory (present h) h)
    /\ past (sendBackward (present h) h)
       = past (pushToHistory (present h) h)
    /\ (Forall (fun s : Shape => id s = i -> 0 <= or_zero (zIndex s))
          (shapes (present h)) ->
        Forall2 (restacked i (fun z => z))
          (shapes (present h))
          (shapes
             (present
                (sendBackward (present (bringForward (present h) h))
                   (bringForward (present h) h))))).
Proof.
  intros h i Hsel Hi.
  rewrite (sendBackward_shapes h i Hsel Hi).
  assert (Hsel1 : selectedShapeId (present (bringForward (present h) h))
                  = Some i)
    by (rewrite (bringForward_shapes h i Hsel Hi); exact Hsel).
  rewrite (sendBackward_shapes _ i Hsel1 Hi).
  rewrite (bringForward_shapes h i Hsel Hi).
  cbn [present pushToHistory shapes set_shapes].
  repeat match goal with |- _ /\ _ => split end; try reflexivity.
  - apply Forall2_map_same. intros s. now apply restacked_set_zIndex.
  - apply Forall2_map_same. intros s. now apply restacked_set_zIndex.
  - intros s z Hin Hid Hz. apply in_map_iff in Hin as (s0 & <- & _).
    cbn [id_is] in *.
    destruct (String.eqb_spec (id s0) i) as [E | NE].
    + cbn in Hz. injection Hz as <-. apply Q.le_max_l.
    + congruence.
  - intros Hall. rewrite map_map.
    induction Hall as [| s l Hs _ IH]; cbn [map]; constructor; [| exact IH].
    unfold restacked. cbn [id_is] in *.
    destruct (String.eqb_spec (id s) i) as [E | NE].
    + cbn [set_zIndex id base]. rewrite E, String.eqb_refl.
      split; [reflexivity |]. eexists. split; [reflexivity |].
      cbn [zIndex base set_zIndex].
      rewrite or_zero_Some. specialize (Hs E).
      rewrite Q.max_r by lra. ring.
    + destruct (String.eqb_spec (id s) i); [congruence | reflexivity].
Qed.

Lemma layer_commands_witness :
  Forall2 (restacked "r1" (fun z => z + 1))
    (shapes sampleTwo)
    (shapes (present (bringForward sampleTwo (useHistory sampleTwo)))).
Proof.
  refine (proj1 (layer_commands (useHistory sampleTwo) "r1" _ _)).
  - reflexivity.
  - discriminate.
Defined.

(* ================================================================== *)
(** * Keyboard and toolbar zoom, tool switch *)
(* ================================================================== *)

Lemma clamp_proper (v v' : Q) :
  v == v' -> clamp v (1 # 10) 5 == clamp v' (1 # 10) 5.
Proof. intros E. unfold clamp. now rewrite E. Qed.

Lemma unanchored_zoom (c : CanvasState) (d : Q) (h : HistoryState) :
  present (zoomViewport c d None None h)
  = set_viewport
      (mkViewport (offsetX (viewport c)) (offsetY (viewport c))
         (clamp (zoom (viewport c) + d) (1 # 10) 5))
      c.
Proof. reflexivity. Qed.

(** X9.  The zoom commands of the keyboard and the toolbar change the
    zoom and nothing else of the present (no anchor: both offsets stay).
    Reset sets a zoom that lies in [0.1, 5], the range the clamp keeps,
    to 1 (the delta it asks for is [1 - zoom], and the sum
    [zoom + (1 - zoom)] is 1 up to rounding for a zoom of that size;
    for a zoom far outside the range the sum loses the 1 and nothing is
    stated).  Zoom-in followed by zoom-out gives back a zoom between
    0.1 and 4.9; from 5, zoom-in stays at 5. *)
Theorem keyboard_zoom :
  forall (host : Host) (a : AppState),
    (1 # 10 <= zoom (viewport (present (history a))) <= 5 ->
     zoom (viewport (present (history (step host ZoomReset a)))) == 1)
    /\ (forall ev : Event,
          ev = ZoomIn \/ ev = ZoomOut \/ ev = ZoomReset ->
          present (history (step host ev a))
          = set_viewport
              (mkViewport (offsetX (viewport (present (history a))))
                 (offsetY (viewport (present (history a))))
                 (zoom (viewport (present (history (step host ev a))))))
              (present (history a)))
    /\ (1 # 10 <= zoom (viewport (present (history a))) <= 49 # 10 ->
        zoom (viewport
                (present (history (step host ZoomOut (step host ZoomIn a)))))
        == zoom (viewport (present (history a))))
    /\ (zoom (viewport (present (history a))) == 5 ->
        zoom (viewport (present (history (step host ZoomIn a)))) == 5).
Proof.
  intros host a.
  assert (In_ : zoom (viewport (present (history (step host ZoomIn a))))
                = clamp (zoom (viewport (present (history a))) + (1 # 10))
                    (1 # 10) 5) by reflexivity.
  repeat match goal with |- _ /\ _ => split end.
  - intros _.
    change (zoom (viewport (present (history (step host ZoomReset a)))))
      with (clamp (zoom (viewport (present (history a)))
                   + (1 - zoom (viewport (present (history a)))))
              (1 # 10) 5).
    rewrite (clamp_proper _ 1) by ring. reflexivity.
  - intros ev [-> | [-> | ->]]; reflexivity.
  - intros [Hlo Hhi].
    change (zoom (viewport
                    (present
                       (history (step host ZoomOut (step host ZoomIn a))))))
      with (clamp (zoom (viewport (present (history (step host ZoomIn a))))
                   + - (1 # 10)) (1 # 10) 5).
    rewrite In_.
    rewrite (clamp_proper
               (clamp (zoom (viewport (present (history a))) + (1 # 10))
                  (1 # 10) 5 + - (1 # 10))
               (zoom (viewport (present (history a))))).
    + apply clamp_inside; lra.
    + rewrite clamp_inside by lra. ring.
  - intros E. rewrite In_, (clamp_proper _ (51 # 10)) by (rewrite E; reflexivity).
    reflexivity.
Qed.

Lemma keyboard_zoom_witness :
  1 # 10 <= zoom (viewport (present (history sampleApp))) <= 49 # 10
  /\ zoom (viewport
             (present
                (history
                   (step sampleHost ZoomOut (step sampleHost ZoomIn sampleApp)))))
     == zoom (viewport (present (history sampleApp)))
  /\ zoom (viewport
             (present
                (history
                   (step sampleHost ZoomReset
                      (mkApp (useHistory sampleView) initialUI)))))
     == 1.
Proof.
  assert (H : 1 # 10 <= zoom (viewport (present (history sampleApp)))
              <= 49 # 10) by (split; discriminate).
  split; [exact H |].
  split; [exact (proj1 (proj2 (proj2 (keyboard_zoom sampleHost sampleApp))) H) |].
  apply (proj1 (keyboard_zoom sampleHost
                  (mkApp (useHistory sampleView) initialUI))).
  split; discriminate.
Defined.

(** X10.  A tool switch sets the tool and drops the selection: it sets
    [selected] to [false] on every shape and clears [selectedShapeId],
    and changes nothing else: every other field of every shape, the
    viewport, the five style values and the font family of the
    snapshot, the past, the future and the cells of the canvas
    component are as before.  A Delete, bring-forward, send-backward or
    duplicate given in the next render therefore does nothing. *)
Theorem tool_switch_clears_selection :
  forall (host : Host) (a : AppState) (tool : Tool),
    currentTool (present (history (step host (ToolKey tool) a))) = tool
    /\ selectedShapeId (present (history (step host (ToolKey tool) a))) = None
    /\ shapes (present (history (step host (ToolKey tool) a)))
       = map (set_selected (Some false)) (shapes (present (history a)))
    /\ (forall s : Shape,
          base (set_selected (Some false) s)
          = mkBase (id s) (x s) (y s) (width s) (height s) (strokeColor s)
              (fillColor s) (strokeWidth s) (roughness s) (rotation s)
              (Some false) (zIndex s)
          /\ variant (set_selected (Some false) s) = variant s)
    /\ viewport (present (history (step host (ToolKey tool) a)))
       = viewport (present (history a))
    /\ cs_strokeColor (present (history (step host (ToolKey tool) a)))
       = cs_strokeColor (present (history a))
    /\ cs_fillColor (present (history (step host (ToolKey tool) a)))
       = cs_fillColor (present (history a))
    /\ cs_strokeWidth (present (history (step host (ToolKey tool) a)))
       = cs_strokeWidth (present (history a))
    /\ cs_roughness (present (history (step host (ToolKey tool) a)))
       = cs_roughness (present (history a))
    /\ cs_fontSize (present (history (step host (ToolKey tool) a)))
       = cs_fontSize (present (history a))
    /\ cs_fontFamily (present (history (step host (ToolKey tool) a)))
       = cs_fontFamily (present (history a))
    /\ past (history (step host (ToolKey tool) a)) = past (history a)
    /\ future (history (step host (ToolKey tool) a)) = future (history a)
    /\ ui (step host (ToolKey tool) a) = ui a
    /\ Forall (fun s : Shape => selected s = Some false)
         (shapes (present (history (step host (ToolKey tool) a))))
    /\ (forall ev : Event,
          ev = DeleteKey \/ ev = BringForward \/ ev = SendBackward ->
          history (step host ev (step host (ToolKey tool) a))
          = history (step host (ToolKey tool) a))
    /\ (forall newId : string,
          duplicated (history (step host (ToolKey tool) a)) newId
          = history (step host (ToolKey tool) a)).
Proof.
  intros host a tool.
  repeat match goal with |- _ /\ _ => split end; try reflexivity.
  - intros s. split; reflexivity.
  - apply Forall_map, Forall_forall. intros s _. reflexivity.
  - intros ev [-> | [-> | ->]]; reflexivity.
Qed.

(* ================================================================== *)
(** * Geometry: bounds, moves and the hit test *)
(* ================================================================== *)

Lemma fold_Qmin_le_init (l : list Q) :
  forall a : Q, fold_left Qmin l a <= a.
Proof.
  induction l as [| c l IH]; intros a; cbn; [apply Qle_refl |].
  apply Qle_trans with (Qmin a c); [apply IH | apply Q.le_min_l].
Qed.

Lemma fold_Qmin_le_elem (l : list Q) :
  forall a q : Q, In q l -> fold_left Qmin l a <= q.
Proof.
  induction l as [| c l IH]; intros a q Hin; [destruct Hin |].
  cbn. destruct Hin as [-> | Hin].
  - apply Qle_trans with (Qmin a q); [apply fold_Qmin_le_init |].
    apply Q.le_min_r.
  - now apply IH.
Qed.

Lemma Math_min_le (l : list Q) (q : Q) : In q l -> Math_min l <= q.
Proof.
  destruct l as [| a l]; [intros [] |].
  intros [-> | Hin]; [apply fold_Qmin_le_init | now apply fold_Qmin_le_elem].
Qed.

Lemma Qmin_le_Qmax (u v : Q) : Qmin u v <= Qmax u v.
Proof.
  apply Qle_trans with u; [apply Q.le_min_l | apply Q.le_max_l].
Qed.

(** X11.  The bounds of a pen stroke, a line and an arrow are
    normalised: width and height are not negative, both ends of a line
    or arrow and every point of a stroke lie in the box, and a stroke
    without points has the empty box at its stored position.  The
    bounds of a rectangle, circle or text are its stored [x], [y],
    [width], [height] as they are, negative extents included. *)
Theorem bounds_enclose :
  forall s : Shape,
    (isBoxShape s = false ->
     0 <= bb_width (getShapeBounds s) /\ 0 <= bb_height (getShapeBounds s))
    /\ (forall ex ey : Q,
          variant s = LineShape ex ey \/ variant s = ArrowShape ex ey ->
          inBox (getShapeBounds s) (mkPoint (x s) (y s))
          /\ inBox (getShapeBounds s) (mkPoint ex ey))
    /\ (forall (pts : list Point) (p : Point),
          variant s = PenShape pts -> In p pts ->
          inBox (getShapeBounds s) p)
    /\ (variant s = PenShape [] ->
        getShapeBounds s = mkBox (x s) (y s) 0 0)
    /\ (isBoxShape s = true ->
        getShapeBounds s = mkBox (x s) (y s) (width s) (height s)).
Proof.
  intros [o v]. unfold inBox.
  repeat match goal with |- _ /\ _ => split end.
  - destruct v as [pts | | | ex ey | ex ey | t f g]; cbn;
      intros H; try discriminate H.
    + destruct pts as [| p pts]; cbn [length Nat.eqb bb_width bb_height];
        [split; apply Qle_refl |].
      pose proof (Math_min_le (map px (p :: pts)) (px p) (or_introl eq_refl)).
      pose proof (Math_max_ge (map px (p :: pts)) (px p) (or_introl eq_refl)).
      pose proof (Math_min_le (map py (p :: pts)) (py p) (or_introl eq_refl)).
      pose proof (Math_max_ge (map py (p :: pts)) (py p) (or_introl eq_refl)).
      split; lra.
    + pose proof (Qmin_le_Qmax (x o) ex). pose proof (Qmin_le_Qmax (y o) ey).
      split; lra.
    + pose proof (Qmin_le_Qmax (x o) ex). pose proof (Qmin_le_Qmax (y o) ey).
      split; lra.
  - intros ex ey [E | E]; cbn in E; subst v; cbn;
      pose proof (Q.le_min_l (x o) ex); pose proof (Q.le_min_r (x o) ex);
      pose proof (Q.le_max_l (x o) ex); pose proof (Q.le_max_r (x o) ex);
      pose proof (Q.le_min_l (y o) ey); pose proof (Q.le_min_r (y o) ey);
      pose proof (Q.le_max_l (y o) ey); pose proof (Q.le_max_r (y o) ey);
      repeat split; lra.
  - intros pts p E Hin. cbn in E. subst v.
    destruct pts as [| p0 pts]; [destruct Hin |].
    unfold getShapeBounds.
    cbn [variant length Nat.eqb bb_x bb_y bb_width bb_height].
    pose proof (Math_min_le _ _ (in_map px _ _ Hin)).
    pose proof (Math_max_ge _ _ (in_map px _ _ Hin)).
    pose proof (Math_min_le _ _ (in_map py _ _ Hin)).
    pose proof (Math_max_ge _ _ (in_map py _ _ Hin)).
    repeat split; lra.
  - intros E. cbn in E. subst v. reflexivity.
  - destruct v; cbn; intros H; try discriminate H; reflexivity.
Qed.

Lemma bounds_enclose_witness :
  inBox (getShapeBounds samplePen) (mkPoint 1 12)
  /\ box_eq (getShapeBounds samplePen) (mkBox 1 3 8 9).
Proof.
  split.
  - apply (proj1 (proj2 (proj2 (bounds_enclose samplePen)))
             [mkPoint 5 8; mkPoint 1 12; mkPoint 9 3]).
    + reflexivity.
    + cbn. auto.
  - repeat split.
Defined.

Lemma shift_fold_min (d : Q) (l : list Q) :
  forall a : Q,
    fold_left Qmin (map (fun t => t + d) l) (a + d)
    == fold_left Qmin l a + d.
Proof.
  induction l as [| c l IH]; intros a; cbn; [reflexivity |].
  rewrite <- IH. apply fold_Qmin_proper, Q.plus_min_distr_r.
Qed.

Lemma shift_fold_max (d : Q) (l : list Q) :
  forall a : Q,
    fold_left Qmax (map (fun t => t + d) l) (a + d)
    == fold_left Qmax l a + d.
Proof.
  induction l as [| c l IH]; intros a; cbn; [reflexivity |].
  rewrite <- IH. apply fold_Qmax_proper, Q.plus_max_distr_r.
Qed.

Lemma shift_Math_min (d : Q) (l : list Q) :
  l <> [] -> Math_min (map (fun t => t + d) l) == Math_min l + d.
Proof.
  destruct l as [| a l]; [congruence | intros _]. apply shift_fold_min.
Qed.

Lemma shift_Math_max (d : Q) (l : list Q) :
  l <> [] -> Math_max (map (fun t => t + d) l) == Math_max l + d.
Proof.
  destruct l as [| a l]; [congruence | intros _]. apply shift_fold_max.
Qed.

Lemma getShapeBounds_moveShape (s : Shape) (dx dy : Q) :
  box_eq (getShapeBounds (moveShape s dx dy))
    (shiftBox (getShapeBounds s) dx dy).
Proof.
  destruct s as [o v]. unfold box_eq, shiftBox.
  destruct v as [pts | | | ex ey | ex ey | t f g].
  - destruct pts as [| p pts]; [cbn; repeat split; ring |].
    unfold moveShape, getShapeBounds.
    cbn [variant base length map Nat.eqb bb_x bb_y bb_width bb_height].
    change (px (mkPoint (px p + dx) (py p + dy))
            :: map px
                 (map (fun p0 => mkPoint (px p0 + dx) (py p0 + dy)) pts))
      with (map px
              (map (fun p0 => mkPoint (px p0 + dx) (py p0 + dy)) (p :: pts))).
    change (py (mkPoint (px p + dx) (py p + dy))
            :: map py
                 (map (fun p0 => mkPoint (px p0 + dx) (py p0 + dy)) pts))
      with (map py
              (map (fun p0 => mkPoint (px p0 + dx) (py p0 + dy)) (p :: pts))).
    change (px p :: map px pts) with (map px (p :: pts)).
    change (py p :: map py pts) with (map py (p :: pts)).
    rewrite !map_map. cbn [px py].
    rewrite <- (map_map px (fun t => t + dx)).
    rewrite <- (map_map py (fun t => t + dy)).
    rewrite !shift_Math_min, !shift_Math_max by discriminate.
    repeat split; ring.
  - cbn. repeat split; ring.
  - cbn. repeat split; ring.
  - cbn. rewrite !Q.plus_min_distr_r, !Q.plus_max_distr_r.
    repeat split; ring.
  - cbn. rewrite !Q.plus_min_distr_r, !Q.plus_max_distr_r.
    repeat split; ring.
  - cbn. repeat split; ring.
Qed.


Lemma Qle_bool_of_iff (a b c d : Q) :
  (a <= b <-> c <= d) -> Qle_bool a b = Qle_bool c d.
Proof.
  intros H. destruct (Qle_bool a b) eqn:E1, (Qle_bool c d) eqn:E2;
    try reflexivity.
  - apply Qle_bool_iff in E1. apply H, Qle_bool_iff in E1. congruence.
  - apply Qle_bool_iff in E2. apply H, Qle_bool_iff in E2. congruence.
Qed.

(** The padded-box test does not see a common shift of box and point. *)
Lemma in_padded_box_shift (X Y X' Y' : Q) (b b' : BoundingBox)
    (dx dy pad : Q) :
  X' == X + dx -> Y' == Y + dy -> box_eq b' (shiftBox b dx dy) ->
  in_padded_box X' Y' b' pad = in_padded_box X Y b pad.
Proof.
  intros EX EY (Bx & By & Bw & Bh). cbn in Bx, By, Bw, Bh.
  unfold in_padded_box.
  f_equal; [f_equal; [f_equal |] |]; apply Qle_bool_of_iff;
    rewrite ?EX, ?EY, ?Bx, ?By, ?Bw, ?Bh; split; intros; lra.
Qed.

Lemma isPointInShape_unfold (cos sin : Q -> Q) (p : Point) (s : Shape) :
  isPointInShape cos sin p s
  = if truthy_num (rotation s) then
      in_padded_box
        (px (unrotated (cos (- or_zero (rotation s)))
               (sin (- or_zero (rotation s))) (hitCenter s) p))
        (py (unrotated (cos (- or_zero (rotation s)))
               (sin (- or_zero (rotation s))) (hitCenter s) p))
        (getShapeBounds s) 5
    else in_padded_box (px p) (py p) (getShapeBounds s) 5.
Proof.
  unfold isPointInShape, hitCenter, unrotated.
  destruct (rotation s) as [r |]; [| reflexivity].
  cbn [truthy_num or_zero]. destruct (Qeq_bool r 0); [reflexivity |].
  cbn [negb]. destruct (variant s); reflexivity.
Qed.

Lemma hitCenter_moveShape (s : Shape) (dx dy : Q) :
  px (hitCenter (moveShape s dx dy)) == px (hitCenter s) + dx
  /\ py (hitCenter (moveShape s dx dy)) == py (hitCenter s) + dy.
Proof.
  destruct (getShapeBounds_moveShape s dx dy) as (Bx & By & Bw & Bh).
  cbn in Bx, By, Bw, Bh.
  destruct s as [o v]. unfold hitCenter.
  destruct v as [pts | | | ex ey | ex ey | t f g];
    cbn [moveShape variant base px py];
    rewrite ?Bx, ?By, ?Bw, ?Bh; cbn; split; ring.
Qed.

Lemma isPointInShape_moveShape (cos sin : Q -> Q) (p : Point) (s : Shape)
    (dx dy : Q) :
  isPointInShape cos sin (shiftPoint p dx dy) (moveShape s dx dy)
  = isPointInShape cos sin p s.
Proof.
  rewrite !isPointInShape_unfold.
  assert (Er : rotation (moveShape s dx dy) = rotation s)
    by (destruct s as [o v]; destruct v; reflexivity).
  rewrite Er.
  destruct (hitCenter_moveShape s dx dy) as [Cx Cy].
  destruct (truthy_num (rotation s)).
  - apply in_padded_box_shift with (dx := dx) (dy := dy);
      [| | apply getShapeBounds_moveShape];
      unfold unrotated, shiftPoint; cbn [px py]; rewrite Cx, Cy; ring.
  - apply in_padded_box_shift with (dx := dx) (dy := dy);
      [reflexivity | reflexivity | apply getShapeBounds_moveShape].
Qed.

Lemma find_map {A B : Type} (f : B -> bool) (g : A -> B) (l : list A) :
  find f (map g l) = option_map g (find (fun a => f (g a)) l).
Proof.
  induction l as [| a l IH]; [reflexivity |].
  cbn. destruct (f (g a)); [reflexivity | exact IH].
Qed.

Lemma find_pointwise {A : Type} (f g : A -> bool) (l : list A) :
  (forall a, f a = g a) -> find f l = find g l.
Proof.
  intros E. induction l as [| a l IH]; [reflexivity |].
  cbn. rewrite E, IH. reflexivity.
Qed.

Lemma integral_Z (z : Z) :
  (Z.abs z <= 2 ^ 50)%Z -> integral (inject_Z z).
Proof. intros H. exists z. split; [reflexivity | exact H]. Qed.

Ltac on_grid z := apply (integral_Z z); cbn; lia.

(** X13.  On the integer grid the hit test is translation-equivariant:
    for a point, a delta and an unrotated shape whose coordinates are
    integers (of magnitude at most 2^50), the point hits the shape
    exactly when the point moved by the delta hits the shape moved by
    the delta; so moving every shape of such a list and the pointer
    together picks the corresponding shape.  On the grid every sum and
    difference the test and the move compute is exact in double
    arithmetic, so the comparisons with the padded edges are those of
    the rationals; off the grid a rounded sum can fall on the other
    side of an edge, and nothing is stated. *)
Theorem hit_test_translation :
  forall (cos sin : Q -> Q) (p : Point) (dx dy : Q),
    gridPoint p -> integral dx -> integral dy ->
    (forall s : Shape,
       gridShape s ->
       isPointInShape cos sin (shiftPoint p dx dy) (moveShape s dx dy)
       = isPointInShape cos sin p s)
    /\ (forall l : list Shape,
          Forall gridShape l ->
          getShapeAtPoint cos sin (shiftPoint p dx dy)
            (map (fun s => moveShape s dx dy) l)
          = option_map (fun s => moveShape s dx dy)
              (getShapeAtPoint cos sin p l)).
Proof.
  intros cos sin p dx dy _ _ _. split.
  - intros s _. apply isPointInShape_moveShape.
  - intros l _. unfold getShapeAtPoint. rewrite <- map_rev, find_map.
    f_equal. apply find_pointwise. intros s. apply isPointInShape_moveShape.
Qed.

Lemma hit_test_translation_witness :
  isPointInShape sampleCos sampleSin (shiftPoint (mkPoint 5 20) 7 (-3))
    (moveShape sampleRect 7 (-3))
  = isPointInShape sampleCos sampleSin (mkPoint 5 20) sampleRect.
Proof.
  refine (proj1 (hit_test_translation sampleCos sampleSin (mkPoint 5 20)
                   7 (-3) _ _ _) sampleRect _).
  - split; [on_grid 5%Z | on_grid 20%Z].
  - on_grid 7%Z.
  - on_grid (-3)%Z.
  - split; [reflexivity |].
    split; [on_grid 10%Z |]. split; [on_grid 10%Z |].
    split; [on_grid 100%Z |]. split; [on_grid 50%Z |].
    exact I.
Defined.

Lemma find_app {A : Type} (f : A -> bool) (l1 l2 : list A) :
  find f (l1 ++ l2)
  = match find f l1 with Some a => Some a | None => find f l2 end.
Proof.
  induction l1 as [| a l1 IH]; [reflexivity |].
  cbn. destruct (f a); [reflexivity | exact IH].
Qed.

Lemma find_none_Forall {A : Type} (f : A -> bool) (l : list A) :
  find f l = None <-> Forall (fun a => f a = false) l.
Proof.
  induction l as [| a l IH]; cbn.
  - split; [constructor | reflexivity].
  - destruct (f a) eqn:E.
    + split; [discriminate |]. intros H. inversion H; congruence.
    + rewrite IH. split; [now constructor | intros H; now inversion H].
Qed.

Lemma getShapeAtPoint_snoc (cos sin : Q -> Q) (p : Point) (l : list Shape)
    (s : Shape) :
  getShapeAtPoint cos sin p (l ++ [s])
  = if isPointInShape cos sin p s then Some s
    else getShapeAtPoint cos sin p l.
Proof.
  unfold getShapeAtPoint. rewrite rev_app_distr. reflexivity.
Qed.

(** X14.  The pick is the last shape of the array that the point hits:
    the result is [null] exactly when no shape is hit, and it is [s]
    exactly when the array splits around a hit occurrence of [s] after
    which nothing is hit.  Whatever is picked is a shape of the array
    that the point hits. *)
Theorem pick_is_last_hit :
  forall (cos sin : Q -> Q) (p : Point) (l : list Shape),
    (getShapeAtPoint cos sin p l = None
     <-> Forall (fun s => isPointInShape cos sin p s = false) l)
    /\ (forall s : Shape,
          getShapeAtPoint cos sin p l = Some s
          <-> exists l1 l2 : list Shape,
                l = l1 ++ s :: l2
                /\ isPointInShape cos sin p s = true
                /\ Forall (fun t => isPointInShape cos sin p t = false) l2)
    /\ (forall s : Shape,
          getShapeAtPoint cos sin p l = Some s ->
          In s l /\ isPointInShape cos sin p s = true).
Proof.
  intros cos sin p l.
  assert (K : forall s : Shape,
            getShapeAtPoint cos sin p l = Some s
            <-> exists l1 l2 : list Shape,
                  l = l1 ++ s :: l2
                  /\ isPointInShape cos sin p s = true
                  /\ Forall (fun t => isPointInShape cos sin p t = false) l2).
  { intros s. split.
    - induction l as [| a l IH] using rev_ind; [discriminate |].
      rewrite getShapeAtPoint_snoc.
      destruct (isPointInShape cos sin p a) eqn:E.
      + intros [= <-]. exists l, []. repeat split; [exact E | constructor].
      + intros H. destruct (IH H) as (l1 & l2 & -> & Hs & Hl2).
        exists l1, (l2 ++ [a]). split; [| split].
        * rewrite <- app_assoc. reflexivity.
        * exact Hs.
        * apply Forall_app. split; [exact Hl2 | now constructor].
    - intros (l1 & l2 & -> & Hs & Hl2).
      unfold getShapeAtPoint. rewrite rev_app_distr. cbn [rev].
      rewrite <- app_assoc, find_app.
      assert (N : find (isPointInShape cos sin p) (rev l2) = None).
      { apply find_none_Forall, Forall_rev. exact Hl2. }
      rewrite N. cbn. rewrite Hs. reflexivity. }
  split; [| split].
  - unfold getShapeAtPoint. rewrite find_none_Forall.
    split; intros H.
    + rewrite <- (rev_involutive l). now apply Forall_rev.
    + now apply Forall_rev.
  - exact K.
  - intros s H. apply K in H as (l1 & l2 & -> & Hs & _).
    split; [| exact Hs]. apply in_or_app. right. now left.
Qed.

Lemma pick_is_last_hit_witness :
  In sampleRect (shapes sampleDoc)
  /\ isPointInShape sampleCos sampleSin (mkPoint 20 20) sampleRect = true.
Proof.
  refine (proj2 (proj2 (pick_is_last_hit sampleCos sampleSin (mkPoint 20 20)
                          (shapes sampleDoc))) sampleRect _).
  reflexivity.
Defined.

Lemma isPointInShape_set_zIndex (cos sin : Q -> Q) (p : Point)
    (z : option Q) (s : Shape) :
  isPointInShape cos sin p (set_zIndex z s) = isPointInShape cos sin p s.
Proof.
  destruct s as [o v]. destruct v; reflexivity.
Qed.

Lemma pick_id_restack (cos sin : Q -> Q) (p : Point)
    (g : Shape -> Shape) (l : list Shape) :
  (forall s, id (g s) = id s) ->
  (forall s, isPointInShape cos sin p (g s) = isPointInShape cos sin p s) ->
  option_map (fun s : Shape => id s) (getShapeAtPoint cos sin p (map g l))
  = option_map (fun s : Shape => id s) (getShapeAtPoint cos sin p l).
Proof.
  intros Hid Hhit. unfold getShapeAtPoint.
  rewrite <- map_rev, find_map.
  rewrite (find_pointwise _ (isPointInShape cos sin p) _ Hhit).
  destruct (find (isPointInShape cos sin p) (rev l)); cbn;
    [rewrite Hid |]; reflexivity.
Qed.

(** X15.  The pick goes by array position and never by [zIndex]: after
    bring-forward or send-backward, the same point still picks a shape
    with the same id (or still nothing), whatever the selection. *)
Theorem layer_commands_keep_pick :
  forall (cos sin : Q -> Q) (p : Point) (h : HistoryState),
    option_map (fun s : Shape => id s)
      (getShapeAtPoint cos sin p
         (shapes (present (bringForward (present h) h))))
    = option_map (fun s : Shape => id s)
        (getShapeAtPoint cos sin p (shapes (present h)))
    /\ option_map (fun s : Shape => id s)
         (getShapeAtPoint cos sin p
            (shapes (present (sendBackward (present h) h))))
       = option_map (fun s : Shape => id s)
           (getShapeAtPoint cos sin p (shapes (present h))).
Proof.
  intros cos sin p h. unfold bringForward, sendBackward.
  destruct (truthy_id (selectedShapeId (present h))); [| split; reflexivity].
  cbn [present pushToHistory shapes set_shapes].
  split; apply pick_id_restack; intros s;
    destruct (id_is (id s) (selectedShapeId (present h)));
    try reflexivity; try apply isPointInShape_set_zIndex;
    destruct s as [o v]; reflexivity.
Qed.

Lemma in_padded_box_extent (X Y : Q) (b : BoundingBox) (pad : Q) :
  in_padded_box X Y b pad = true ->
  - (2 * pad) <= bb_width b /\ - (2 * pad) <= bb_height b.
Proof.
  unfold in_padded_box. intros H.
  apply andb_prop in H as [H H4]. apply andb_prop in H as [H H3].
  apply andb_prop in H as [H1 H2].
  apply Qle_bool_iff in H1, H2, H3, H4. split; lra.
Qed.

Lemma isPointInShape_extent (cos sin : Q -> Q) (p : Point) (s : Shape) :
  isPointInShape cos sin p s = true ->
  -10 <= bb_width (getShapeBounds s) /\ -10 <= bb_height (getShapeBounds s).
Proof.
  rewrite isPointInShape_unfold. intros H.
  destruct (truthy_num (rotation s));
    apply in_padded_box_extent in H; destruct H; split; lra.
Qed.

(** X16.  A rectangle or circle that is drawn towards the left or
    upwards gets a negative width or height, and the hit test compares
    against the raw box.  On the integer grid (start corner and pointer
    with integer coordinates of magnitude at most 2^50, where the
    subtractions and sums involved are exact in double arithmetic):
    once the pointer has gone more than 10 units to the left of, or
    above, the start corner, the padded right edge lies left of the
    padded left edge (or the bottom above the top), so no point
    whatsoever hits the shape, rotated or not; a click can never pick
    it and it is transparent to the pick of the shapes below it. *)
Theorem backward_box_never_hit :
  forall (cos sin : Q -> Q) (s : Shape) (q : Point),
    variant s = RectangleShape \/ variant s = CircleShape ->
    integral (x s) -> integral (y s) -> gridPoint q ->
    px q < x s - 10 \/ py q < y s - 10 ->
    forall p : Point,
      isPointInShape cos sin p (extendShape s q) = false
      /\ (forall l : list Shape,
            getShapeAtPoint cos sin p (l ++ [extendShape s q])
            = getShapeAtPoint cos sin p l).
Proof.
  intros cos sin s q Hv _ _ _ Hq p.
  assert (N : isPointInShape cos sin p (extendShape s q) = false).
  { destruct (isPointInShape cos sin p (extendShape s q)) eqn:E;
      [| reflexivity].
    apply isPointInShape_extent in E. exfalso.
    destruct s as [o v]. cbn [variant] in Hv.
    destruct Hv as [-> | ->]; cbn in E, Hq; destruct E, Hq; lra. }
  split; [exact N |].
  intros l. rewrite getShapeAtPoint_snoc, N. reflexivity.
Qed.

Lemma backward_box_never_hit_witness :
  isPointInShape sampleCos sampleSin (mkPoint 0 30)
    (extendShape sampleRect (mkPoint (-50) 30)) = false.
Proof.
  refine (proj1 (backward_box_never_hit sampleCos sampleSin sampleRect
                   (mkPoint (-50) 30) _ _ _ _ _ (mkPoint 0 30))).
  - left. reflexivity.
  - on_grid 10%Z.
  - on_grid 10%Z.
  - split; [on_grid (-50)%Z | on_grid 30%Z].
  - left. cbn. lra.
Defined.

(* ================================================================== *)
(** * Pointer gestures: drawing and panning *)
(* ================================================================== *)

Lemma mouseDown_draw (host : Host) (a : AppState) (e : MouseEvent)
    (newId : string) :
  isPanClick e = false ->
  isDrawTool (currentTool (present (history a))) = true ->
  step host (MouseDown e newId) a
  = mkApp (history a)
      (setIsDrawing true
         (setCurrentShape
            (createShape (present (history a))
               (getCanvasMousePos host (present (history a)) e)
               (currentTool (present (history a))) newId)
            (ui a))).
Proof.
  intros Hpan Htool. unfold isPanClick in Hpan.
  cbn [step]. unfold handleMouseDown. rewrite Hpan.
  destruct (currentTool (present (history a))); try discriminate;
    reflexivity.
Qed.

Lemma mouseMove_draw (host : Host) (h : HistoryState) (u : CanvasUI)
    (s : Shape) (e : MouseEvent) :
  idle u = true -> isDrawing u = true -> currentShape u = Some s ->
  step host (MouseMove e) (mkApp h u)
  = mkApp h
      (setCurrentShape
         (Some (extendShape s (getCanvasMousePos host (present h) e))) u).
Proof.
  intros Hidle Hd Hs. unfold idle in Hidle.
  apply andb_prop in Hidle as [Hp Hg].
  apply negb_true_iff in Hp, Hg.
  cbn [step history ui]. unfold handleMouseMove.
  rewrite Hp, Hg, Hd, Hs. destruct (panStart u); reflexivity.
Qed.

Lemma moves_draw (host : Host) (h : HistoryState) (moves : list MouseEvent) :
  forall (u : CanvasUI) (s : Shape),
    idle u = true -> isDrawing u = true -> currentShape u = Some s ->
    run host (map MouseMove moves) (mkApp h u)
    = mkApp h
        (setCurrentShape
           (Some (fold_left extendShape
                    (map (getCanvasMousePos host (present h)) moves) s))
           u).
Proof.
  induction moves as [| e moves IH]; intros u s Hidle Hd Hs.
  - cbn. destruct u. cbn in Hs. rewrite Hs. reflexivity.
  - cbn [map]. rewrite run_cons, (mouseMove_draw host h u s e Hidle Hd Hs).
    rewrite IH with (s := extendShape s (getCanvasMousePos host (present h) e));
      [reflexivity | exact Hidle | exact Hd | reflexivity].
Qed.

Lemma fold_extend_pen (b : BaseShape) (pts : list Point) :
  forall l : list Point,
    fold_left extendShape pts (mkShape b (PenShape l))
    = mkShape b (PenShape (l ++ pts)).
Proof.
  induction pts as [| q pts IH]; intros l; cbn [fold_left].
  - now rewrite app_nil_r.
  - change (extendShape (mkShape b (PenShape l)) q)
      with (mkShape b (PenShape (l ++ [q]))).
    rewrite IH, <- app_assoc. reflexivity.
Qed.

Lemma fold_extend_line (b : BaseShape) (pts : list Point) :
  forall start : Point,
    fold_left extendShape pts (mkShape b (LineShape (px start) (py start)))
    = mkShape b (LineShape (px (last pts start)) (py (last pts start))).
Proof.
  induction pts as [| q pts IH]; intros start; [reflexivity |].
  cbn [fold_left].
  change (extendShape (mkShape b (LineShape (px start) (py start))) q)
    with (mkShape b (LineShape (px q) (py q))).
  rewrite IH, last_cons_default. reflexivity.
Qed.

Lemma fold_extend_arrow (b : BaseShape) (pts : list Point) :
  forall start : Point,
    fold_left extendShape pts (mkShape b (ArrowShape (px start) (py start)))
    = mkShape b (ArrowShape (px (last pts start)) (py (last pts start))).
Proof.
  induction pts as [| q pts IH]; intros start; [reflexivity |].
  cbn [fold_left].
  change (extendShape (mkShape b (ArrowShape (px start) (py start))) q)
    with (mkShape b (ArrowShape (px q) (py q))).
  rewrite IH, last_cons_default. reflexivity.
Qed.

Lemma fold_extend_box (v : ShapeVariant) (pts : list Point) :
  v = RectangleShape \/ v = CircleShape ->
  forall b : BaseShape,
    fold_left extendShape pts (mkShape b v)
    = mkShape
        match pts with
        | [] => b
        | q :: r =>
            set_size (px (last r q) - x b) (py (last r q) - y b) b
        end v.
Proof.
  intros Hv. induction pts as [| q pts IH]; intros b; [reflexivity |].
  cbn [fold_left].
  assert (E : extendShape (mkShape b v) q
              = mkShape (set_size (px q - x b) (py q - y b) b) v)
    by (destruct Hv as [-> | ->]; reflexivity).
  rewrite E, IH. destruct pts as [| q' r]; [reflexivity |].
  rewrite (last_cons_default r q' q). reflexivity.
Qed.

Lemma createShape_drawn (c : CanvasState) (t : Tool) (newId : string)
    (start : Point) (pts : list Point) :
  isDrawTool t = true ->
  exists s0 : Shape,
    createShape c start t newId = Some s0
    /\ drawnFrom t start pts (fold_left extendShape pts s0)
    /\ id (fold_left extendShape pts s0) = newId
    /\ zIndex (fold_left extendShape pts s0) = None
    /\ selected (fold_left extendShape pts s0) = None
    /\ rotation (fold_left extendShape pts s0) = None.
Proof.
  intros Ht. destruct t; try discriminate; cbn [createShape];
    eexists; (split; [reflexivity |]).
  - (* pen *)
    rewrite fold_extend_pen. cbn. repeat split; reflexivity.
  - (* rectangle *)
    rewrite fold_extend_box by (left; reflexivity).
    destruct pts as [| q r]; unfold drawnFrom;
      rewrite ?last_cons_default; cbn -[last];
      repeat match goal with |- _ /\ _ => split end;
      try reflexivity; cbn [last]; ring.
  - (* circle *)
    rewrite fold_extend_box by (right; reflexivity).
    destruct pts as [| q r]; unfold drawnFrom;
      rewrite ?last_cons_default; cbn -[last];
      repeat match goal with |- _ /\ _ => split end;
      try reflexivity; cbn [last]; ring.
  - (* line *)
    rewrite fold_extend_line. cbn -[last]. repeat split; reflexivity.
  - (* arrow *)
    rewrite fold_extend_arrow. cbn -[last]. repeat split; reflexivity.
Qed.

(** X17.  A drawing gesture (pointer-down with a drawing tool, any
    number of move samples, pointer-up) commits exactly once, at the
    pointer-up: nothing is committed while the pointer moves, and the
    commit appends one shape to the document and changes nothing else.
    The shape has the id drawn for it, starts at the pointer-down, has
    no [zIndex], rotation or selection flag, and keeps of the samples
    what its tool keeps: a pen all of them in order, a line or arrow
    the last one as its end, a rectangle or circle the last one as the
    corner opposite to the start (with a signed width and height).
    The component is idle again afterwards. *)
Theorem draw_gesture :
  forall (host : Host) (a : AppState) (down : MouseEvent) (newId : string)
         (moves : list MouseEvent),
    isPanClick down = false ->
    isDrawTool (currentTool (present (history a))) = true ->
    idle (ui a) = true ->
    exists s : Shape,
      history (run host (drawGesture down newId moves) a)
      = pushToHistory
          (set_shapes (shapes (present (history a)) ++ [s])
             (present (history a)))
          (history a)
      /\ history (run host (MouseDown down newId :: map MouseMove moves) a)
         = history a
      /\ drawnFrom (currentTool (present (history a)))
           (getCanvasMousePos host (present (history a)) down)
           (map (getCanvasMousePos host (present (history a))) moves) s
      /\ id s = newId
      /\ zIndex s = None /\ selected s = None /\ rotation s = None
      /\ idle (ui (run host (drawGesture down newId moves) a)) = true
      /\ isDrawing (ui (run host (drawGesture down newId moves) a)) = false
      /\ currentShape (ui (run host (drawGesture down newId moves) a)) = None.
Proof.
  intros host a down newId moves Hpan Htool Hidle.
  destruct (createShape_drawn (present (history a))
              (currentTool (present (history a))) newId
              (getCanvasMousePos host (present (history a)) down)
              (map (getCanvasMousePos host (present (history a))) moves)
              Htool)
    as (s0 & Hs0 & Hdrawn & Hid & Hz & Hsel & Hrot).
  assert (Hrun :
    run host (MouseDown down newId :: map MouseMove moves) a
    = mkApp (history a)
        (setCurrentShape
           (Some (fold_left extendShape
                    (map (getCanvasMousePos host (present (history a)))
                       moves) s0))
           (setIsDrawing true (ui a)))).
  { rewrite run_cons, (mouseDown_draw host a down newId Hpan Htool), Hs0.
    rewrite (moves_draw host (history a) moves _ s0);
      [reflexivity | exact Hidle | reflexivity | reflexivity]. }
  eexists. unfold drawGesture.
  change (MouseDown down newId :: map MouseMove moves ++ [MouseUp])
    with ((MouseDown down newId :: map MouseMove moves) ++ [MouseUp]).
  rewrite run_app, Hrun.
  split; [reflexivity |]. split; [reflexivity |].
  split; [exact Hdrawn |]. split; [exact Hid |].
  split; [exact Hz |]. split; [exact Hsel |]. split; [exact Hrot |].
  split; [reflexivity |]. split; reflexivity.
Qed.

Lemma draw_gesture_witness :
  exists s : Shape,
    history
      (run sampleHost (drawGesture sampleDrawDown "s1" [sampleDrawMove])
         sampleEmptyApp)
    = pushToHistory
        (set_shapes (shapes (present (history sampleEmptyApp)) ++ [s])
           (present (history sampleEmptyApp)))
        (history sampleEmptyApp)
    /\ drawnFrom rectangle (mkPoint 10 10) [mkPoint 110 60] s.
Proof.
  destruct (draw_gesture sampleHost sampleEmptyApp sampleDrawDown "s1"
              [sampleDrawMove] eq_refl eq_refl eq_refl)
    as (s & H1 & _ & H3 & _).
  exists s. split; [exact H1 |].
  destruct H3 as (Hx & Hy & Hv & Hw & Hh).
  split; [| split; [| split; [| split]]].
  - rewrite Hx. reflexivity.
  - rewrite Hy. reflexivity.
  - exact Hv.
  - rewrite Hw. reflexivity.
  - rewrite Hh. reflexivity.
Defined.

Lemma mouseMove_pan (host : Host) (h : HistoryState) (u : CanvasUI)
    (p0 : Point) (e : MouseEvent) :
  isPanning u = true -> panStart u = Some p0 ->
  step host (MouseMove e) (mkApp h u)
  = mkApp
      (panViewport (present h) (px (getMousePos host e) - px p0)
         (py (getMousePos host e) - py p0) h)
      (setPanStart (Some (getMousePos host e)) u).
Proof.
  intros Hp Hs. cbn [step history ui]. unfold handleMouseMove.
  rewrite Hp, Hs. reflexivity.
Qed.

Lemma moves_pan (host : Host) (moves : list MouseEvent) :
  forall (h : HistoryState) (u : CanvasUI) (p0 : Point),
    isPanning u = true -> panStart u = Some p0 ->
    exists (v' : ViewportState) (u' : CanvasUI),
      run host (map MouseMove moves) (mkApp h u)
      = mkApp (replacePresent (set_viewport v' (present h)) h) u'
      /\ zoom v' = zoom (viewport (present h))
      /\ offsetX v'
         == offsetX (viewport (present h))
            + (px (last (map (getMousePos host) moves) p0) - px p0)
      /\ offsetY v'
         == offsetY (viewport (present h))
            + (py (last (map (getMousePos host) moves) p0) - py p0)
      /\ isDrawing u' = isDrawing u.
Proof.
  induction moves as [| e moves IH]; intros h u p0 Hp Hs.
  - exists (viewport (present h)), u. cbn [map last].
    split; [| split; [reflexivity | split; [ring | split; [ring |]]]];
      [| reflexivity].
    destruct h as [p c f]. destruct c. reflexivity.
  - cbn [map]. rewrite run_cons, (mouseMove_pan host h u p0 e Hp Hs).
    destruct (IH (panViewport (present h) (px (getMousePos host e) - px p0)
                    (py (getMousePos host e) - py p0) h)
                 (setPanStart (Some (getMousePos host e)) u)
                 (getMousePos host e) Hp eq_refl)
      as (v' & u' & Hrun & Hz & Hx & Hy & Hd).
    exists v', u'. rewrite Hrun, last_cons_default.
    split; [reflexivity |]. split; [exact Hz |].
    split; [| split; [| exact Hd]].
    + rewrite Hx. cbn. ring.
    + rewrite Hy. cbn. ring.
Qed.

(** X18.  A pan gesture (a pointer-down with the middle button, or with
    the primary button and the control key, then move samples, then a
    pointer-up) with no drawing in progress commits nothing and touches
    only the viewport offset of the present snapshot, whatever the
    tool: past, future, shapes, selection, tool, styles and zoom are
    kept.  The per-sample deltas add up to the displacement of the
    pointer from the pointer-down to the last sample, so the canvas
    point that was under the pointer at the start is under it at the
    end.  The component is idle afterwards. *)
Theorem pan_gesture :
  forall (host : Host) (a : AppState) (down : MouseEvent) (newId : string)
         (moves : list MouseEvent),
    isPanClick down = true ->
    isDrawing (ui a) = false ->
    exists v' : ViewportState,
      history (run host (drawGesture down newId moves) a)
      = replacePresent (set_viewport v' (present (history a))) (history a)
      /\ zoom v' = zoom (viewport (present (history a)))
      /\ offsetX v'
         == offsetX (viewport (present (history a)))
            + (px (last (map (getMousePos host) moves)
                     (getMousePos host down))
               - px (getMousePos host down))
      /\ offsetY v'
         == offsetY (viewport (present (history a)))
            + (py (last (map (getMousePos host) moves)
                     (getMousePos host down))
               - py (getMousePos host down))
      /\ (~ zoom (viewport (present (history a))) == 0 ->
          point_eq
            (toCanvas (set_viewport v' (present (history a)))
               (last (map (getMousePos host) moves)
                  (getMousePos host down)))
            (toCanvas (present (history a)) (getMousePos host down)))
      /\ idle (ui (run host (drawGesture down newId moves) a)) = true.
Proof.
  intros host a down newId moves Hpan Hd.
  assert (Hdown :
    step host (MouseDown down newId) a
    = mkApp (history a)
        (setPanStart (Some (getMousePos host down))
           (setIsPanning true (ui a)))).
  { unfold isPanClick in Hpan. cbn [step]. unfold handleMouseDown.
    rewrite Hpan. reflexivity. }
  destruct (moves_pan host moves (history a)
              (setPanStart (Some (getMousePos host down))
                 (setIsPanning true (ui a)))
              (getMousePos host down) eq_refl eq_refl)
    as (v' & u' & Hrun & Hz & Hx & Hy & Hdu).
  exists v'. unfold drawGesture.
  rewrite run_cons, Hdown, run_app, Hrun.
  cbn [isDrawing setPanStart setIsPanning] in Hdu. rewrite Hd in Hdu.
  cbn [run fold_left step history ui]. unfold handleMouseUp. rewrite Hdu.
  split; [reflexivity |]. split; [exact Hz |]. split; [exact Hx |].
  split; [exact Hy |]. split; [| reflexivity].
  intros Hnz. unfold point_eq, toCanvas, screenToCanvas.
  cbn [px py viewport set_viewport]. rewrite Hz, Hx, Hy.
  split; field; exact Hnz.
Qed.

Lemma pan_gesture_witness :
  exists v' : ViewportState,
    history
      (run sampleHost
         (drawGesture (mkMouse 20 20 1 false) "s1"
            [sampleMove1; sampleMove2])
         sampleApp)
    = replacePresent (set_viewport v' (present (history sampleApp)))
        (history sampleApp)
    /\ zoom v' = zoom (viewport (present (history sampleApp)))
    /\ offsetX v' == 10 /\ offsetY v' == 10.
Proof.
  destruct (pan_gesture sampleHost sampleApp (mkMouse 20 20 1 false) "s1"
              [sampleMove1; sampleMove2] eq_refl eq_refl)
    as (v' & H1 & H2 & H3 & H4 & _).
  exists v'. split; [exact H1 |]. split; [exact H2 |].
  split; [rewrite H3 | rewrite H4]; reflexivity.
Defined.

(* ================================================================== *)
(** * The wheel *)
(* ================================================================== *)

Lemma Qgt_bool_true (a b : Q) : b < a -> Qgt_bool a b = true.
Proof.
  intros H. unfold Qgt_bool. destruct (Qle_bool a b) eqn:E; [| reflexivity].
  apply Qle_bool_iff in E. lra.
Qed.

Lemma Qgt_bool_false (a b : Q) : a <= b -> Qgt_bool a b = false.
Proof.
  intros H. unfold Qgt_bool. apply Qle_bool_iff in H. now rewrite H.
Qed.

(** X19.  A wheel event never commits and leaves everything but the
    viewport alone.  With the control key it is a zoom step of 0.1,
    out when [deltaY] is positive and in otherwise (a [deltaY] of 0
    zooms in), clamped to [0.1, 5] and anchored at the pointer: the
    canvas point under the pointer is the same before and after,
    wherever the canvas element sits in the page.  Without the control
    key it keeps the zoom and moves the offset by minus the deltas. *)
Theorem wheel_event :
  forall (host : Host) (a : AppState) (e : WheelEvent),
    past (history (step host (Wheel e) a)) = past (history a)
    /\ future (history (step host (Wheel e) a)) = future (history a)
    /\ ui (step host (Wheel e) a) = ui a
    /\ present (history (step host (Wheel e) a))
       = set_viewport (viewport (present (history (step host (Wheel e) a))))
           (present (history a))
    /\ (wheel_ctrlKey e = true ->
        (0 < wheel_deltaY e ->
         zoom (viewport (present (history (step host (Wheel e) a))))
         = clamp (zoom (viewport (present (history a))) + - (1 # 10))
             (1 # 10) 5)
        /\ (wheel_deltaY e <= 0 ->
            zoom (viewport (present (history (step host (Wheel e) a))))
            = clamp (zoom (viewport (present (history a))) + (1 # 10))
                (1 # 10) 5)
        /\ (~ zoom (viewport (present (history a))) == 0 ->
            point_eq
              (getCanvasMousePos host
                 (present (history (step host (Wheel e) a)))
                 (wheelPointer e))
              (getCanvasMousePos host (present (history a))
                 (wheelPointer e))))
    /\ (wheel_ctrlKey e = false ->
        zoom (viewport (present (history (step host (Wheel e) a))))
        = zoom (viewport (present (history a)))
        /\ offsetX (viewport (present (history (step host (Wheel e) a))))
           = offsetX (viewport (present (history a))) + - wheel_deltaX e
        /\ offsetY (viewport (present (history (step host (Wheel e) a))))
           = offsetY (viewport (present (history a))) + - wheel_deltaY e).
Proof.
  intros host a e. cbn [step history ui]. unfold handleWheel.
  destruct (wheel_ctrlKey e) eqn:Hc.
  - split; [reflexivity |]. split; [reflexivity |]. split; [reflexivity |].
    split; [reflexivity |]. split; [| discriminate].
    intros _. split; [| split].
    + intros Hpos. rewrite (Qgt_bool_true _ _ Hpos). reflexivity.
    + intros Hneg. rewrite (Qgt_bool_false _ _ Hneg). reflexivity.
    + intros Hz.
      set (d := if Qgt_bool (wheel_deltaY e) 0 then - (1 # 10) else 1 # 10).
      assert (Hz' : ~ clamp (zoom (viewport (present (history a))) + d)
                        (1 # 10) 5 == 0).
      { destruct (clamp_range (zoom (viewport (present (history a))) + d)
                    (1 # 10) 5) as [Hlo _]; lra. }
      unfold clamp in Hz'.
      unfold point_eq, getCanvasMousePos, screenToCanvas, getMousePos.
      cbn. split; field; split; assumption.
  - split; [reflexivity |]. split; [reflexivity |]. split; [reflexivity |].
    split; [reflexivity |]. split; [discriminate |].
    intros _. split; [| split]; reflexivity.
Qed.

Lemma wheel_event_witness :
  point_eq
    (getCanvasMousePos sampleHost
       (present (history (step sampleHost (Wheel sampleWheel) sampleApp)))
       (wheelPointer sampleWheel))
    (getCanvasMousePos sampleHost (present (history sampleApp))
       (wheelPointer sampleWheel)).
Proof.
  refine (proj2 (proj2 (proj1 (proj2 (proj2 (proj2 (proj2
            (wheel_event sampleHost sampleApp sampleWheel))))) _)) _).
  - reflexivity.
  - discriminate.
Defined.

(* ================================================================== *)
(** * The touch screen *)
(* ================================================================== *)

Lemma replacePresent_eta (h : HistoryState) :
  replacePresent (set_viewport (viewport (present h)) (present h)) h = h.
Proof. destruct h as [p c f]. destruct c. reflexivity. Qed.

Lemma touch_step (host : Host) (a : AppState) (ev : Event) :
  isTouchEvent ev = true ->
  isDragging (ui a) = false -> isDrawing (ui a) = false ->
  exists v' : ViewportState,
    history (step host ev a)
    = replacePresent (set_viewport v' (present (history a))) (history a)
    /\ isDragging (ui (step host ev a)) = false
    /\ isDrawing (ui (step host ev a)) = false.
Proof.
  intros Hev Hg Hd.
  assert (Same : forall u : CanvasUI,
            isDragging u = false -> isDrawing u = false ->
            exists v' : ViewportState,
              history (mkApp (history a) u)
              = replacePresent (set_viewport v' (present (history a)))
                  (history a)
              /\ isDragging (ui (mkApp (history a) u)) = false
              /\ isDrawing (ui (mkApp (history a) u)) = false).
  { intros u Hu1 Hu2. exists (viewport (present (history a))).
    rewrite replacePresent_eta. cbn. now split. }
  destruct ev; try discriminate; cbn [step].
  - (* touchstart *)
    destruct touches as [| t1 [| t2 [| t3 r]]]; cbn [handleTouchStart fst snd];
      apply Same; assumption.
  - (* touchmove *)
    destruct touches as [| t1 [| t2 [| t3 r]]];
      cbn [handleTouchMove fst snd]; try (apply Same; assumption).
    + destruct (isPanning (ui a)) eqn:Hp; cbn [negb fst snd];
        [apply Same; assumption |].
      unfold handleMouseMove. rewrite Hp, Hg, Hd.
      cbn [fst snd]. apply Same; assumption.
    + destruct (truthy_num (lastTouchDistance (ui a)));
        [| apply Same; assumption].
      destruct (lastTouchDistance (ui a)) as [d |];
        [| apply Same; assumption].
      destruct (panStart (ui a)) as [p0 |]; [| apply Same; assumption].
      destruct (Qgt_bool (Qabs ((getTouchDistance host [t1; t2] - d)
                                * (1 # 100))) (1 # 100));
        destruct (Qgt_bool (Qabs (px (getTouchCenter [t1; t2]) - px p0)) 2
                  || Qgt_bool (Qabs (py (getTouchCenter [t1; t2]) - py p0)) 2)%bool;
        cbn [fst snd]; try (apply Same; assumption);
        (eexists; split; [reflexivity | split; assumption]).
  - (* touchend *)
    destruct touches as [| t1 [| t2 r]]; cbn [handleTouchEnd fst snd];
      try (apply Same; assumption).
    unfold handleMouseUp. rewrite Hd. cbn [fst snd].
    apply Same; reflexivity.
Qed.

(** X20.  With no drag or drawing in progress, no sequence of touch
    events creates, moves, selects or deletes anything or commits to
    the history: a one-finger press ends in [handleMouseDown]'s call of
    [preventDefault] on a plain object before any state is set, so a
    finger can neither draw nor pick, and two fingers only pan and
    zoom.  Past, future, shapes, selection, tool and styles after the
    touches are those of before; only the viewport may differ. *)
Theorem touch_never_edits :
  forall (host : Host) (evs : list Event) (a : AppState),
    forallb isTouchEvent evs = true ->
    isDragging (ui a) = false ->
    isDrawing (ui a) = false ->
    exists v' : ViewportState,
      history (run host evs a)
      = replacePresent (set_viewport v' (present (history a))) (history a)
      /\ isDragging (ui (run host evs a)) = false
      /\ isDrawing (ui (run host evs a)) = false.
Proof.
  intros host evs. induction evs as [| ev evs IH]; intros a Hall Hg Hd.
  - exists (viewport (present (history a))).
    rewrite replacePresent_eta. cbn. now split.
  - cbn [forallb] in Hall. apply andb_prop in Hall as [Hev Hall].
    destruct (touch_step host a ev Hev Hg Hd) as (v1 & H1 & Hg1 & Hd1).
    destruct (IH (step host ev a) Hall Hg1 Hd1) as (v2 & H2 & Hg2 & Hd2).
    exists v2. rewrite run_cons. rewrite H2, H1.
    split; [reflexivity | split; assumption].
Qed.

Lemma touch_never_edits_witness :
  exists v' : ViewportState,
    history (run sampleHost sampleTouches sampleEmptyApp)
    = replacePresent
        (set_viewport v' (present (history sampleEmptyApp)))
        (history sampleEmptyApp).
Proof.
  destruct (touch_never_edits sampleHost sampleTouches sampleEmptyApp
              eq_refl eq_refl eq_refl) as (v' & H & _).
  exists v'. exact H.
Defined.

(* ================================================================== *)
(** * The select tool's pointer-down *)
(* ================================================================== *)

(** X21.  With the select tool, every pointer-down that is not a pan
    click commits a snapshot, whether it hits a shape or not (so a
    click on empty canvas costs an undo step although nothing visible
    changes).  The committed snapshot selects the id of the picked
    shape, or nothing on a miss; differs from the document only in the
    selection and the [selected] flags; and has the flag of every shape
    say whether the shape's id is the selected one.  A hit starts a
    drag, a miss starts a pan. *)
Theorem select_click :
  forall (host : Host) (a : AppState) (e : MouseEvent) (newId : string),
    currentTool (present (history a)) = select ->
    isPanClick e = false ->
    exists c' : CanvasState,
      history (step host (MouseDown e newId) a)
      = pushToHistory c' (history a)
      /\ selectedShapeId c'
         = option_map (fun s : Shape => id s)
             (getShapeAtPoint (Math_cos host) (Math_sin host)
                (getCanvasMousePos host (present (history a)) e)
                (shapes (present (history a))))
      /\ shapes c'
         = map (fun s : Shape =>
                  set_selected (Some (id_is (id s) (selectedShapeId c'))) s)
             (shapes (present (history a)))
      /\ c' = set_selection (shapes c') (selectedShapeId c')
                (present (history a))
      /\ isDragging (ui (step host (MouseDown e newId) a))
         = match selectedShapeId c' with
           | Some _ => true
           | None => isDragging (ui a)
           end
      /\ isPanning (ui (step host (MouseDown e newId) a))
         = match selectedShapeId c' with
           | Some _ => isPanning (ui a)
           | None => true
           end.
Proof.
  intros host a e newId Htool Hpan. unfold isPanClick in Hpan.
  cbn [step]. unfold handleMouseDown. rewrite Hpan, Htool.
  destruct (getShapeAtPoint (Math_cos host) (Math_sin host)
              (getCanvasMousePos host (present (history a)) e)
              (shapes (present (history a)))) as [clicked |];
    eexists; (split; [reflexivity |]);
    cbn [selectedShapeId set_selection shapes option_map id_is];
    repeat match goal with |- _ /\ _ => split end; reflexivity.
Qed.

Lemma select_click_witness :
  exists c' : CanvasState,
    history (step sampleHost (MouseDown sampleDown "s1") sampleApp)
    = pushToHistory c' (history sampleApp)
    /\ selectedShapeId c' = Some "r1"%string.
Proof.
  destruct (select_click sampleHost sampleApp sampleDown "s1"
              eq_refl eq_refl) as (c' & H1 & H2 & _).
  exists c'. split; [exact H1 |]. rewrite H2. reflexivity.
Defined.

(* ================================================================== *)
(** * The SVG export *)
(* ================================================================== *)

Lemma fold_num_min_finite (l : list Q) :
  forall n : Num,
    n = Infinity \/ (exists m : Q, n = Fin m) ->
    fold_left num_min (map Fin l) n = Infinity
    \/ (exists m : Q, fold_left num_min (map Fin l) n = Fin m).
Proof.
  induction l as [| v l IH]; intros n Hn; [exact Hn |].
  cbn [map fold_left]. apply IH. right.
  destruct Hn as [-> | [m ->]]; eexists; reflexivity.
Qed.

Lemma fold_num_max_finite (l : list Q) :
  forall n : Num,
    n = NegInfinity \/ (exists m : Q, n = Fin m) ->
    fold_left num_max (map Fin l) n = NegInfinity
    \/ (exists m : Q, fold_left num_max (map Fin l) n = Fin m).
Proof.
  induction l as [| v l IH]; intros n Hn; [exact Hn |].
  cbn [map fold_left]. apply IH. right.
  destruct Hn as [-> | [m ->]]; eexists; reflexivity.
Qed.

Lemma fold_num_min_keeps (l : list Q) (v : Q) :
  forall n : Num,
    atMost v n -> atMost v (fold_left num_min (map Fin l) n).
Proof.
  induction l as [| u l IH]; intros n Hn; [exact Hn |].
  cbn [map fold_left]. apply IH.
  destruct n as [m | | |]; cbn in Hn |- *; try contradiction.
  apply Q.min_le_iff. now left.
Qed.

Lemma fold_num_max_keeps (l : list Q) (v : Q) :
  forall n : Num,
    atLeast v n -> atLeast v (fold_left num_max (map Fin l) n).
Proof.
  induction l as [| u l IH]; intros n Hn; [exact Hn |].
  cbn [map fold_left]. apply IH.
  destruct n as [m | | |]; cbn in Hn |- *; try contradiction.
  apply Q.max_le_iff. now left.
Qed.

Lemma fold_num_min_below (l : list Q) (v : Q) :
  forall n : Num,
    n = Infinity \/ (exists m : Q, n = Fin m) ->
    In v l -> atMost v (fold_left num_min (map Fin l) n).
Proof.
  induction l as [| u l IH]; intros n Hn Hin; [contradiction |].
  cbn [map fold_left]. destruct Hin as [-> | Hin].
  - apply fold_num_min_keeps.
    destruct Hn as [-> | [m ->]]; cbn; [apply Qle_refl | apply Q.le_min_r].
  - apply IH; [| exact Hin]. right.
    destruct Hn as [-> | [m ->]]; eexists; reflexivity.
Qed.

Lemma fold_num_max_above (l : list Q) (v : Q) :
  forall n : Num,
    n = NegInfinity \/ (exists m : Q, n = Fin m) ->
    In v l -> atLeast v (fold_left num_max (map Fin l) n).
Proof.
  induction l as [| u l IH]; intros n Hn Hin; [contradiction |].
  cbn [map fold_left]. destruct Hin as [-> | Hin].
  - apply fold_num_max_keeps.
    destruct Hn as [-> | [m ->]]; cbn; [apply Qle_refl | apply Q.le_max_r].
  - apply IH; [| exact Hin]. right.
    destruct Hn as [-> | [m ->]]; eexists; reflexivity.
Qed.

(** Each extreme of the export is the fold of the numbers the shapes
    hand to it. *)
Lemma growExtremes_folds (s : Shape) (e : Extremes) :
  minX (growExtremes e s) = fold_left num_min (map Fin (lowXs s)) (minX e)
  /\ minY (growExtremes e s) = fold_left num_min (map Fin (lowYs s)) (minY e)
  /\ maxX (growExtremes e s) = fold_left num_max (map Fin (highXs s)) (maxX e)
  /\ maxY (growExtremes e s)
     = fold_left num_max (map Fin (highYs s)) (maxY e).
Proof.
  destruct s as [o v]. unfold growExtremes, lowXs, lowYs, highXs, highYs.
  destruct v as [pts | | | ex ey | ex ey | t f g]; cbn [variant];
    try (repeat split; reflexivity).
  revert e. induction pts as [| p pts IH]; intros e;
    [repeat split; reflexivity |].
  cbn [fold_left map]. apply IH.
Qed.

Lemma extremes_fold (l : list Shape) :
  forall e : Extremes,
    minX (fold_left growExtremes l e)
    = fold_left num_min (map Fin (flat_map lowXs l)) (minX e)
    /\ minY (fold_left growExtremes l e)
       = fold_left num_min (map Fin (flat_map lowYs l)) (minY e)
    /\ maxX (fold_left growExtremes l e)
       = fold_left num_max (map Fin (flat_map highXs l)) (maxX e)
    /\ maxY (fold_left growExtremes l e)
       = fold_left num_max (map Fin (flat_map highYs l)) (maxY e).
Proof.
  induction l as [| s l IH]; intros e; [repeat split; reflexivity |].
  cbn [fold_left flat_map]. rewrite !map_app, !fold_left_app.
  destruct (growExtremes_folds s e) as (E1 & E2 & E3 & E4).
  rewrite <- E1, <- E2, <- E3, <- E4. apply IH.
Qed.

Lemma svg_frame_shape (l : list Shape) (s : Shape) (el : SvgElement) :
  In s l ->
  In el
    (svgElements
       (minX (fold_left growExtremes l
                (mkExtremes Infinity Infinity NegInfinity NegInfinity)))
       (minY (fold_left growExtremes l
                (mkExtremes Infinity Infinity NegInfinity NegInfinity)))
       20 s) ->
  exists W H : Q,
    num_add
      (num_sub
         (maxX (fold_left growExtremes l
                  (mkExtremes Infinity Infinity NegInfinity NegInfinity)))
         (minX (fold_left growExtremes l
                  (mkExtremes Infinity Infinity NegInfinity NegInfinity))))
      (Fin (20 * 2)) = Fin W
    /\ num_add
         (num_sub
            (maxY (fold_left growExtremes l
                     (mkExtremes Infinity Infinity NegInfinity NegInfinity)))
            (minY (fold_left growExtremes l
                     (mkExtremes Infinity Infinity NegInfinity NegInfinity))))
         (Fin (20 * 2)) = Fin H
    /\ finiteElement el
    /\ (nonNegativeBox s -> inFrame 20 W H el).
Proof.
  intros Hs.
  destruct (extremes_fold l
              (mkExtremes Infinity Infinity NegInfinity NegInfinity))
    as (E1 & E2 & E3 & E4).
  cbn [minX minY maxX maxY] in E1, E2, E3, E4.
  set (e := fold_left growExtremes l
              (mkExtremes Infinity Infinity NegInfinity NegInfinity)) in *.
  assert (HX : forall v, In v (lowXs s) -> atMost v (minX e)).
  { intros v Hv. rewrite E1. apply fold_num_min_below; [now left |].
    apply in_flat_map. now exists s. }
  assert (HY : forall v, In v (lowYs s) -> atMost v (minY e)).
  { intros v Hv. rewrite E2. apply fold_num_min_below; [now left |].
    apply in_flat_map. now exists s. }
  assert (HXh : forall v, In v (highXs s) -> atLeast v (maxX e)).
  { intros v Hv. rewrite E3. apply fold_num_max_above; [now left |].
    apply in_flat_map. now exists s. }
  assert (HYh : forall v, In v (highYs s) -> atLeast v (maxY e)).
  { intros v Hv. rewrite E4. apply fold_num_max_above; [now left |].
    apply in_flat_map. now exists s. }
  clearbody e. clear E1 E2 E3 E4 Hs.
  destruct s as [o v]. unfold lowXs, lowYs, highXs, highYs in *.
  unfold svgElements, nonNegativeBox, isBoxShape, within.
  destruct v as [pts | | | ex ey | ex ey | t f g];
    cbn [variant base] in *.
  - (* pen *)
    destruct pts as [| p0 [| p1 pts]]; cbn [length Nat.ltb Nat.leb];
      try contradiction.
    pose proof (HX (px p0) (or_introl eq_refl)) as A1.
    pose proof (HY (py p0) (or_introl eq_refl)) as A2.
    pose proof (HXh (px p0) (or_introl eq_refl)) as A3.
    pose proof (HYh (py p0) (or_introl eq_refl)) as A4.
    destruct (minX e) as [mx | | |], (minY e) as [my | | |],
      (maxX e) as [Mx | | |], (maxY e) as [My | | |];
      try contradiction.
    intros [<- | []]. do 2 eexists.
    split; [reflexivity |]. split; [reflexivity |].
    cbn [inFrame finiteElement]. unfold within. split.
    + apply Forall_forall. intros q Hq.
      apply in_map_iff in Hq as (p & <- & Hp).
      cbn. split; eexists; reflexivity.
    + intros _. apply Forall_forall. intros q Hq.
      apply in_map_iff in Hq as (p & <- & Hp).
      pose proof (HX (px p) (in_map px _ _ Hp)) as B1.
      pose proof (HY (py p) (in_map py _ _ Hp)) as B2.
      pose proof (HXh (px p) (in_map px _ _ Hp)) as B3.
      pose proof (HYh (py p) (in_map py _ _ Hp)) as B4.
      cbn in B1, B2, B3, B4 |- *. repeat split; lra.
  - (* rectangle *)
    pose proof (HX _ (or_introl eq_refl)) as A1.
    pose proof (HY _ (or_introl eq_refl)) as A2.
    pose proof (HXh _ (or_introl eq_refl)) as A3.
    pose proof (HYh _ (or_introl eq_refl)) as A4.
    destruct (minX e) as [mx | | |], (minY e) as [my | | |],
      (maxX e) as [Mx | | |], (maxY e) as [My | | |];
      try contradiction.
    intros [<- | []]. do 2 eexists.
    split; [reflexivity |]. split; [reflexivity |].
    cbn [inFrame finiteElement]. unfold within. split.
    + cbn. split; eexists; reflexivity.
    + intros Hn. destruct (Hn eq_refl) as [Hw Hh].
      cbn in A1, A2, A3, A4 |- *. repeat split; lra.
  - (* circle *)
    pose proof (HX _ (or_introl eq_refl)) as A1.
    pose proof (HY _ (or_introl eq_refl)) as A2.
    pose proof (HXh _ (or_introl eq_refl)) as A3.
    pose proof (HYh _ (or_introl eq_refl)) as A4.
    destruct (minX e) as [mx | | |], (minY e) as [my | | |],
      (maxX e) as [Mx | | |], (maxY e) as [My | | |];
      try contradiction.
    intros [<- | []]. do 2 eexists.
    split; [reflexivity |]. split; [reflexivity |].
    cbn [inFrame finiteElement]. unfold within. split.
    + cbn. split; eexists; reflexivity.
    + intros Hn. destruct (Hn eq_refl) as [Hw Hh].
      cbn in A1, A2, A3, A4 |- *.
      pose proof (Q.le_min_l (width o) (height o)) as R1.
      pose proof (Q.le_min_r (width o) (height o)) as R2.
      assert (R0 : 0 <= Qmin (width o) (height o))
        by (apply Q.min_glb; assumption).
      assert (D0 : 0 <= Qmin (width o) (height o) / 2)
        by (unfold Qdiv; apply Qmult_le_0_compat; [exact R0 | discriminate]).
      assert (D1 : Qmin (width o) (height o) / 2 <= width o / 2)
        by (unfold Qdiv; apply Qmult_le_compat_r; [exact R1 | discriminate]).
      assert (D2 : Qmin (width o) (height o) / 2 <= height o / 2)
        by (unfold Qdiv; apply Qmult_le_compat_r; [exact R2 | discriminate]).
      assert (W2 : width o / 2 + width o / 2 == width o) by field.
      assert (H2 : height o / 2 + height o / 2 == height o) by field.
      repeat split; lra.
  - (* line *)
    pose proof (HX _ (or_introl eq_refl)) as A1.
    pose proof (HY _ (or_introl eq_refl)) as A2.
    pose proof (HXh _ (or_introl eq_refl)) as A3.
    pose proof (HYh _ (or_introl eq_refl)) as A4.
    pose proof (HX _ (or_intror (or_introl eq_refl))) as B1.
    pose proof (HY _ (or_intror (or_introl eq_refl))) as B2.
    pose proof (HXh _ (or_intror (or_introl eq_refl))) as B3.
    pose proof (HYh _ (or_intror (or_introl eq_refl))) as B4.
    destruct (minX e) as [mx | | |], (minY e) as [my | | |],
      (maxX e) as [Mx | | |], (maxY e) as [My | | |];
      try contradiction.
    intros [<- | []]. do 2 eexists.
    split; [reflexivity |]. split; [reflexivity |].
    cbn [inFrame finiteElement]. unfold within. split.
    + cbn. repeat split; eexists; reflexivity.
    + intros _. cbn in A1, A2, A3, A4, B1, B2, B3, B4 |- *.
      repeat split; lra.
  - (* arrow *)
    intros [].
  - (* text *)
    pose proof (HX _ (or_introl eq_refl)) as A1.
    pose proof (HY _ (or_introl eq_refl)) as A2.
    pose proof (HXh _ (or_introl eq_refl)) as A3.
    pose proof (HYh _ (or_introl eq_refl)) as A4.
    destruct (minX e) as [mx | | |], (minY e) as [my | | |],
      (maxX e) as [Mx | | |], (maxY e) as [My | | |];
      try contradiction.
    intros [<- | []]. do 2 eexists.
    split; [reflexivity |]. split; [reflexivity |].
    cbn [inFrame finiteElement]. unfold within. split.
    + cbn. split; eexists; reflexivity.
    + intros Hn. destruct (Hn eq_refl) as [Hw Hh].
      cbn in A1, A2, A3, A4 |- *. repeat split; lra.
Qed.

Lemma svgElements_length (mx my : Num) (pad : Q) (s : Shape) :
  length (svgElements mx my pad s) = if isExported s then 1%nat else 0%nat.
Proof.
  destruct s as [o v]. unfold svgElements, isExported.
  destruct v as [pts | | | ex ey | ex ey | t f g]; cbn [variant];
    try reflexivity.
  destruct (1 <? length pts)%nat; reflexivity.
Qed.

Lemma flat_map_svg_length (mx my : Num) (pad : Q) (l : list Shape) :
  length (flat_map (svgElements mx my pad) l)
  = length (filter isExported l).
Proof.
  induction l as [| s l IH]; [reflexivity |].
  cbn [flat_map filter]. rewrite length_app, svgElements_length, IH.
  destruct (isExported s); reflexivity.
Qed.

Lemma exportToSVG_some (c : CanvasState) (d : SvgDocument) :
  exportToSVG c = Some d ->
  d = mkSvg
        (num_add
           (num_sub
              (maxX (fold_left growExtremes (shapes c)
                       (mkExtremes Infinity Infinity NegInfinity
                          NegInfinity)))
              (minX (fold_left growExtremes (shapes c)
                       (mkExtremes Infinity Infinity NegInfinity
                          NegInfinity))))
           (Fin (20 * 2)))
        (num_add
           (num_sub
              (maxY (fold_left growExtremes (shapes c)
                       (mkExtremes Infinity Infinity NegInfinity
                          NegInfinity)))
              (minY (fold_left growExtremes (shapes c)
                       (mkExtremes Infinity Infinity NegInfinity
                          NegInfinity))))
           (Fin (20 * 2)))
        (flat_map
           (svgElements
              (minX (fold_left growExtremes (shapes c)
                       (mkExtremes Infinity Infinity NegInfinity
                          NegInfinity)))
              (minY (fold_left growExtremes (shapes c)
                       (mkExtremes Infinity Infinity NegInfinity
                          NegInfinity)))
              20)
           (shapes c)).
Proof.
  unfold exportToSVG. destruct (shapes c) as [| s0 l0]; [discriminate |].
  intros H. injection H as H. symmetry. exact H.
Qed.

(** X22.  The SVG export writes a picture exactly when the document has
    a shape.  It writes one element for each rectangle, circle, line
    and text and for each pen stroke of at least two points, in the
    order of the document, and none for an arrow or a shorter stroke
    (which still count for the size of the picture).  Whenever it
    writes an element, the declared width and height and the position
    of the element are finite numbers.  When no rectangle, circle or
    text of the document has a negative width or height, every element
    lies inside the padding of 20: each of its coordinates, the
    opposite corner of a rectangle and the centre of a circle minus and
    plus its radius included, is between 20 and the declared size
    minus 20.  (A rectangle drawn leftwards has a negative width; the
    extremes take its origin for the left and its origin plus the
    width for the right, and the origin may then lie outside the
    picture.) *)
Theorem svg_export_frame :
  forall c : CanvasState,
    (exportToSVG c = None <-> shapes c = [])
    /\ (forall d : SvgDocument,
          exportToSVG c = Some d ->
          length (svg_body d) = length (filter isExported (shapes c))
          /\ (forall el : SvgElement,
                In el (svg_body d) ->
                exists W H : Q,
                  svg_width d = Fin W /\ svg_height d = Fin H
                  /\ finiteElement el
                  /\ (Forall nonNegativeBox (shapes c) ->
                      inFrame 20 W H el))).
Proof.
  intros c. unfold exportToSVG. split.
  - destruct (shapes c); split; intros H; try reflexivity; discriminate.
  - intros d Hd. apply exportToSVG_some in Hd. subst d.
    cbn [svg_body svg_width svg_height]. split.
    + apply flat_map_svg_length.
    + intros el Hel. apply in_flat_map in Hel as (s & Hs & Hel).
      destruct (svg_frame_shape (shapes c) s el Hs Hel)
        as (W & H & HW & HH & Hfin & Hin).
      exists W, H. split; [exact HW |]. split; [exact HH |].
      split; [exact Hfin |].
      intros Hall. apply Hin.
      exact (proj1 (Forall_forall _ _) Hall s Hs).
Qed.

Lemma svg_export_frame_witness :
  exists (d : SvgDocument) (el : SvgElement) (W H : Q),
    exportToSVG sampleMixed = Some d
    /\ In el (svg_body d)
    /\ svg_width d = Fin W /\ svg_height d = Fin H
    /\ inFrame 20 W H el.
Proof.
  destruct (proj2 (proj2 (svg_export_frame sampleMixed)
                     (mkSvg (Fin 150) (Fin 100)
                        [SvgRect (Fin 30) (Fin 30) 100 50
                           "#ffffff" "transparent" 2])
                     eq_refl)
              (SvgRect (Fin 30) (Fin 30) 100 50 "#ffffff" "transparent" 2)
              (or_introl eq_refl))
    as (W & H & HW & HH & _ & Hin).
  exists (mkSvg (Fin 150) (Fin 100)
            [SvgRect (Fin 30) (Fin 30) 100 50 "#ffffff" "transparent" 2]),
    (SvgRect (Fin 30) (Fin 30) 100 50 "#ffffff" "transparent" 2), W, H.
  split; [reflexivity |]. split; [now left |].
  split; [exact HW |]. split; [exact HH |].
  apply Hin. repeat constructor; intros Hb; try discriminate Hb;
    split; discriminate.
Defined.

(* ================================================================== *)
(** * The keyboard *)
(* ================================================================== *)

Ltac split_key e :=
  repeat match goal with
         | |- context [String.eqb (kb_key e) ?k] =>
             let E := fresh "E" in
             destruct (String.eqb_spec (kb_key e) k) as [E | ?];
             [rewrite ?E; clear E |]
         end.

(** X23.  A key press performs at most one command: the three blocks
    of the handler (shortcuts with Control or Meta, delete keys, tool
    keys) never fire together, and what the handler queues is what the
    single event [keyCommand] names does, or nothing.  The tool keys
    are not guarded by the modifiers: v, p, r, c, l, a and t switch the
    tool with Control or Meta held as well (Control-C selects the
    circle tool), and so do Delete and Backspace delete.  Keys are
    compared as they are, so an upper-case Z is no shortcut.  Nothing
    fires while the target is an input or a text area. *)
Theorem key_press_single_command :
  forall (host : Host) (e : KeyboardEvent) (h : HistoryState) (u : CanvasUI),
    handleKeyDown (present h) e h
    = match keyCommand e with
      | Some ev => history (step host ev (mkApp h u))
      | None => h
      end
    /\ (forall t : Tool,
          toolOfKey (kb_key e) = Some t ->
          kb_targetTag e <> "INPUT"%string ->
          kb_targetTag e <> "TEXTAREA"%string ->
          handleKeyDown (present h) e h = setCurrentTool (present h) t h)
    /\ (kb_key e = "Z"%string -> handleKeyDown (present h) e h = h).
Proof.
  intros host e h u.
  assert (Main : handleKeyDown (present h) e h
                 = match keyCommand e with
                   | Some ev => history (step host ev (mkApp h u))
                   | None => h
                   end).
  { unfold handleKeyDown, keyCommand, toolOfKey.
    destruct (String.eqb (kb_targetTag e) "INPUT"
              || String.eqb (kb_targetTag e) "TEXTAREA")%bool;
      [reflexivity |].
    split_key e; cbn;
      destruct (kb_ctrlKey e), (kb_metaKey e), (kb_shiftKey e);
      reflexivity. }
  split; [exact Main |]. split.
  - intros t Ht Hi Ha. rewrite Main. unfold keyCommand.
    destruct (String.eqb_spec (kb_targetTag e) "INPUT"); [contradiction |].
    destruct (String.eqb_spec (kb_targetTag e) "TEXTAREA");
      [contradiction |].
    cbn [orb]. rewrite Ht. reflexivity.
  - intros HZ. unfold handleKeyDown. rewrite HZ. cbn.
    destruct (String.eqb (kb_targetTag e) "INPUT"
              || String.eqb (kb_targetTag e) "TEXTAREA")%bool;
      [reflexivity |].
    destruct (kb_ctrlKey e || kb_metaKey e)%bool; reflexivity.
Qed.

Lemma key_press_single_command_witness :
  handleKeyDown sampleDoc sampleCtrlC sampleHistory
  = setCurrentTool sampleDoc circle sampleHistory.
Proof.
  refine (proj1 (proj2 (key_press_single_command sampleHost sampleCtrlC
                          sampleHistory initialUI)) circle _ _ _).
  - reflexivity.
  - discriminate.
  - discriminate.
Defined.

(* ================================================================== *)
(** * The zoom along every run of the application *)
(* ================================================================== *)

(** X24.  Starting from a history all of whose snapshots have a zoom in
    [0.1, 5], and as long as no document with a zoom outside that range
    is imported, every snapshot the history holds after any events
    (past and future included, so also what Undo and Redo bring back)
    has a zoom in [0.1, 5].  The zoom of the reached snapshot is then
    never 0, and its two coordinate transforms are inverse to each
    other at every point. *)
Theorem zoom_invariant_reachable :
  forall (host : Host) (evs : list Event) (a : AppState) (p : Point),
    Forall event_zoom_ok evs ->
    history_zoom_ok (history a) ->
    history_zoom_ok (history (run host evs a))
    /\ ~ zoom (viewport (present (history (run host evs a)))) == 0
    /\ point_eq
         (toScreen (present (history (run host evs a)))
            (toCanvas (present (history (run host evs a))) p))
         p
    /\ point_eq
         (toCanvas (present (history (run host evs a)))
            (toScreen (present (history (run host evs a))) p))
         p.
Proof.
  intros host evs a p Hev Ha.
  pose proof (reachable_zoom_ok host evs Hev a Ha) as Hz.
  assert (Hnz : ~ zoom (viewport (present (history (run host evs a)))) == 0).
  { destruct Hz as (_ & [Hlo _] & _). intros E. rewrite E in Hlo.
    revert Hlo. apply Qlt_not_le. reflexivity. }
  split; [exact Hz |]. split; [exact Hnz |]. split.
  - now apply canvasToScreen_screenToCanvas.
  - now apply screenToCanvas_canvasToScreen.
Qed.

Lemma zoom_invariant_reachable_witness :
  history_zoom_ok
    (history
       (run sampleHost
          [ZoomOut; Wheel sampleWheel; MouseDown sampleDown "s1"; Undo]
          sampleApp)).
Proof.
  refine (proj1 (zoom_invariant_reachable sampleHost
                   [ZoomOut; Wheel sampleWheel; MouseDown sampleDown "s1";
                    Undo]
                   sampleApp (mkPoint 0 0) _ _)).
  - repeat constructor.
  - split; [| split].
    + repeat constructor; discriminate.
    + split; discriminate.
    + constructor.
Defined.

(* ================================================================== *)
(** * More on the import *)
(* ================================================================== *)

Lemma lookup_assign_other (k k' : string) (v : JSValue)
    (l : list (string * JSValue)) :
  k <> k' -> lookup k (assign k' v l) = lookup k l.
Proof.
  intros Hk. induction l as [| [k0 v0] l IH]; cbn.
  - destruct (String.eqb_spec k k'); [contradiction | reflexivity].
  - destruct (String.eqb_spec k' k0) as [<- | N]; cbn.
    + destruct (String.eqb_spec k k'); [contradiction | reflexivity].
    + destruct (String.eqb k k0); [reflexivity | exact IH].
Qed.

(** X25.  Whatever the import resolves with is the parsed value with at
    most its [viewport] replaced: it is an object or array, every other
    property and every array element is as parsed (nothing is checked,
    added or dropped, a missing [shapes] included), its [viewport] is
    truthy, and is the parsed one whenever that was truthy.  Importing
    the outcome again resolves with the same value. *)
Theorem import_keeps_rest :
  forall parsed st : JSValue,
    importFromJSON (Loaded (Some parsed)) = Resolve st ->
    is_object st = true
    /\ (forall k : string,
          k <> "viewport"%string -> property k st = property k parsed)
    /\ elements st = elements parsed
    /\ (exists vp : JSValue,
          property "viewport" st = Some vp /\ truthy vp = true
          /\ (forall vp0 : JSValue,
                property "viewport" parsed = Some vp0 ->
                truthy vp0 = true -> vp = vp0))
    /\ importFromJSON (Loaded (Some st)) = Resolve st.
Proof.
  intros parsed st.
  destruct parsed as [| b | q | s | items own | own]; cbn; try discriminate.
  - destruct (lookup "viewport" own) as [vp |] eqn:E; cbn;
      [destruct (truthy vp) eqn:T; cbn |]; intros [= <-]; cbn.
    + rewrite E. cbn. rewrite T. cbn.
      split; [reflexivity |]. split; [reflexivity |].
      split; [reflexivity |]. split; [| reflexivity].
      exists vp. split; [reflexivity |]. split; [exact T |].
      now intros vp0 [= <-] _.
    + rewrite lookup_assign. cbn.
      split; [reflexivity |].
      split; [intros k Hk; now apply lookup_assign_other |].
      split; [reflexivity |]. split; [| reflexivity].
      exists defaultViewport. split; [reflexivity |].
      split; [reflexivity |]. intros vp0 [= <-] T0. congruence.
    + rewrite lookup_assign. cbn.
      split; [reflexivity |].
      split; [intros k Hk; now apply lookup_assign_other |].
      split; [reflexivity |]. split; [| reflexivity].
      exists defaultViewport. split; [reflexivity |].
      split; [reflexivity |]. discriminate.
  - destruct (lookup "viewport" own) as [vp |] eqn:E; cbn;
      [destruct (truthy vp) eqn:T; cbn |]; intros [= <-]; cbn.
    + rewrite E. cbn. rewrite T. cbn.
      split; [reflexivity |]. split; [reflexivity |].
      split; [reflexivity |]. split; [| reflexivity].
      exists vp. split; [reflexivity |]. split; [exact T |].
      now intros vp0 [= <-] _.
    + rewrite lookup_assign. cbn.
      split; [reflexivity |].
      split; [intros k Hk; now apply lookup_assign_other |].
      split; [reflexivity |]. split; [| reflexivity].
      exists defaultViewport. split; [reflexivity |].
      split; [reflexivity |]. intros vp0 [= <-] T0. congruence.
    + rewrite lookup_assign. cbn.
      split; [reflexivity |].
      split; [intros k Hk; now apply lookup_assign_other |].
      split; [reflexivity |]. split; [| reflexivity].
      exists defaultViewport. split; [reflexivity |].
      split; [reflexivity |]. discriminate.
Qed.

Lemma import_keeps_rest_witness :
  importFromJSON (Loaded (Some sampleNullViewport))
  = Resolve
      (JSObject
         [("shapes", JSArray [] []); ("viewport", defaultViewport)]%string)
  /\ property "shapes"
       (JSObject
          [("shapes", JSArray [] []); ("viewport", defaultViewport)]%string)
     = property "shapes" sampleNullViewport.
Proof.
  split; [reflexivity |].
  refine (proj1 (proj2 (import_keeps_rest sampleNullViewport _ _))
            "shapes"%string _).
  - reflexivity.
  - discriminate.
Defined.

(* ================================================================== *)
(** * The SVG export does not depend on the position of the drawing *)
(* ================================================================== *)

Lemma num_min_shift (n n' : Num) (v v' d : Q) :
  num_eq n' (num_add n (Fin d)) -> v' == v + d ->
  num_eq (num_min n' (Fin v')) (num_add (num_min n (Fin v)) (Fin d)).
Proof.
  intros Hn Hv. destruct n, n'; cbn in Hn |- *; try contradiction;
    try exact I; try exact Hv.
  rewrite Hn, Hv. apply Q.plus_min_distr_r.
Qed.

Lemma num_max_shift (n n' : Num) (v v' d : Q) :
  num_eq n' (num_add n (Fin d)) -> v' == v + d ->
  num_eq (num_max n' (Fin v')) (num_add (num_max n (Fin v)) (Fin d)).
Proof.
  intros Hn Hv. destruct n, n'; cbn in Hn |- *; try contradiction;
    try exact I; try exact Hv.
  rewrite Hn, Hv. apply Q.plus_max_distr_r.
Qed.

Lemma fold_num_min_shift (d : Q) (l l' : list Q) :
  Forall2 (fun v' v => v' == v + d) l' l ->
  forall n n' : Num,
    num_eq n' (num_add n (Fin d)) ->
    num_eq (fold_left num_min (map Fin l') n')
      (num_add (fold_left num_min (map Fin l) n) (Fin d)).
Proof.
  induction 1 as [| v' v l' l Hv _ IH]; intros n n' Hn; [exact Hn |].
  cbn [map fold_left]. apply IH. now apply num_min_shift.
Qed.

Lemma fold_num_max_shift (d : Q) (l l' : list Q) :
  Forall2 (fun v' v => v' == v + d) l' l ->
  forall n n' : Num,
    num_eq n' (num_add n (Fin d)) ->
    num_eq (fold_left num_max (map Fin l') n')
      (num_add (fold_left num_max (map Fin l) n) (Fin d)).
Proof.
  induction 1 as [| v' v l' l Hv _ IH]; intros n n' Hn; [exact Hn |].
  cbn [map fold_left]. apply IH. now apply num_max_shift.
Qed.

Lemma Forall2_shift_map (f : Point -> Q) (g : Point -> Point) (d : Q)
    (pts : list Point) :
  (forall p, f (g p) == f p + d) ->
  Forall2 (fun v' v => v' == v + d) (map f (map g pts)) (map f pts).
Proof.
  intros H. induction pts as [| p pts IH]; cbn; constructor;
    [apply H | exact IH].
Qed.

(** The numbers a moved shape hands to the extremes are those of the
    shape, moved. *)
Lemma contributions_moveShape (s : Shape) (dx dy : Q) :
  Forall2 (fun v' v => v' == v + dx) (lowXs (moveShape s dx dy)) (lowXs s)
  /\ Forall2 (fun v' v => v' == v + dy) (lowYs (moveShape s dx dy)) (lowYs s)
  /\ Forall2 (fun v' v => v' == v + dx)
       (highXs (moveShape s dx dy)) (highXs s)
  /\ Forall2 (fun v' v => v' == v + dy)
       (highYs (moveShape s dx dy)) (highYs s).
Proof.
  destruct s as [o v]. unfold lowXs, lowYs, highXs, highYs.
  destruct v as [pts | | | ex ey | ex ey | t f g];
    cbn [moveShape variant base x y width height set_xy];
    try (repeat split; repeat constructor; cbn; ring).
  repeat split;
    apply (Forall2_shift_map _
             (fun p => mkPoint (px p + dx) (py p + dy)));
    intros p; reflexivity.
Qed.

Lemma Forall2_flat_map_shift (f : Shape -> list Q) (g : Shape -> Shape)
    (d : Q) (l : list Shape) :
  (forall s, Forall2 (fun v' v => v' == v + d) (f (g s)) (f s)) ->
  Forall2 (fun v' v => v' == v + d)
    (flat_map f (map g l)) (flat_map f l).
Proof.
  intros H. induction l as [| s l IH]; cbn; [constructor |].
  apply Forall2_app; [apply H | exact IH].
Qed.

Lemma extremes_translated (l : list Shape) (dx dy : Q) :
  num_eq
    (minX (fold_left growExtremes (map (fun s => moveShape s dx dy) l)
             (mkExtremes Infinity Infinity NegInfinity NegInfinity)))
    (num_add
       (minX (fold_left growExtremes l
                (mkExtremes Infinity Infinity NegInfinity NegInfinity)))
       (Fin dx))
  /\ num_eq
       (minY (fold_left growExtremes (map (fun s => moveShape s dx dy) l)
                (mkExtremes Infinity Infinity NegInfinity NegInfinity)))
       (num_add
          (minY (fold_left growExtremes l
                   (mkExtremes Infinity Infinity NegInfinity NegInfinity)))
          (Fin dy))
  /\ num_eq
       (maxX (fold_left growExtremes (map (fun s => moveShape s dx dy) l)
                (mkExtremes Infinity Infinity NegInfinity NegInfinity)))
       (num_add
          (maxX (fold_left growExtremes l
                   (mkExtremes Infinity Infinity NegInfinity NegInfinity)))
          (Fin dx))
  /\ num_eq
       (maxY (fold_left growExtremes (map (fun s => moveShape s dx dy) l)
                (mkExtremes Infinity Infinity NegInfinity NegInfinity)))
       (num_add
          (maxY (fold_left growExtremes l
                   (mkExtremes Infinity Infinity NegInfinity NegInfinity)))
          (Fin dy)).
Proof.
  destruct (extremes_fold l
              (mkExtremes Infinity Infinity NegInfinity NegInfinity))
    as (E1 & E2 & E3 & E4).
  destruct (extremes_fold (map (fun s => moveShape s dx dy) l)
              (mkExtremes Infinity Infinity NegInfinity NegInfinity))
    as (F1 & F2 & F3 & F4).
  rewrite E1, E2, E3, E4, F1, F2, F3, F4. cbn [minX minY maxX maxY].
  split; [| split; [| split]].
  - apply fold_num_min_shift; [| exact I].
    apply Forall2_flat_map_shift. intros s.
    apply (contributions_moveShape s dx dy).
  - apply fold_num_min_shift; [| exact I].
    apply Forall2_flat_map_shift. intros s.
    apply (contributions_moveShape s dx dy).
  - apply fold_num_max_shift; [| exact I].
    apply Forall2_flat_map_shift. intros s.
    apply (contributions_moveShape s dx dy).
  - apply fold_num_max_shift; [| exact I].
    apply Forall2_flat_map_shift. intros s.
    apply (contributions_moveShape s dx dy).
Qed.

(** A coordinate of the picture: the moved number against the moved
    minimum is the number against the minimum. *)
Lemma coordinate_shift (n n' : Num) (v v' d pad : Q) :
  num_eq n' (num_add n (Fin d)) -> v' == v + d ->
  num_eq (num_add (Fin v') (num_add (num_neg n') (Fin pad)))
    (num_add (Fin v) (num_add (num_neg n) (Fin pad))).
Proof.
  intros Hn Hv. destruct n, n'; cbn in Hn |- *; try contradiction;
    try exact I.
  rewrite Hn, Hv. ring.
Qed.

Lemma size_shift (lo lo' hi hi' : Num) (d k : Q) :
  num_eq lo' (num_add lo (Fin d)) -> num_eq hi' (num_add hi (Fin d)) ->
  num_eq (num_add (num_sub hi' lo') (Fin k))
    (num_add (num_sub hi lo) (Fin k)).
Proof.
  intros Hlo Hhi.
  destruct lo, lo'; cbn in Hlo; try contradiction;
    destruct hi, hi'; cbn in Hhi |- *; try contradiction; try exact I.
  rewrite Hlo, Hhi. ring.
Qed.

Lemma svgElements_translated (mx mx' my my' : Num) (pad dx dy : Q)
    (s : Shape) :
  num_eq mx' (num_add mx (Fin dx)) -> num_eq my' (num_add my (Fin dy)) ->
  Forall2 element_eq
    (svgElements mx' my' pad (moveShape s dx dy))
    (svgElements mx my pad s).
Proof.
  intros Hx Hy.
  assert (CX : forall v, num_eq
                (num_add (Fin (v + dx)) (num_add (num_neg mx') (Fin pad)))
                (num_add (Fin v) (num_add (num_neg mx) (Fin pad))))
    by (intros v; now apply (coordinate_shift mx mx' v (v + dx) dx pad)).
  assert (CY : forall v, num_eq
                (num_add (Fin (v + dy)) (num_add (num_neg my') (Fin pad)))
                (num_add (Fin v) (num_add (num_neg my) (Fin pad))))
    by (intros v; now apply (coordinate_shift my my' v (v + dy) dy pad)).
  destruct s as [o v]. unfold svgElements.
  destruct v as [pts | | | ex ey | ex ey | t f g];
    cbn [moveShape variant base x y width height set_xy strokeColor
         fillColor strokeWidth].
  - (* pen *)
    rewrite length_map. destruct (1 <? length pts)%nat; [| constructor].
    constructor; [| constructor]. cbn [element_eq].
    split; [| split; reflexivity].
    induction pts as [| p pts IH]; cbn [map]; constructor; [| exact IH].
    cbn [fst snd px py]. split; [apply CX | apply CY].
  - (* rectangle *)
    constructor; [| constructor]. cbn [element_eq].
    repeat split; try reflexivity; [apply CX | apply CY].
  - (* circle *)
    constructor; [| constructor]. cbn [element_eq].
    repeat split; try reflexivity.
    + apply (coordinate_shift mx mx' _ _ dx pad Hx). ring.
    + apply (coordinate_shift my my' _ _ dy pad Hy). ring.
  - (* line *)
    constructor; [| constructor]. cbn [element_eq].
    repeat split; try reflexivity;
      [apply CX | apply CY | apply CX | apply CY].
  - (* arrow *)
    constructor.
  - (* text *)
    constructor; [| constructor]. cbn [element_eq].
    repeat split; try reflexivity; [apply CX | apply CY].
Qed.

Lemma body_translated (mx mx' my my' : Num) (pad dx dy : Q)
    (l : list Shape) :
  num_eq mx' (num_add mx (Fin dx)) -> num_eq my' (num_add my (Fin dy)) ->
  Forall2 element_eq
    (flat_map (svgElements mx' my' pad)
       (map (fun s : Shape => moveShape s dx dy) l))
    (flat_map (svgElements mx my pad) l).
Proof.
  intros Hx Hy. induction l as [| s l IH]; cbn [map flat_map];
    [constructor |].
  apply Forall2_app; [now apply svgElements_translated | exact IH].
Qed.

Lemma both_or_neither {A B : Type} (f : A -> A) (l : list A) (d' d : B)
    (R : B -> B -> Prop) :
  R d' d ->
  match
    match map f l with [] => None | _ :: _ => Some d' end,
    match l with [] => None | _ :: _ => Some d end
  with
  | Some x', Some x => R x' x
  | None, None => True
  | _, _ => False
  end.
Proof. intros H. destruct l; [exact I | exact H]. Qed.

(** X26.  The exported picture does not depend on where on the canvas
    the drawing sits: moving every shape of the document by the same
    delta gives a picture of the same width and height with the same
    elements at the same coordinates (and none exactly when the
    document has no shape). *)
Theorem svg_export_translation :
  forall (c : CanvasState) (dx dy : Q),
    match exportToSVG (translated c dx dy), exportToSVG c with
    | Some d', Some d => document_eq d' d
    | None, None => True
    | _, _ => False
    end.
Proof.
  intros c dx dy. unfold exportToSVG, translated.
  cbn [shapes set_shapes]. cbv zeta.
  apply (both_or_neither (fun s : Shape => moveShape s dx dy) (shapes c)
           _ _ document_eq).
  destruct (extremes_translated (shapes c) dx dy) as (H1 & H2 & H3 & H4).
  unfold document_eq. cbn [svg_width svg_height svg_body].
  split; [| split].
  - now apply (size_shift _ _ _ _ dx).
  - now apply (size_shift _ _ _ _ dy).
  - now apply body_translated.
Qed.

(* ================================================================== *)
(** * Rotation and the hit test *)
(* ================================================================== *)

Lemma bounds_extent_nonneg (s : Shape) :
  isBoxShape s = false ->
  0 <= bb_width (getShapeBounds s) /\ 0 <= bb_height (getShapeBounds s).
Proof.
  destruct s as [o v]. unfold isBoxShape, getShapeBounds.
  destruct v as [pts | | | ex ey | ex ey | t f g]; cbn [variant];
    intros H; try discriminate H.
  - destruct pts as [| p pts]; cbn [length Nat.eqb bb_width bb_height];
      [split; apply Qle_refl |].
    pose proof (Math_min_le (map px (p :: pts)) (px p) (or_introl eq_refl)).
    pose proof (Math_max_ge (map px (p :: pts)) (px p) (or_introl eq_refl)).
    pose proof (Math_min_le (map py (p :: pts)) (py p) (or_introl eq_refl)).
    pose proof (Math_max_ge (map py (p :: pts)) (py p) (or_introl eq_refl)).
    split; lra.
  - pose proof (Qmin_le_Qmax (x o) ex). pose proof (Qmin_le_Qmax (y o) ey).
    cbn [bb_width bb_height base x y]. split; lra.
  - pose proof (Qmin_le_Qmax (x o) ex). pose proof (Qmin_le_Qmax (y o) ey).
    cbn [bb_width bb_height base x y]. split; lra.
Qed.

Lemma hitCenter_bounds (s : Shape) :
  hitCenter s
  = mkPoint (bb_x (getShapeBounds s) + bb_width (getShapeBounds s) / 2)
      (bb_y (getShapeBounds s) + bb_height (getShapeBounds s) / 2).
Proof.
  destruct s as [o v]. destruct v; reflexivity.
Qed.

Lemma in_padded_box_centre (X Y : Q) (b : BoundingBox) :
  X == bb_x b + bb_width b / 2 -> Y == bb_y b + bb_height b / 2 ->
  -10 <= bb_width b -> -10 <= bb_height b ->
  in_padded_box X Y b 5 = true.
Proof.
  intros EX EY Hw Hh. unfold in_padded_box.
  assert (W2 : bb_width b / 2 + bb_width b / 2 == bb_width b) by field.
  assert (H2 : bb_height b / 2 + bb_height b / 2 == bb_height b) by field.
  repeat (apply andb_true_intro; split); apply Qle_bool_iff;
    rewrite ?EX, ?EY; lra.
Qed.

(** X27.  Rotation never makes a shape impossible to pick: the centre
    of a shape's bounds hits the shape under every rotation and
    whatever numbers the host's cosine and sine return, for every pen stroke,
    line and arrow and for every rectangle, circle and text whose width
    and height are not negative; the shape is then the pick at that
    point when it is the last of the array.  Rotating changes neither
    the bounds nor the centre.  (At the centre the offsets the rotation
    multiplies are 0, so the rotated point is the centre itself; with
    extents that are not negative the centre lies between the origin
    and the opposite corner, and rounding, which is monotone, keeps it
    between the padded edges.) *)
Theorem rotated_shape_hit_at_centre :
  forall (cos sin : Q -> Q) (s : Shape) (r : Q),
    isBoxShape s = false \/ (0 <= width s /\ 0 <= height s) ->
    isPointInShape cos sin (hitCenter s) (rotateShape s r) = true
    /\ isPointInShape cos sin (hitCenter s) s = true
    /\ getShapeBounds (rotateShape s r) = getShapeBounds s
    /\ hitCenter (rotateShape s r) = hitCenter s
    /\ (forall l : list Shape,
          getShapeAtPoint cos sin (hitCenter s) (l ++ [rotateShape s r])
          = Some (rotateShape s r)).
Proof.
  intros cos sin s r Hs.
  assert (Hext : -10 <= bb_width (getShapeBounds s)
                 /\ -10 <= bb_height (getShapeBounds s)).
  { destruct (isBoxShape s) eqn:Hb.
    - destruct Hs as [Hn | [Hw Hh]]; [discriminate |].
      destruct s as [o v]. destruct v; try discriminate Hb; cbn in *;
        split; lra.
    - destruct (bounds_extent_nonneg s Hb). split; lra. }
  destruct Hext as [Hw Hh].
  assert (Eb : getShapeBounds (rotateShape s r) = getShapeBounds s)
    by (destruct s as [o v]; destruct v; reflexivity).
  assert (Ec : hitCenter (rotateShape s r) = hitCenter s)
    by (destruct s as [o v]; destruct v; reflexivity).
  assert (Centre : forall t : Shape,
            getShapeBounds t = getShapeBounds s ->
            hitCenter t = hitCenter s ->
            isPointInShape cos sin (hitCenter s) t = true).
  { intros t Ht Hc. rewrite isPointInShape_unfold, Ht, Hc.
    rewrite (hitCenter_bounds s).
    destruct (truthy_num (rotation t));
      apply in_padded_box_centre; try assumption;
      unfold unrotated; cbn [px py]; ring. }
  assert (Hrot : isPointInShape cos sin (hitCenter s) (rotateShape s r)
                 = true) by (apply Centre; assumption).
  split; [exact Hrot |].
  split; [apply Centre; reflexivity |].
  split; [exact Eb |]. split; [exact Ec |].
  intros l. rewrite getShapeAtPoint_snoc, Hrot. reflexivity.
Qed.

Lemma rotated_shape_hit_at_centre_witness :
  isPointInShape sampleCos sampleSin (hitCenter sampleRect)
    (rotateShape sampleRect (1 # 2)) = true.
Proof.
  refine (proj1 (rotated_shape_hit_at_centre sampleCos sampleSin sampleRect
                   (1 # 2) _)).
  right. cbn. split; lra.
Defined.

(* ================================================================== *)
(** * Where a drag leaves the shape *)
(* ================================================================== *)

Lemma moveShape_keeps (s : Shape) (dx dy : Q) :
  id (moveShape s dx dy) = id s
  /\ rotation (moveShape s dx dy) = rotation s
  /\ zIndex (moveShape s dx dy) = zIndex s
  /\ selected (moveShape s dx dy) = selected s.
Proof. destruct s as [o v]. destruct v; repeat split; reflexivity. Qed.

Lemma draggedBy_refl (i : string) (s : Shape) : draggedBy i 0 0 s s.
Proof.
  unfold draggedBy. repeat split.
  destruct (String.eqb (id s) i); [| reflexivity].
  unfold box_eq, shiftBox. cbn. repeat split; ring.
Qed.

Lemma draggedBy_proper (i : string) (Dx Dy Dx' Dy' : Q) (s0 s1 : Shape) :
  Dx == Dx' -> Dy == Dy' ->
  draggedBy i Dx Dy s0 s1 -> draggedBy i Dx' Dy' s0 s1.
Proof.
  intros Ex Ey (Hid & Hrot & Hz & Hs & H).
  unfold draggedBy. repeat (split; [assumption |]).
  destruct (String.eqb (id s0) i); [| exact H].
  destruct H as (H1 & H2 & H3 & H4).
  unfold box_eq, shiftBox in *. cbn [bb_x bb_y bb_width bb_height] in *.
  rewrite H1, H2, H3, H4, Ex, Ey. repeat split; reflexivity.
Qed.

Lemma draggedBy_step (i : string) (Dx Dy Dx' Dy' dx dy : Q) (s0 s1 : Shape) :
  Dx' == Dx + dx -> Dy' == Dy + dy ->
  draggedBy i Dx Dy s0 s1 ->
  draggedBy i Dx' Dy' s0
    (if id_is (id s1) (Some i) then moveShape s1 dx dy else s1).
Proof.
  intros Ex Ey (Hid & Hrot & Hz & Hsel & H). unfold draggedBy.
  cbn [id_is]. rewrite Hid.
  destruct (String.eqb (id s0) i).
  - destruct (moveShape_keeps s1 dx dy) as (K1 & K2 & K3 & K4).
    rewrite K1, K2, K3, K4.
    split; [exact Hid |]. split; [exact Hrot |]. split; [exact Hz |].
    split; [exact Hsel |].
    destruct (getShapeBounds_moveShape s1 dx dy) as (B1 & B2 & B3 & B4).
    destruct H as (H1 & H2 & H3 & H4).
    unfold box_eq, shiftBox in *. cbn [bb_x bb_y bb_width bb_height] in *.
    rewrite B1, B2, B3, B4, H1, H2, H3, H4, Ex, Ey.
    repeat split; ring.
  - subst s1. repeat split.
Qed.

Lemma moves_drag_shapes (host : Host) (i : string) (c0 : CanvasState)
    (moves : list MouseEvent) :
  forall (a : AppState) (p : Point) (Dx Dy : Q),
    dragging a = true ->
    dragStart (ui a) = Some p ->
    selectedShapeId (present (history a)) = Some i ->
    viewport (present (history a)) = viewport c0 ->
    Forall2 (draggedBy i Dx Dy) (shapes c0) (shapes (present (history a))) ->
    Forall2
      (draggedBy i
         (Dx + (px (last (map (getCanvasMousePos host c0) moves) p) - px p))
         (Dy + (py (last (map (getCanvasMousePos host c0) moves) p) - py p)))
      (shapes c0)
      (shapes (present (history (run host (map MouseMove moves) a))))
    /\ selectedShapeId (present (history (run host (map MouseMove moves) a)))
       = Some i
    /\ viewport (present (history (run host (map MouseMove moves) a)))
       = viewport c0
    /\ isDrawing (ui (run host (map MouseMove moves) a)) = false.
Proof.
  induction moves as [| e moves IH]; intros a p Dx Dy Hd Ep Hsel Hv Hall.
  - cbn [map last run fold_left]. split; [| split; [exact Hsel |
      split; [exact Hv | now apply dragging_not_drawing]]].
    eapply Forall2_impl; [| exact Hall].
    intros s0 s1. apply draggedBy_proper; ring.
  - cbn [map]. rewrite run_cons, (mouseMove_drag host a p e Hd Ep).
    assert (Eq : getCanvasMousePos host (present (history a)) e
                 = getCanvasMousePos host c0 e)
      by (unfold getCanvasMousePos, screenToCanvas; now rewrite Hv).
    rewrite Eq. set (q := getCanvasMousePos host c0 e).
    rewrite last_cons_default.
    assert (Hd' : dragging
                    (mkApp
                       (pushToHistory
                          (moveSnapshot (present (history a))
                             (px q - px p) (py q - py p))
                          (history a))
                       (setDragStart (Some q) (ui a))) = true).
    { revert Hd. unfold dragging. cbn. rewrite Ep, Hsel. tauto. }
    destruct (IH _ q (Dx + (px q - px p)) (Dy + (py q - py p)) Hd'
                eq_refl Hsel Hv)
      as (R1 & R2 & R3 & R4).
    + cbn [history present pushToHistory moveSnapshot shapes set_shapes].
      rewrite Hsel. clear - Hall.
      induction Hall as [| s0 s1 l0 l1 H _ IHl]; cbn [map]; constructor;
        [| exact IHl].
      apply (draggedBy_step i Dx Dy _ _ (px q - px p) (py q - py p));
        [reflexivity | reflexivity | exact H].
    + split; [| split; [exact R2 | split; [exact R3 | exact R4]]].
      eapply Forall2_impl; [| exact R1].
      intros s0 s1. apply draggedBy_proper; ring.
Qed.

(** X28.  A drag moves the shape with the pointer.  After a drag
    gesture that picks [s] (select tool, no pan click, [n] move
    samples, release), the document is the one the pointer-down
    selected, with every shape that carries the id of [s] moved so that
    its bounds are shifted by the displacement of the pointer in canvas
    coordinates from the pointer-down to the last sample, the deltas of
    the samples adding up; id, rotation, [zIndex] and flags are kept,
    shapes with another id are untouched, the selection stays on [s]
    and the viewport is the same. *)
Theorem drag_moves_shape :
  forall (host : Host) (a : AppState) (down : MouseEvent)
         (moves : list MouseEvent) (s : Shape),
    isPanning (ui a) = false ->
    isDrawing (ui a) = false ->
    isPanClick down = false ->
    currentTool (present (history a)) = select ->
    getShapeAtPoint (Math_cos host) (Math_sin host)
      (getCanvasMousePos host (present (history a)) down)
      (shapes (present (history a))) = Some s ->
    id s <> EmptyString ->
    Forall2
      (draggedBy (id s)
         (px (last (map (getCanvasMousePos host (present (history a))) moves)
                (getCanvasMousePos host (present (history a)) down))
          - px (getCanvasMousePos host (present (history a)) down))
         (py (last (map (getCanvasMousePos host (present (history a))) moves)
                (getCanvasMousePos host (present (history a)) down))
          - py (getCanvasMousePos host (present (history a)) down)))
      (shapes (selectSnapshot (present (history a)) s))
      (shapes (present (history (run host (dragGesture down moves) a))))
    /\ selectedShapeId
         (present (history (run host (dragGesture down moves) a)))
       = Some (id s)
    /\ viewport (present (history (run host (dragGesture down moves) a)))
       = viewport (present (history a)).
Proof.
  intros host a down moves s Hpan Hdraw Hclick Htool Hhit Hid.
  pose proof (mouseDown_select_hit host a down EmptyString s
                Hclick Htool Hhit) as Hdown.
  set (c := present (history a)) in *.
  set (p0 := getCanvasMousePos host c down) in *.
  assert (Hd : dragging (step host (MouseDown down EmptyString) a) = true).
  { rewrite Hdown. unfold dragging. cbn. rewrite Hpan, Hdraw. cbn.
    destruct (id s) as [| ch r]; [congruence | reflexivity]. }
  destruct (moves_drag_shapes host (id s) (selectSnapshot c s) moves
              (step host (MouseDown down EmptyString) a) p0 0 0 Hd)
    as (R1 & R2 & R3 & R4).
  - rewrite Hdown. reflexivity.
  - rewrite Hdown. reflexivity.
  - rewrite Hdown. reflexivity.
  - rewrite Hdown. cbn [history present pushToHistory].
    clear. induction (shapes (selectSnapshot c s)) as [| s0 l IH];
      constructor; [apply draggedBy_refl | exact IH].
  - assert (Ev : forall e, getCanvasMousePos host (selectSnapshot c s) e
                           = getCanvasMousePos host c e) by reflexivity.
    assert (Em : map (getCanvasMousePos host (selectSnapshot c s)) moves
                 = map (getCanvasMousePos host c) moves)
      by (apply map_ext; exact Ev).
    rewrite Em in R1.
    unfold dragGesture.
    change (MouseDown down EmptyString :: map MouseMove moves ++ [MouseUp])
      with ((MouseDown down EmptyString :: map MouseMove moves) ++ [MouseUp]).
    rewrite run_app, (run_cons host (MouseDown down EmptyString)).
    change (history (run host [MouseUp] ?x)) with (history (step host MouseUp x)).
    rewrite (mouseUp_not_drawing host _ R4).
    split; [| split; [exact R2 | exact R3]].
    eapply Forall2_impl; [| exact R1].
    intros s0 s1. apply draggedBy_proper; ring.
Qed.

Lemma drag_moves_shape_witness :
  Forall2 (draggedBy "r1" 10 10)
    (shapes (selectSnapshot sampleDoc sampleRect))
    (shapes
       (present
          (history
             (run sampleHost
                (dragGesture sampleDown [sampleMove1; sampleMove2])
                sampleApp)))).
Proof.
  refine (Forall2_impl _ _
            (proj1 (drag_moves_shape sampleHost sampleApp sampleDown
                      [sampleMove1; sampleMove2] sampleRect _ _ _ _ _ _))).
  - intros s0 s1. apply draggedBy_proper; reflexivity.
  - reflexivity.
  - reflexivity.
  - reflexivity.
  - reflexivity.
  - reflexivity.
  - discriminate.
Defined.

(* ================================================================== *)
(** * Two fingers: the pan wins over the pinch *)
(* ================================================================== *)

(** X29.  In a two-finger move, the zoom of the pinch and the pan of the
    midpoint are both computed from the snapshot of the same render and
    the pan is queued last.  So whenever the midpoint has moved by more
    than 2 pixels on an axis since the last pan, the move ends in the
    pan alone: the zoom stays what it was, however far the fingers have
    spread, and the offset moves by the displacement of the midpoint.
    The pinch zooms only in a move whose midpoint stayed within 2
    pixels, and then by a hundredth of the change of the distance,
    clamped to [0.1, 5].  Neither commits. *)
Theorem pinch_pan_discards_zoom :
  forall (host : Host) (a : AppState) (t1 t2 : Touch) (d : Q) (p : Point),
    lastTouchDistance (ui a) = Some d ->
    ~ d == 0 ->
    panStart (ui a) = Some p ->
    (2 < Qabs (px (getTouchCenter [t1; t2]) - px p)
     \/ 2 < Qabs (py (getTouchCenter [t1; t2]) - py p) ->
     zoom (viewport (present (history (step host (TouchMove [t1; t2]) a))))
     = zoom (viewport (present (history a)))
     /\ offsetX
          (viewport (present (history (step host (TouchMove [t1; t2]) a))))
        = offsetX (viewport (present (history a)))
          + (px (getTouchCenter [t1; t2]) - px p)
     /\ offsetY
          (viewport (present (history (step host (TouchMove [t1; t2]) a))))
        = offsetY (viewport (present (history a)))
          + (py (getTouchCenter [t1; t2]) - py p))
    /\ (Qabs (px (getTouchCenter [t1; t2]) - px p) <= 2 ->
        Qabs (py (getTouchCenter [t1; t2]) - py p) <= 2 ->
        1 # 100 < Qabs ((getTouchDistance host [t1; t2] - d) * (1 # 100)) ->
        zoom (viewport (present (history (step host (TouchMove [t1; t2]) a))))
        = clamp
            (zoom (viewport (present (history a)))
             + (getTouchDistance host [t1; t2] - d) * (1 # 100))
            (1 # 10) 5)
    /\ past (history (step host (TouchMove [t1; t2]) a)) = past (history a)
    /\ future (history (step host (TouchMove [t1; t2]) a))
       = future (history a).
Proof.
  intros host a t1 t2 d p Hd Hnz Hp.
  assert (Ht : truthy_num (Some d) = true).
  { cbn. apply negb_true_iff. destruct (Qeq_bool d 0) eqn:E; [| reflexivity].
    apply Qeq_bool_iff in E. contradiction. }
  split; [| split].
  - intros Hmove.
    assert (Hb : (Qgt_bool (Qabs (px (getTouchCenter [t1; t2]) - px p)) 2
                  || Qgt_bool (Qabs (py (getTouchCenter [t1; t2]) - py p)) 2)
                 %bool = true).
    { apply orb_true_iff.
      destruct Hmove as [H | H]; [left | right]; now apply Qgt_bool_true. }
    rewrite (pinch_pan_overrides_zoom host a t1 t2 d p Hd Ht Hp Hb).
    split; [| split]; reflexivity.
  - intros Hx Hy Hz. cbn [step]. unfold handleTouchMove.
    rewrite Hd, Ht, Hp, (Qgt_bool_true _ _ Hz),
      (Qgt_bool_false _ _ Hx), (Qgt_bool_false _ _ Hy).
    reflexivity.
  - cbn [step]. unfold handleTouchMove. rewrite Hd, Ht, Hp.
    destruct (Qgt_bool _ (1 # 100)); destruct (_ || _)%bool;
      split; reflexivity.
Qed.

Lemma pinch_pan_discards_zoom_witness :
  zoom
    (viewport
       (present
          (history
             (step sampleHost
                (TouchMove [mkTouch 0 0; mkTouch 400 0])
                (mkApp (useHistory sampleDoc)
                   (setPanStart (Some (mkPoint 100 0))
                      (setLastTouchDistance (Some 50) initialUI)))))))
  = 1.
Proof.
  refine (proj1 (proj1 (pinch_pan_discards_zoom sampleHost
                          (mkApp (useHistory sampleDoc)
                             (setPanStart (Some (mkPoint 100 0))
                                (setLastTouchDistance (Some 50) initialUI)))
                          (mkTouch 0 0) (mkTouch 400 0) 50 (mkPoint 100 0)
                          _ _ _) _)).
  - reflexivity.
  - discriminate.
  - reflexivity.
  - left. reflexivity.
Defined.

(* ================================================================== *)
(** * The text tool, from the click to the shape *)
(* ================================================================== *)

(** X30.  With the text tool, a pointer-down that is not a pan click
    commits nothing, draws nothing and opens the text box at the canvas
    point under the pointer.  Confirming a text that is not blank then
    commits the document with one text shape appended whose position is
    that canvas point; confirming a blank text or cancelling commits
    nothing.  In each case the text box is closed afterwards. *)
Theorem text_tool_flow :
  forall (host : Host) (a : AppState) (e : MouseEvent) (id1 id2 : string)
         (content : jsstring),
    currentTool (present (history a)) = text ->
    isPanClick e = false ->
    (history (step host (MouseDown e id1) a) = history a
     /\ textInput (ui (step host (MouseDown e id1) a))
        = mkTextInput
            (px (getCanvasMousePos host (present (history a)) e))
            (py (getCanvasMousePos host (present (history a)) e)) true
     /\ isDrawing (ui (step host (MouseDown e id1) a)) = isDrawing (ui a)
     /\ currentShape (ui (step host (MouseDown e id1) a))
        = currentShape (ui a))
    /\ (trim content <> [] ->
        exists t : Shape,
          history (run host [MouseDown e id1; TextSubmit content id2] a)
          = pushToHistory
              (set_shapes (shapes (present (history a)) ++ [t])
                 (present (history a)))
              (history a)
          /\ x t = px (getCanvasMousePos host (present (history a)) e)
          /\ y t = py (getCanvasMousePos host (present (history a)) e)
          /\ id t = id2
          /\ variant t
             = TextShape content (cs_fontSize (present (history a)))
                 (cs_fontFamily (present (history a))))
    /\ (forallb isWhiteSpace content = true ->
        history (run host [MouseDown e id1; TextSubmit content id2] a)
        = history a)
    /\ history (run host [MouseDown e id1; TextCancel] a) = history a
    /\ visible
         (textInput
            (ui (run host [MouseDown e id1; TextSubmit content id2] a)))
       = false
    /\ visible (textInput (ui (run host [MouseDown e id1; TextCancel] a)))
       = false.
Proof.
  intros host a e id1 id2 content Htool Hpan.
  assert (Hdown :
    step host (MouseDown e id1) a
    = mkApp (history a)
        (setTextInput
           (mkTextInput
              (px (getCanvasMousePos host (present (history a)) e))
              (py (getCanvasMousePos host (present (history a)) e)) true)
           (ui a))).
  { unfold isPanClick in Hpan. cbn [step]. unfold handleMouseDown.
    rewrite Hpan, Htool. reflexivity. }
  rewrite !run_cons, Hdown.
  split; [repeat split |]. split; [| split; [| split; [| split]]].
  - intros Hne. cbn [run fold_left step history ui].
    unfold handleTextSubmit.
    destruct (trim content) as [| ch r] eqn:E; [congruence |].
    cbn [truthy_text fst snd]. eexists. split; [reflexivity |].
    repeat split.
  - intros Hws. apply trim_empty in Hws.
    cbn [run fold_left step history ui]. unfold handleTextSubmit.
    rewrite Hws. reflexivity.
  - reflexivity.
  - reflexivity.
  - reflexivity.
Qed.

Lemma text_tool_flow_witness :
  history
    (step sampleHost (MouseDown sampleDown "s1")
       (mkApp (useHistory (sampleWithTool text)) initialUI))
  = useHistory (sampleWithTool text).
Proof.
  refine (proj1 (proj1 (text_tool_flow sampleHost
                          (mkApp (useHistory (sampleWithTool text))
                             initialUI)
                          sampleDown "s1" "s2" sampleText _ _))).
  - reflexivity.
  - reflexivity.
Defined.
